(** * c3nav: the geometry-indexed raster cache

    A shallow embedding of [src/c3nav/mapdata/utils/cache/indexed.py]
    ([GeometryIndexed] and [LevelGeometryIndexed]) together with the
    properties its design document states about it.

    Conventions of the embedding:
    - Python integers are [Z]; world coordinates (Python floats) are
      idealised as rationals [Q], so [/] is exact division and
      [math.floor] and [math.ceil] are [Qfloor] and [Qceiling] (rounding
      errors of floating-point division are outside the model);
    - a numpy array is its shape [(rows, columns)] and its C-order buffer;
    - a Python exception is the [Raise] case of [result];
    - a binary stream is the list of its octets, each an integer 0..255. *)

From Stdlib Require Import ZArith QArith Qround Lia List Ascii String.
From stdpp Require Import base option list gmap strings pretty.
Import ListNotations.

Local Open Scope Z_scope.

(** ** Exceptions and fallible computations *)

Inductive exception :=
  | ValueError (msg : string)
  | struct_error
  | ZeroDivisionError
  | IndexError
  | TypeError
  | OSError.

Inductive result (A : Type) :=
  | Ok (a : A)
  | Raise (e : exception).
Arguments Ok {A} a.
Arguments Raise {A} e.

Definition bind {A B} (m : result A) (k : A -> result B) : result B :=
  match m with
  | Ok a => k a
  | Raise e => Raise e
  end.

Notation "'do' x <- m ; k" := (bind m (fun x => k))
  (at level 10, x pattern, m at level 100, k at level 200).

(** [ValueError('variant id does not match')], the format mismatch signal. *)
Definition FormatMismatch : exception := ValueError "variant id does not match".

(** ** Integer ranges

    [zrange a b] is [a, a+1, ..., b-1]; [py_range] is Python's three-argument
    [range], which refuses a zero step. *)

Definition zrange (a b : Z) : list Z := seqZ a (b - a).

Definition py_range (start stop step : Z) : result (list Z) :=
  if step =? 0 then Raise (ValueError "range() arg 3 must not be zero")
  else
    let n := if 0 <? step then (stop - start + step - 1) / step
             else (start - stop - step - 1) / (- step) in
    Ok (map (fun i => start + i * step) (zrange 0 n)).

(** [enumerate(l, start)] *)
Definition enumerate {A} (l : list A) (start : Z) : list (Z * A) :=
  zip (zrange start (start + Z.of_nat (length l))) l.

(** ** numpy arrays: shape and C-order buffer *)

Record ndarray (A : Type) := mk_ndarray {
  shape : Z * Z;          (* (rows, columns) *)
  buf : list A            (* row after row *)
}.
Arguments mk_ndarray {A} _ _.
Arguments shape {A} _.
Arguments buf {A} _.

Definition size {A} (a : ndarray A) : Z := fst (shape a) * snd (shape a).

(** The invariant numpy maintains: the buffer holds rows * columns cells. *)
Definition wf_array {A} (a : ndarray A) : Prop :=
  0 <= fst (shape a) /\ 0 <= snd (shape a) /\
  Z.of_nat (length (buf a)) = size a.

(** [np.full(shape, v)]; [np.zeros] and [np.zeros_like] are instances.
    A negative dimension is refused. *)
Definition np_full {A} (sh : Z * Z) (v : A) : result (ndarray A) :=
  if (fst sh <? 0) || (snd sh <? 0)
  then Raise (ValueError "negative dimensions are not allowed")
  else Ok (mk_ndarray sh (replicate (Z.to_nat (fst sh * snd sh)) v)).

Definition np_zeros (sh : Z * Z) : result (ndarray Z) := np_full sh 0.

Definition np_zeros_like {A} (a : ndarray A) : ndarray bool :=
  mk_ndarray (shape a) (replicate (length (buf a)) false).

(** [np.empty((0, 0))] *)
Definition np_empty00 : ndarray Z := mk_ndarray (0, 0) [].

(** Normalisation of one integer index against an axis of length [n]:
    negative indices count from the end, anything else out of range is an
    [IndexError]. *)
Definition norm_index (i n : Z) : result Z :=
  if (0 <=? i) && (i <? n) then Ok i
  else if (- n <=? i) && (i <? 0) then Ok (i + n)
  else Raise IndexError.

(** [a[iy, ix]] *)
Definition getitem2 {A} (a : ndarray A) (iy ix : Z) : result A :=
  do r <- norm_index iy (fst (shape a));
  do c <- norm_index ix (snd (shape a));
  match buf a !! Z.to_nat (r * snd (shape a) + c) with
  | Some v => Ok v
  | None => Raise IndexError
  end.

(** [a[iy, ix] = v] *)
Definition setitem2 {A} (a : ndarray A) (iy ix : Z) (v : A) : result (ndarray A) :=
  do r <- norm_index iy (fst (shape a));
  do c <- norm_index ix (snd (shape a));
  Ok (mk_ndarray (shape a) (<[Z.to_nat (r * snd (shape a) + c) := v]> (buf a))).

(** Normalisation of the slice [start:stop] against an axis of length [n]
    (Python's [slice.indices] with step 1): negative ends count from the
    end, and both ends are clipped to the axis. *)
Definition norm_slice_end (i n : Z) : Z :=
  if i <? 0 then Z.max (i + n) 0 else Z.min i n.

Definition norm_slice (start stop n : Z) : Z * Z :=
  let lo := norm_slice_end start n in
  let hi := norm_slice_end stop n in
  (lo, Z.max lo hi).

(** The cell of [a] at row [r], column [c], for indices already in range. *)
Definition cell {A} (d : A) (a : ndarray A) (r c : Z) : A :=
  nth (Z.to_nat (r * snd (shape a) + c)) (buf a) d.

(** [a[r0:r1, c0:c1].ravel()] *)
Definition slice2_ravel (a : ndarray Z) (r0 r1 c0 c1 : Z) : list Z :=
  let '(rlo, rhi) := norm_slice r0 r1 (fst (shape a)) in
  let '(clo, chi) := norm_slice c0 c1 (snd (shape a)) in
  flat_map (fun r => map (fun c => cell 0 a r c) (zrange clo chi)) (zrange rlo rhi).

(** [a[r0:r1, c0:c1] = b].  The block selected by the slices must have the
    shape of [b]; numpy would otherwise try to broadcast, which only
    succeeds for shapes that [fit_bounds] never produces, so any mismatch
    is reported as the broadcast failure. *)
Definition setslice2 (a : ndarray Z) (r0 r1 c0 c1 : Z) (b : ndarray Z)
  : result (ndarray Z) :=
  let '(rlo, rhi) := norm_slice r0 r1 (fst (shape a)) in
  let '(clo, chi) := norm_slice c0 c1 (snd (shape a)) in
  if (rhi - rlo =? fst (shape b)) && (chi - clo =? snd (shape b)) then
    let w := snd (shape a) in
    Ok (mk_ndarray (shape a)
          (imap (fun i old =>
                   let r := Z.of_nat i / w in
                   let c := Z.of_nat i mod w in
                   if (rlo <=? r) && (r <? rhi) && (clo <=? c) && (c <? chi)
                   then cell old b (r - rlo) (c - clo)
                   else old)
                (buf a)))
  else Raise (ValueError "could not broadcast input array").

(** [a[mask]]: the cells selected by a boolean mask, in C order. *)
Definition getmask (a : ndarray Z) (mask : ndarray bool) : result (list Z) :=
  if (fst (shape a) =? fst (shape mask)) && (snd (shape a) =? snd (shape mask))
  then Ok (omap (fun p : bool * Z => if p.1 then Some p.2 else None)
                (zip (buf mask) (buf a)))
  else Raise IndexError.

(** The conversion numpy applies when a Python integer is stored into a
    [uint16] array (in the numpy versions that still have [np.bool] and
    [np.fromstring]): the value wraps around. *)
Definition as_uint16 (v : Z) : Z := v mod 65536.

(** [a[mask] = value] *)
Definition setmask (a : ndarray Z) (mask : ndarray bool) (value : Z)
  : result (ndarray Z) :=
  if (fst (shape a) =? fst (shape mask)) && (snd (shape a) =? snd (shape mask))
  then Ok (mk_ndarray (shape a)
             (zip_with (fun (m : bool) old => if m then as_uint16 value else old)
                       (buf mask) (buf a)))
  else Raise IndexError.

(** ** [struct]: the ten-octet header, format [<BBhhHH] *)

Definition stream := list Z.

Definition in_range (lo hi v : Z) : bool := (lo <=? v) && (v <=? hi).

(** Two octets, least significant first. *)
Definition le16 (u : Z) : list Z := [u mod 256; (u / 256) mod 256].

Definition pack_B (v : Z) : result (list Z) :=
  if in_range 0 255 v then Ok [v] else Raise struct_error.

Definition pack_h (v : Z) : result (list Z) :=
  if in_range (-32768) 32767 v then Ok (le16 (v mod 65536)) else Raise struct_error.

Definition pack_H (v : Z) : result (list Z) :=
  if in_range 0 65535 v then Ok (le16 v) else Raise struct_error.

(** [struct.pack('<BBhhHH', b0, b1, h0, h1, H0, H1)] *)
Definition struct_pack (b0 b1 h0 h1 H0 H1 : Z) : result (list Z) :=
  do p0 <- pack_B b0;
  do p1 <- pack_B b1;
  do p2 <- pack_h h0;
  do p3 <- pack_h h1;
  do p4 <- pack_H H0;
  do p5 <- pack_H H1;
  Ok (p0 ++ p1 ++ p2 ++ p3 ++ p4 ++ p5).

Definition unpack_H (lo hi : Z) : Z := lo + 256 * hi.

Definition unpack_h (lo hi : Z) : Z :=
  let u := unpack_H lo hi in
  if 32768 <=? u then u - 65536 else u.

(** [struct.unpack('<BBhhHH', bs)]: the buffer must hold exactly ten octets. *)
Definition struct_unpack (bs : list Z) : result (Z * Z * Z * Z * Z * Z) :=
  match bs with
  | [b0; b1; b2; b3; b4; b5; b6; b7; b8; b9] =>
      Ok (b0, b1, unpack_h b2 b3, unpack_h b4 b5, unpack_H b6 b7, unpack_H b8 b9)
  | _ => Raise struct_error
  end.

(** [f.read(n)]: up to [n] octets and the stream behind them. *)
Definition f_read (n : Z) (f : stream) : list Z * stream :=
  (take (Z.to_nat n) f, drop (Z.to_nat n) f).

(** [dtype().itemsize] of [np.uint16] *)
Definition itemsize : Z := 2.

(** [a.tobytes('C')] for a [uint16] array: row after row, every cell in
    the byte order of the machine, which is little-endian wherever the
    format comment of the class holds. *)
Definition tobytes (a : ndarray Z) : list Z := flat_map le16 (buf a).

(** [np.fromstring(raw, np.uint16)]: a flat array, or an error when the
    octets do not make whole cells. *)
Fixpoint fromstring (raw : list Z) : result (list Z) :=
  match raw with
  | [] => Ok []
  | lo :: hi :: rest => do cells <- fromstring rest; Ok (unpack_H lo hi :: cells)
  | [_] => Raise (ValueError "string size must be a multiple of element size")
  end.

(** [flat.reshape((height, width))] *)
Definition reshape (flat : list Z) (sh : Z * Z) : result (ndarray Z) :=
  if (0 <=? fst sh) && (0 <=? snd sh) && (Z.of_nat (length flat) =? fst sh * snd sh)
  then Ok (mk_ndarray sh flat)
  else Raise (ValueError "cannot reshape array").

(** ** [GeometryIndexed] *)

Record GeometryIndexed := mk_grid {
  resolution : Z;
  x : Z;
  y : Z;
  data : ndarray Z;
  filename : option string
}.

(** What a format variant (the class, or a subclass of it) fixes. *)
Record variant := mk_variant {
  variant_id : Z
}.

(** The base class: [variant_id = 0]. *)
Definition base_variant : variant := mk_variant 0.

Definition _get_empty_array : ndarray Z := np_empty00.

(** [__init__], with [resolution] given *)
Definition init (resolution x y : Z) (data : option (ndarray Z))
    (filename : option string) : GeometryIndexed :=
  mk_grid resolution x y
          (match data with Some d => d | None => _get_empty_array end)
          filename.

(** The keyword arguments [read] collects for the constructor. *)
Record kwargs := mk_kwargs {
  kw_resolution : Z;
  kw_x : Z;
  kw_y : Z
}.

(** The metadata hooks of the base class do nothing. *)
Definition _read_metadata (f : stream) (kw : kwargs) : kwargs * stream := (kw, f).
Definition _write_metadata (self : GeometryIndexed) (f : stream) : stream := f.

(** [read]: the decoded grid or the exception, and the stream as the call
    leaves it. *)
Definition read (cls : variant) (f : stream) : result GeometryIndexed * stream :=
  let '(hdr, f) := f_read 10 f in
  match struct_unpack hdr with
  | Raise e => (Raise e, f)
  | Ok (vid, resolution, x, y, width, height) =>
      if negb (vid =? variant_id cls)
      then (Raise (ValueError "variant id does not match"), f)
      else
        let kw := mk_kwargs resolution x y in
        let '(kw, f) := _read_metadata f kw in
        let '(raw, f) := f_read (width * height * itemsize) f in
        (do flat <- fromstring raw;
         do data <- reshape flat (height, width);
         Ok (init (kw_resolution kw) (kw_x kw) (kw_y kw) (Some data) None), f)
  end.

(** [write]: the stream with the encoding appended, or the exception
    [struct.pack] raises before anything is written. *)
Definition write (cls : variant) (self : GeometryIndexed) (f : stream) : result stream :=
  do hdr <- struct_pack (variant_id cls) (resolution self) (x self) (y self)
                        (snd (shape (data self))) (fst (shape (data self)));
  let f := f ++ hdr in
  let f := _write_metadata self f in
  Ok (f ++ tobytes (data self)).

(** ** Geometries

    The grid observes a shapely geometry through two operations only: its
    [bounds] and the prepared [intersects] test against the box of a cell,
    whose corners are integers.  An empty geometry has no bounds, here
    [None]: shapely reports the empty tuple (four NaN in later versions),
    and either way [_get_geometry_bounds] ends in a [ValueError]. *)

Record geometry := mk_geometry {
  bounds : option (Q * Q * Q * Q);
  intersects_box : Z -> Z -> Z -> Z -> bool
}.

Definition Qleb (a b : Q) : bool := Qle_bool a b.


(** [Point(px, py)]: it meets a box when it lies in it, border included. *)
Definition Point (px py : Q) : geometry :=
  mk_geometry (Some (px, py, px, py))
    (fun x0 y0 x1 y1 =>
       Qleb (inject_Z (Z.min x0 x1)) px && Qleb px (inject_Z (Z.max x0 x1)) &&
       Qleb (inject_Z (Z.min y0 y1)) py && Qleb py (inject_Z (Z.max y0 y1))).

(** [box(minx, miny, maxx, maxy)], the filled axis-aligned rectangle: two
    closed rectangles meet when their projections on both axes overlap. *)
Definition box (minx miny maxx maxy : Q) : geometry :=
  let lox := if Qleb minx maxx then minx else maxx in
  let hix := if Qleb minx maxx then maxx else minx in
  let loy := if Qleb miny maxy then miny else maxy in
  let hiy := if Qleb miny maxy then maxy else miny in
  mk_geometry (Some (lox, loy, hix, hiy))
    (fun x0 y0 x1 y1 =>
       Qleb lox (inject_Z (Z.max x0 x1)) && Qleb (inject_Z (Z.min x0 x1)) hix &&
       Qleb loy (inject_Z (Z.max y0 y1)) && Qleb (inject_Z (Z.min y0 y1)) hiy).

(** ** Operations of [GeometryIndexed] *)

(** [int(math.floor(v / resolution))] and [int(math.ceil(v / resolution))],
    with exact division.  The code divides floating-point numbers: the
    two agree where the quotient is a floating-point number itself (a
    whole multiple of the resolution, say), and rounding is monotone, so
    floor never exceeds ceiling on ordered arguments; where the rounded
    quotient lands on a whole number the code's floor and ceiling
    coincide.  Properties of other inputs are therefore stated over the
    envelope that [_get_geometry_bounds] returns, not over its value. *)
Definition floor_div (v : Q) (res : Z) : Z := Qfloor (v / inject_Z res).
Definition ceil_div (v : Q) (res : Z) : Z := Qceiling (v / inject_Z res).

Definition _get_geometry_bounds (self : GeometryIndexed) (geom : geometry)
  : result (Z * Z * Z * Z) :=
  match bounds geom with
  | None => Raise (ValueError "not enough values to unpack")
  | Some (minx, miny, maxx, maxy) =>
      if resolution self =? 0 then Raise ZeroDivisionError
      else Ok (floor_div minx (resolution self),
               floor_div miny (resolution self),
               ceil_div maxx (resolution self),
               ceil_div maxy (resolution self))
  end.

Definition fit_bounds (self : GeometryIndexed) (minx miny maxx maxy : Z)
  : result GeometryIndexed :=
  let '(height, width) := shape (data self) in
  let nonempty := negb (size (data self) =? 0) in
  let '(minx, miny, maxx, maxy) :=
    if nonempty
    then (Z.min (x self) minx, Z.min (y self) miny,
          Z.max (x self + width) maxx, Z.max (y self + height) maxy)
    else (minx, miny, maxx, maxy) in
  do new_data <- np_zeros (maxy - miny, maxx - minx);
  do new_data <-
    (if nonempty
     then
       let dx := x self - minx in
       let dy := y self - miny in
       setslice2 new_data dy (dy + height) dx (dx + width) (data self)
     else Ok new_data);
  Ok (mk_grid (resolution self) minx miny new_data (filename self)).

(** A [for] loop whose body may raise. *)
Fixpoint for_each {A S} (l : list A) (body : S -> A -> result S) (s : S) : result S :=
  match l with
  | [] => Ok s
  | a :: l => do s <- body s a; for_each l body s
  end.

Definition get_geometry_cells (self : GeometryIndexed) (geom : geometry)
    (bounds : option (Z * Z * Z * Z)) : result (ndarray bool) :=
  do b <- match bounds with
          | None => _get_geometry_bounds self geom
          | Some b => Ok b
          end;
  let '(minx, miny, maxx, maxy) := b in
  let '(height, width) := shape (data self) in
  let minx := Z.max minx (x self) in
  let miny := Z.max miny (y self) in
  let maxx := Z.min maxx (x self + width) in
  let maxy := Z.min maxy (y self + height) in
  let cells := np_zeros_like (data self) in
  let res := resolution self in
  do ys <- py_range (miny * res) (maxy * res) res;
  for_each (enumerate ys (miny - y self))
    (fun cells '(iy, y) =>
       do xs <- py_range (minx * res) (maxx * res) res;
       for_each (enumerate xs (minx - x self))
         (fun cells '(ix, x) =>
            if intersects_box geom x y (x + res) (y + res)
            then setitem2 cells iy ix true
            else Ok cells)
         cells)
    cells.

(** The [bounds] property. *)
Definition grid_bounds (self : GeometryIndexed) : Z * Z * Z * Z :=
  let '(height, width) := shape (data self) in
  (x self, y self, x self + width, y self + height).

(** Index keys: a pair of slices over world coordinates, a geometry, or
    anything else. *)
Record slice := mk_slice { start : Q; stop : Q }.

Inductive key :=
  | KTuple (xx yy : slice)
  | KGeometry (geom : geometry)
  | KOther.

(** [__getitem__] *)
Definition getitem (self : GeometryIndexed) (k : key) : result (list Z) :=
  match k with
  | KTuple xx yy =>
      if resolution self =? 0 then Raise ZeroDivisionError
      else
        let minx := floor_div (start xx) (resolution self) in
        let miny := floor_div (start yy) (resolution self) in
        let maxx := ceil_div (stop xx) (resolution self) in
        let maxy := ceil_div (stop yy) (resolution self) in
        let minx := Z.max 0 (minx - x self) in
        let miny := Z.max 0 (miny - y self) in
        let maxx := Z.max 0 (maxx - x self) in
        let maxy := Z.max 0 (maxy - y self) in
        Ok (slice2_ravel (data self) miny maxy minx maxx)
  | KGeometry geom =>
      do bounds <- _get_geometry_bounds self geom;
      do cells <- get_geometry_cells self geom (Some bounds);
      getmask (data self) cells
  | KOther => Raise TypeError
  end.

(** [__setitem__] updates the grid in place; the embedding returns the grid
    as a call that completes leaves it. *)
Definition setitem (self : GeometryIndexed) (k : key) (value : Z)
  : result GeometryIndexed :=
  match k with
  | KGeometry geom =>
      do bounds <- _get_geometry_bounds self geom;
      let '(minx, miny, maxx, maxy) := bounds in
      do self <- fit_bounds self minx miny maxx maxy;
      do cells <- get_geometry_cells self geom (Some bounds);
      do data <- setmask (data self) cells value;
      Ok (mk_grid (resolution self) (x self) (y self) data (filename self))
  | _ => Raise TypeError
  end.

(** ** Files

    The file system maps a path to the octets of the file.  [open] and
    [save] are the only operations that touch it. *)

Definition filesystem := gmap string stream.

(** [open]: a missing file is an [OSError]; the decoded instance remembers
    where it came from. *)
Definition open (cls : variant) (fs : filesystem) (name : string)
  : result GeometryIndexed :=
  match fs !! name with
  | None => Raise OSError
  | Some f =>
      do instance <- fst (read cls f);
      Ok (mk_grid (resolution instance) (x instance) (y instance)
                  (data instance) (Some name))
  end.

(** [save]: the file is truncated when it is opened, before [write] runs. *)
Definition save (cls : variant) (self : GeometryIndexed) (name : option string)
    (fs : filesystem) : result unit * filesystem :=
  let name := match name with Some n => Some n | None => filename self end in
  match name with
  | None => (Raise (ValueError "Missing filename."), fs)
  | Some n =>
      match write cls self [] with
      | Ok f => (Ok tt, <[n := f]> fs)
      | Raise e => (Raise e, <[n := []]> fs)
      end
  end.

(** ** [LevelGeometryIndexed] *)

Record level_class := mk_level_class {
  level_variant : variant;
  variant_name : option string
}.

Definition str_of_name (n : option string) : string :=
  match n with Some s => s | None => "None" end.

(** [os.path.join(root, name)] on a POSIX system *)
Definition path_join (root name : string) : string :=
  if String.prefix "/" name then name
  else if (String.length root =? 0)%nat then name
  else match String.get (String.length root - 1) root with
       | Some "/"%char => root +:+ name
       | _ => root +:+ "/" +:+ name
       end.

Section LevelFiles.
(** [settings.CACHE_ROOT] *)
Variable CACHE_ROOT : string.

Definition level_filename (cls : level_class) (level_id : Z) (mode : string) : string :=
  path_join CACHE_ROOT
    (str_of_name (variant_name cls) +:+ "_" +:+ mode +:+ "_level_" +:+ pretty level_id).

Definition open_level (cls : level_class) (fs : filesystem) (level_id : Z)
    (mode : string) : result GeometryIndexed :=
  open (level_variant cls) fs (level_filename cls level_id mode).

Definition save_level (cls : level_class) (self : GeometryIndexed) (level_id : Z)
    (mode : string) (fs : filesystem) : result unit * filesystem :=
  save (level_variant cls) self (Some (level_filename cls level_id mode)) fs.

(** *** The process cache

    The class attributes [cached] and [cache_key] are the state; the lock
    makes every call of [open_level_cached] one atomic step.  A step sees
    the world as it is at that moment: the token the map-update
    collaborator reports and the files on disk. *)

Context {token : Type} `{EqDecision token}.

Record cache_state := mk_cache {
  cached : gmap (Z * string) GeometryIndexed;
  cache_key : option token
}.

(** Class creation: [cached = {}], [cache_key = None]. *)
Definition cache_init : cache_state := mk_cache ∅ None.

Record world := mk_world {
  current_processed_cache_key : token;
  files : filesystem
}.

(** One call.  Besides the result and the next state it reports the
    loads it performed: the keys [open_level] was called with. *)
Definition open_level_cached (cls : level_class) (st : cache_state) (w : world)
    (level_id : Z) (mode : string)
  : result GeometryIndexed * cache_state * list (Z * string) :=
  let cache_key' := current_processed_cache_key w in
  let '(st, hit) :=
    if decide (cache_key st = Some cache_key')
    then (st, cached st !! (level_id, mode))
    else (mk_cache ∅ (Some cache_key'), None) in
  match hit with
  | Some result => (Ok result, st, [])
  | None =>
      match open_level cls (files w) level_id mode with
      | Ok result =>
          (Ok result,
           mk_cache (<[(level_id, mode) := result]> (cached st)) (cache_key st),
           [(level_id, mode)])
      | Raise e => (Raise e, st, [(level_id, mode)])
      end
  end.

(** A sequence of calls, each in the world of its moment.  The trace
    records, call by call, the key asked for, the result and the loads the
    call performed. *)
Fixpoint run (cls : level_class) (st : cache_state)
    (calls : list (world * (Z * string)))
  : cache_state * list ((Z * string) * result GeometryIndexed * list (Z * string)) :=
  match calls with
  | [] => (st, [])
  | (w, (level_id, mode)) :: calls =>
      let '(r, st, loads) := open_level_cached cls st w level_id mode in
      let '(st, trace) := run cls st calls in
      (st, ((level_id, mode), r, loads) :: trace)
  end.
End LevelFiles.

Arguments cache_state token : clear implicits.
Arguments world token : clear implicits.

(** * Vocabulary of the properties *)

(** ** Grid invariants *)

(** Cells of a [uint16] array. *)
Definition is_uint16 (v : Z) : Prop := 0 <= v < 65536.

(** The invariant of every grid the program builds: [data] is a proper
    numpy array of [uint16] cells. *)
Definition wf_grid (g : GeometryIndexed) : Prop :=
  wf_array (data g) /\ Forall is_uint16 (buf (data g)).

(** The header fields fit the widths the binary format gives them. *)
Definition representable (cls : variant) (g : GeometryIndexed) : Prop :=
  0 <= variant_id cls <= 255 /\
  0 <= resolution g <= 255 /\
  -32768 <= x g <= 32767 /\
  -32768 <= y g <= 32767 /\
  snd (shape (data g)) <= 65535 /\
  fst (shape (data g)) <= 65535.

(** The value stored for the grid cell [(cx, cy)] (grid-cell coordinates),
    when the extent covers it; [get_geometry_cells] fixes the convention:
    column [cx - x], row [cy - y]. *)
Definition cell_at (g : GeometryIndexed) (cx cy : Z) : option Z :=
  let '(height, width) := shape (data g) in
  if (x g <=? cx) && (cx <? x g + width) && (y g <=? cy) && (cy <? y g + height)
  then buf (data g) !! Z.to_nat ((cy - y g) * width + (cx - x g))
  else None.

(** ** Rasterization *)

(** The test [get_geometry_cells] applies to the grid cell [(cx, cy)]:
    does the geometry meet the cell's square in world coordinates? *)
Definition cell_hit (g : GeometryIndexed) (geom : geometry) (cx cy : Z) : bool :=
  let res := resolution g in
  intersects_box geom (cx * res) (cy * res) (cx * res + res) (cy * res + res).

(** Whether a mask over the array of [g] marks the grid cell [(cx, cy)]. *)
Definition marked (g : GeometryIndexed) (m : ndarray bool) (cx cy : Z) : bool :=
  let '(height, width) := shape m in
  (x g <=? cx) && (cx <? x g + width) && (y g <=? cy) && (cy <? y g + height) &&
  nth (Z.to_nat ((cy - y g) * width + (cx - x g))) (buf m) false.

(** The number of cells a mask marks. *)
Definition count_marked (m : ndarray bool) : nat :=
  length (filter (fun b : bool => b = true) (buf m)).

(** Octets of a binary stream. *)
Definition is_octet (b : Z) : Prop := 0 <= b <= 255.

(** The six header fields are in the ranges [struct.pack] accepts. *)
Definition header_fits (cls : variant) (g : GeometryIndexed) : Prop :=
  0 <= variant_id cls <= 255 /\
  0 <= resolution g <= 255 /\
  -32768 <= x g <= 32767 /\
  -32768 <= y g <= 32767 /\
  0 <= snd (shape (data g)) <= 65535 /\
  0 <= fst (shape (data g)) <= 65535.

(** Whether the character [c] occurs in a string. *)
Fixpoint occurs (c : ascii) (s : string) : bool :=
  match s with
  | EmptyString => false
  | String c' s' => if Ascii.eqb c c' then true else occurs c s'
  end.

(** ** Sample data *)

(** A 2 x 3 grid at origin (-3, 7), resolution 4. *)
Definition sample_grid : GeometryIndexed :=
  mk_grid 4 (-3) 7 (mk_ndarray (2, 3) [1; 2; 3; 4; 5; 65535]) None.

(** The empty grid a writer starts from, at resolution 4. *)
Definition empty_grid : GeometryIndexed := init 4 0 0 None None.

(** A grid without cells whose array still has three columns. *)
Definition thin_grid : GeometryIndexed :=
  mk_grid 4 9 9 (mk_ndarray (0, 3) []) None.

(** A class of level grids and a cache directory holding one of its files. *)
Definition sample_class : level_class := mk_level_class base_variant (Some "sample").

Definition sample_files : filesystem :=
  snd (save_level "/cache" sample_class sample_grid 3 "base" ∅).

(** Two calls for the same key under the token 1. *)
Definition sample_calls : list (world Z * (Z * string)) :=
  [(mk_world 1 sample_files, (3, "base")); (mk_world 1 sample_files, (3, "base"))].

(** A complete header of another variant, followed by one octet. *)
Definition foreign_stream : stream := [1; 4; 0; 0; 0; 0; 0; 0; 0; 0; 9].

(** The encoding of [sample_grid], followed by one more octet. *)
Definition sample_stream : stream :=
  [0; 4; 253; 255; 7; 0; 3; 0; 2; 0; 1; 0; 2; 0; 3; 0; 4; 0; 5; 0; 255; 255; 9].

(** A subclass with another variant id. *)
Definition other_variant : variant := mk_variant 1.

(** A grid whose resolution does not fit the header. *)
Definition coarse_grid : GeometryIndexed :=
  mk_grid 300 0 0 (mk_ndarray (0, 0) []) None.

(** A point inside the cell (-1, 7) of [sample_grid]. *)
Definition sample_point : geometry := Point (-1 # 2) (61 # 2).

(** A world rectangle over the cells (-2, 7) and (-1, 7). *)
Definition sample_xx : slice := mk_slice (-8 # 1) (0 # 1).
Definition sample_yy : slice := mk_slice (28 # 1) (32 # 1).

(** * Theorems *)

(** ** The codec *)

Lemma in_range_true lo hi v : lo <= v <= hi -> in_range lo hi v = true.
Proof. unfold in_range. intros. apply andb_true_intro. split; lia. Qed.

Lemma unpack_H_le16 u : 0 <= u < 65536 ->
  unpack_H (u mod 256) ((u / 256) mod 256) = u.
Proof.
  intros Hu. unfold unpack_H.
  rewrite (Z.mod_small (u / 256)).
  - pose proof (Z.div_mod u 256). lia.
  - split; [apply Z.div_pos; lia | apply Z.div_lt_upper_bound; lia].
Qed.

Lemma unpack_h_le16 v : -32768 <= v <= 32767 ->
  unpack_h ((v mod 65536) mod 256) (((v mod 65536) / 256) mod 256) = v.
Proof.
  intros Hv. unfold unpack_h.
  rewrite unpack_H_le16 by (apply Z.mod_pos_bound; lia).
  destruct (Z.leb_spec 32768 (v mod 65536)) as [H|H].
  - destruct (Z_lt_le_dec v 0) as [Hn|Hp].
    + assert (E : v mod 65536 = v + 65536).
      { symmetry. apply (Z.mod_unique v 65536 (-1)); lia. }
      lia.
    + rewrite Z.mod_small in H by lia. lia.
  - destruct (Z_lt_le_dec v 0) as [Hn|Hp].
    + assert (E : v mod 65536 = v + 65536).
      { symmetry. apply (Z.mod_unique v 65536 (-1)); lia. }
      lia.
    + rewrite Z.mod_small by lia. lia.
Qed.

Lemma fromstring_tobytes (cells : list Z) :
  Forall is_uint16 cells -> fromstring (flat_map le16 cells) = Ok cells.
Proof.
  induction 1 as [|v cells Hv _ IH]; [reflexivity|].
  cbn [flat_map le16 app fromstring]. rewrite IH. cbn [bind].
  now rewrite unpack_H_le16.
Qed.

Lemma length_tobytes (a : ndarray Z) :
  length (tobytes a) = (2 * length (buf a))%nat.
Proof.
  unfold tobytes. induction (buf a) as [|v l IH]; [reflexivity|].
  cbn [flat_map le16 app]. cbn [length]. lia.
Qed.

Lemma struct_pack_ok b0 b1 h0 h1 H0 H1 :
  0 <= b0 <= 255 -> 0 <= b1 <= 255 ->
  -32768 <= h0 <= 32767 -> -32768 <= h1 <= 32767 ->
  0 <= H0 <= 65535 -> 0 <= H1 <= 65535 ->
  struct_pack b0 b1 h0 h1 H0 H1 =
  Ok ([b0; b1] ++ le16 (h0 mod 65536) ++ le16 (h1 mod 65536) ++ le16 H0 ++ le16 H1).
Proof.
  intros. unfold struct_pack, pack_B, pack_h, pack_H.
  rewrite !in_range_true by lia. reflexivity.
Qed.

(** What [write] appends to a stream, for a representable grid. *)
Lemma write_ok cls g f :
  representable cls g -> wf_grid g ->
  write cls g f =
  Ok (f ++ [variant_id cls; resolution g] ++ le16 (x g mod 65536) ++ le16 (y g mod 65536)
        ++ le16 (snd (shape (data g))) ++ le16 (fst (shape (data g)))
        ++ tobytes (data g)).
Proof.
  intros (Hv & Hr & Hx & Hy & Hw & Hh) [(Hh0 & Hw0 & _) _].
  unfold write. rewrite struct_pack_ok by lia.
  cbn [bind]. unfold _write_metadata. f_equal.
  rewrite <- !app_assoc. reflexivity.
Qed.

Lemma read_header cls b0 b1 b2 b3 b4 b5 b6 b7 b8 b9 rest :
  read cls (b0 :: b1 :: b2 :: b3 :: b4 :: b5 :: b6 :: b7 :: b8 :: b9 :: rest) =
  if negb (b0 =? variant_id cls)
  then (Raise FormatMismatch, rest)
  else
    let width := unpack_H b6 b7 in
    let height := unpack_H b8 b9 in
    (do flat <- fromstring (take (Z.to_nat (width * height * itemsize)) rest);
     do data <- reshape flat (height, width);
     Ok (mk_grid b1 (unpack_h b2 b3) (unpack_h b4 b5) data None),
     drop (Z.to_nat (width * height * itemsize)) rest).
Proof. reflexivity. Qed.

(** C1 (round trip).  For a grid whose header fields fit the binary format
    (resolution in u8, origin in i16, height and width in u16) and whose
    array is a proper [uint16] array, [write] succeeds, appending to the
    stream an encoding that does not depend on what the stream held; and
    [read], on a stream that starts with this encoding, returns a grid
    with the same resolution, the same origin, the same shape and the
    same cells, having consumed the encoding and nothing behind it. *)
Theorem roundtrip_read_write cls g :
  representable cls g -> wf_grid g ->
  exists s,
    (forall f, write cls g f = Ok (f ++ s)) /\
    (forall rest,
       read cls (s ++ rest) =
       (Ok (mk_grid (resolution g) (x g) (y g) (data g) None), rest)).
Proof.
  intros Hrep Hwf.
  eexists. split; [intros f; apply (write_ok cls g f Hrep Hwf)|].
  intros rest.
  destruct Hrep as (Hv & Hr & Hx & Hy & Hw & Hh).
  destruct Hwf as [(Hh0 & Hw0 & Hlen) Hcells].
  rewrite <- !app_assoc. cbn [le16 app]. rewrite read_header.
  rewrite Z.eqb_refl. cbn [negb].
  rewrite !unpack_h_le16, !unpack_H_le16 by lia.
  cbv zeta.
  assert (Hn : Z.to_nat (snd (shape (data g)) * fst (shape (data g)) * itemsize) =
               length (tobytes (data g))).
  { rewrite length_tobytes. unfold size, itemsize in *. lia. }
  rewrite take_app_length', drop_app_length' by exact Hn.
  unfold tobytes. rewrite fromstring_tobytes by exact Hcells.
  cbn [bind]. unfold reshape. cbn [fst snd].
  replace (Z.of_nat (length (buf (data g))) =? _) with true
    by (symmetry; apply Z.eqb_eq; exact Hlen).
  replace (0 <=? _) with true by (symmetry; apply Z.leb_le; lia).
  replace (0 <=? _) with true by (symmetry; apply Z.leb_le; lia).
  cbn [andb bind]. destruct (data g) as [[h w] cells]. reflexivity.
Qed.


Lemma roundtrip_read_write_witness :
  representable base_variant sample_grid /\ wf_grid sample_grid /\
  exists s, write base_variant sample_grid [] = Ok s /\
    read base_variant (s ++ [7]) =
    (Ok (mk_grid 4 (-3) 7 (mk_ndarray (2, 3) [1; 2; 3; 4; 5; 65535]) None), [7]).
Proof.
  assert (Hrep : representable base_variant sample_grid)
    by (unfold representable; simpl; lia).
  assert (Hwf : wf_grid sample_grid).
  { split; [unfold wf_array, size; simpl; lia|].
    simpl. repeat constructor; unfold is_uint16; lia. }
  split; [exact Hrep|]. split; [exact Hwf|].
  destruct (roundtrip_read_write base_variant sample_grid Hrep Hwf) as (s & Hw & Hr).
  exists s. split; [exact (Hw []) | exact (Hr [7])].
Defined.

Lemma le16_wrap v :
  le16 (v mod 65536) = [v mod 256; (v / 256) mod 256].
Proof.
  unfold le16.
  change 65536 with (256 * 256).
  rewrite Z.rem_mul_r by lia.
  pose proof (Z.mod_pos_bound v 256 ltac:(lia)) as Hr.
  pose proof (Z.mod_pos_bound (v / 256) 256 ltac:(lia)) as Hq.
  set (r := v mod 256) in *. set (q := (v / 256) mod 256) in *.
  assert (E1 : (r + 256 * q) mod 256 = r)
    by (symmetry; apply (Z.mod_unique _ _ q); lia).
  assert (E2 : (r + 256 * q) / 256 = q)
    by (symmetry; apply (Z.div_unique _ _ q r); lia).
  rewrite E1, E2. f_equal. f_equal. apply Z.mod_small. lia.
Qed.

Lemma le16_small u : 0 <= u < 65536 -> le16 u = [u mod 256; u / 256].
Proof.
  intros Hu. unfold le16. rewrite (Z.mod_small (u / 256)); [reflexivity|].
  split; [apply Z.div_pos; lia | apply Z.div_lt_upper_bound; lia].
Qed.

Lemma le16_octets u : Forall is_octet (le16 u).
Proof.
  unfold le16, is_octet.
  repeat constructor;
    match goal with |- context [?a mod 256] => pose proof (Z.mod_pos_bound a 256) end; lia.
Qed.

Lemma tobytes_octets a : Forall is_octet (tobytes a).
Proof.
  unfold tobytes. induction (buf a) as [|v l IH]; [constructor|].
  cbn [flat_map]. apply Forall_app. split; [apply le16_octets | exact IH].
Qed.

Lemma tobytes_lookup (cells : list Z) (i : nat) v :
  cells !! i = Some v ->
  flat_map le16 cells !! (2 * i)%nat = Some (v mod 256) /\
  flat_map le16 cells !! (2 * i + 1)%nat = Some ((v / 256) mod 256).
Proof.
  revert i. induction cells as [|c cells IH]; intros i Hi; [discriminate|].
  destruct i as [|i].
  - injection Hi as ->. split; reflexivity.
  - cbn in Hi. destruct (IH i Hi) as [H0 H1].
    replace (2 * S i)%nat with (S (S (2 * i))) by lia.
    replace (S (S (2 * i)) + 1)%nat with (S (S (2 * i + 1))) by lia.
    split; [exact H0 | exact H1].
Qed.

(** C6 (binary layout).  For a representable, proper grid the stream
    [write] emits is: the variant id, the resolution, the origin x and y
    as two's-complement 16-bit little-endian, the width and then the
    height as 16-bit little-endian, whatever the metadata hook appends
    (nothing in the base class), and then width * height * itemsize
    octets of cells; the cell of array row [r] and column [c], which is
    the grid cell [(x + c, y + r)], occupies the two octets at payload
    offset itemsize * (r * width + c), low octet first. *)
Theorem write_layout cls g :
  representable cls g -> wf_grid g ->
  let width := snd (shape (data g)) in
  let height := fst (shape (data g)) in
  let header := [variant_id cls; resolution g;
                 x g mod 256; (x g / 256) mod 256;
                 y g mod 256; (y g / 256) mod 256;
                 width mod 256; width / 256;
                 height mod 256; height / 256] in
  exists payload,
    write cls g [] = Ok (_write_metadata g header ++ payload) /\
    _write_metadata g header = header /\
    Z.of_nat (length payload) = width * height * itemsize /\
    Forall is_octet (header ++ payload) /\
    forall r c, 0 <= r < height -> 0 <= c < width ->
      exists v, cell_at g (x g + c) (y g + r) = Some v /\
        payload !! Z.to_nat (itemsize * (r * width + c)) = Some (v mod 256) /\
        payload !! Z.to_nat (itemsize * (r * width + c) + 1) = Some (v / 256).
Proof.
  intros Hrep Hwf width height header.
  exists (tobytes (data g)).
  rewrite (write_ok cls g [] Hrep Hwf). cbn [app].
  destruct Hrep as (Hv & Hr & Hx & Hy & Hw & Hh).
  destruct Hwf as [(Hh0 & Hw0 & Hlen) Hcells].
  fold width height in Hw, Hh, Hh0, Hw0 |- *.
  split; [|split; [|split; [|split]]].
  - rewrite !le16_wrap, !le16_small by lia. reflexivity.
  - reflexivity.
  - rewrite length_tobytes. unfold size, itemsize in *. fold width height in Hlen. lia.
  - apply Forall_app. split; [|apply tobytes_octets].
    subst header. unfold is_octet.
    assert (0 <= width / 256 <= 255)
      by (split; [apply Z.div_pos; lia | apply Z.lt_succ_r, Z.div_lt_upper_bound; lia]).
    assert (0 <= height / 256 <= 255)
      by (split; [apply Z.div_pos; lia | apply Z.lt_succ_r, Z.div_lt_upper_bound; lia]).
    repeat constructor; try lia;
      match goal with |- context [?a mod 256] => pose proof (Z.mod_pos_bound a 256) end; lia.
  - intros r c Hr' Hc'.
    assert (Hi : (Z.to_nat (r * width + c) < length (buf (data g)))%nat).
    { unfold size in Hlen. fold width height in Hlen. nia. }
    destruct (lookup_lt_is_Some_2 _ _ Hi) as [v Hv'].
    exists v.
    assert (Hu : is_uint16 v).
    { rewrite Forall_forall in Hcells. apply Hcells.
      apply list_elem_of_lookup. eauto. }
    split; [|].
    + unfold cell_at. destruct (shape (data g)) as [h w] eqn:Hs.
      cbn [fst snd] in *. subst width height.
      replace (_ && _ && _ && _) with true
        by (symmetry; rewrite !andb_true_iff; repeat split; lia).
      rewrite <- Hv'. f_equal. f_equal. lia.
    + destruct (tobytes_lookup _ _ _ Hv') as [H0 H1].
      unfold itemsize, tobytes.
      replace (Z.to_nat (2 * (r * width + c))) with (2 * Z.to_nat (r * width + c))%nat by nia.
      replace (Z.to_nat (2 * (r * width + c) + 1)) with (2 * Z.to_nat (r * width + c) + 1)%nat by nia.
      split; [exact H0|].
      rewrite H1. f_equal. apply Z.mod_small.
      unfold is_uint16 in Hu.
      split; [apply Z.div_pos; lia | apply Z.div_lt_upper_bound; lia].
Qed.

Lemma write_layout_witness :
  representable base_variant sample_grid /\ wf_grid sample_grid /\
  exists payload,
    write base_variant sample_grid [] =
      Ok ([0; 4; 253; 255; 7; 0; 3; 0; 2; 0] ++ payload) /\
    Z.of_nat (length payload) = 12.
Proof.
  assert (Hrep : representable base_variant sample_grid)
    by (unfold representable; simpl; lia).
  assert (Hwf : wf_grid sample_grid).
  { split; [unfold wf_array, size; simpl; lia|].
    simpl. repeat constructor; unfold is_uint16; lia. }
  split; [exact Hrep|]. split; [exact Hwf|].
  destruct (write_layout base_variant sample_grid Hrep Hwf)
    as (payload & Hw & _ & Hlen & _).
  exists payload. split; [exact Hw | exact Hlen].
Defined.

Lemma read_short cls f :
  (length f < 10)%nat -> read cls f = (Raise struct_error, []).
Proof.
  intros H.
  do 10 (destruct f as [|? f]; [reflexivity|]).
  cbn [length] in H. lia.
Qed.

(** A stream too short to hold the header fails in [struct.unpack], whatever
    its first octet is: the variant id is never compared. *)
Lemma read_format_mismatch_counterexample :
  let f := [1] in
  f !! 0%nat = Some 1 /\
  1 <> variant_id base_variant /\
  fst (read base_variant f) = Raise struct_error /\
  fst (read base_variant f) <> Raise FormatMismatch.
Proof. repeat split; discriminate. Qed.

(** C7 (format mismatch), as the code has it.  When the stream holds a
    complete ten-octet header whose first octet differs from the variant
    id of the class, [read] raises the format mismatch, having consumed
    the header and nothing else, and returns no grid.  Conversely [read]
    returns a grid only when the first octet is the variant id. *)
Theorem read_format_mismatch cls f :
  (forall b, (10 <= length f)%nat -> f !! 0%nat = Some b -> b <> variant_id cls ->
     read cls f = (Raise FormatMismatch, drop 10 f) /\
     forall g, fst (read cls f) <> Ok g) /\
  (forall g, fst (read cls f) = Ok g -> f !! 0%nat = Some (variant_id cls)).
Proof.
  split.
  - intros b Hlen Hb Hne.
    do 10 (destruct f as [|? f]; [cbn [length] in Hlen; lia|]).
    injection Hb as ->.
    rewrite read_header.
    replace (b =? variant_id cls) with false by (symmetry; apply Z.eqb_neq; exact Hne).
    cbn [negb]. split; [reflexivity|]. intros g. discriminate.
  - intros g Hg.
    destruct (Nat.lt_ge_cases (length f) 10) as [Hs|Hl].
    + rewrite read_short in Hg by exact Hs. discriminate.
    + do 10 (destruct f as [|? f]; [cbn [length] in Hl; lia|]).
      rewrite read_header in Hg.
      destruct (Z.eqb_spec z (variant_id cls)) as [->|Hne]; [reflexivity|].
      cbn [negb fst] in Hg. discriminate.
Qed.

Lemma read_format_mismatch_witness :
  (10 <= length foreign_stream)%nat /\
  foreign_stream !! 0%nat = Some 1 /\
  1 <> variant_id base_variant /\
  read base_variant foreign_stream = (Raise FormatMismatch, [9]).
Proof.
  assert (H1 : (10 <= length foreign_stream)%nat) by (simpl; lia).
  assert (H2 : foreign_stream !! 0%nat = Some 1) by reflexivity.
  assert (H3 : 1 <> variant_id base_variant) by (simpl; lia).
  split; [exact H1|]. split; [exact H2|]. split; [exact H3|].
  exact (proj1 (proj1 (read_format_mismatch base_variant foreign_stream) 1 H1 H2 H3)).
Defined.

(** ** Growth *)

Lemma norm_slice_exact lo hi n :
  0 <= lo -> lo <= hi -> hi <= n -> norm_slice lo hi n = (lo, hi).
Proof.
  intros. unfold norm_slice, norm_slice_end.
  destruct (Z.ltb_spec lo 0); [lia|].
  destruct (Z.ltb_spec hi 0); [lia|].
  f_equal; lia.
Qed.

Lemma np_zeros_ok h w :
  0 <= h -> 0 <= w ->
  np_zeros (h, w) = Ok (mk_ndarray (h, w) (replicate (Z.to_nat (h * w)) 0)).
Proof.
  intros. unfold np_zeros, np_full. cbn [fst snd].
  destruct (Z.ltb_spec h 0); [lia|]. destruct (Z.ltb_spec w 0); [lia|]. reflexivity.
Qed.

Lemma size_nonzero {A} (a : ndarray A) :
  wf_array a -> size a <> 0 -> 0 < fst (shape a) /\ 0 < snd (shape a).
Proof. unfold wf_array, size. intros (? & ? & _) ?. nia. Qed.

(** [fit_bounds] on a grid that holds cells: the new array covers the union
    of the old extent and the requested bounds; its buffer holds the old
    cells in the block at offset [(dy, dx)] and zeros elsewhere. *)
Lemma fit_bounds_nonempty g minx miny maxx maxy :
  wf_grid g -> size (data g) <> 0 ->
  let h := fst (shape (data g)) in
  let w := snd (shape (data g)) in
  let X0 := Z.min (x g) minx in
  let Y0 := Z.min (y g) miny in
  let X1 := Z.max (x g + w) maxx in
  let Y1 := Z.max (y g + h) maxy in
  exists cells,
    fit_bounds g minx miny maxx maxy =
      Ok (mk_grid (resolution g) X0 Y0 (mk_ndarray (Y1 - Y0, X1 - X0) cells) (filename g)) /\
    Z.of_nat (length cells) = (Y1 - Y0) * (X1 - X0) /\
    forall r c, 0 <= r < Y1 - Y0 -> 0 <= c < X1 - X0 ->
      cells !! Z.to_nat (r * (X1 - X0) + c) =
      Some (if (y g - Y0 <=? r) && (r <? y g - Y0 + h) &&
               (x g - X0 <=? c) && (c <? x g - X0 + w)
            then cell 0 (data g) (r - (y g - Y0)) (c - (x g - X0))
            else 0).
Proof.
  intros Hwf Hsz.
  destruct (size_nonzero _ (proj1 Hwf) Hsz) as [Hh Hw].
  destruct g as [res gx gy [[h w] cells] fn].
  cbn [data shape x y resolution filename fst snd] in *. cbv zeta.
  unfold fit_bounds. cbn [data shape x y resolution filename fst snd].
  replace (size _ =? 0) with false by (symmetry; apply Z.eqb_neq; exact Hsz).
  cbn [negb].
  set (X0 := Z.min gx minx). set (Y0 := Z.min gy miny).
  set (X1 := Z.max (gx + w) maxx). set (Y1 := Z.max (gy + h) maxy).
  assert (HX : X0 <= gx /\ gx + w <= X1) by (subst X0 X1; lia).
  assert (HY : Y0 <= gy /\ gy + h <= Y1) by (subst Y0 Y1; lia).
  rewrite np_zeros_ok by lia. cbn [bind].
  unfold setslice2. cbn [shape fst snd].
  rewrite !norm_slice_exact by lia.
  replace (gy - Y0 + h - (gy - Y0) =? h) with true by (symmetry; apply Z.eqb_eq; lia).
  replace (gx - X0 + w - (gx - X0) =? w) with true by (symmetry; apply Z.eqb_eq; lia).
  cbn [andb bind buf].
  eexists. split; [reflexivity|]. split.
  - rewrite length_imap, length_replicate. nia.
  - intros r c Hr Hc.
    rewrite list_lookup_imap.
    rewrite lookup_replicate_2 by nia.
    cbn [fmap option_fmap option_map].
    assert (Ei : Z.of_nat (Z.to_nat (r * (X1 - X0) + c)) = c + r * (X1 - X0)) by nia.
    rewrite Ei.
    rewrite Z.div_add, Z.mod_add by lia.
    rewrite Z.div_small, Z.mod_small by lia.
    cbn [Z.add]. reflexivity.
Qed.

Lemma fit_bounds_empty g minx miny maxx maxy :
  size (data g) = 0 -> minx <= maxx -> miny <= maxy ->
  fit_bounds g minx miny maxx maxy =
  Ok (mk_grid (resolution g) minx miny
        (mk_ndarray (maxy - miny, maxx - minx)
                    (replicate (Z.to_nat ((maxy - miny) * (maxx - minx))) 0))
        (filename g)).
Proof.
  intros Hsz Hx Hy. unfold fit_bounds.
  destruct (shape (data g)) as [h w] eqn:Hs.
  rewrite Hsz. cbn [Z.eqb negb].
  rewrite np_zeros_ok by lia. reflexivity.
Qed.

Lemma nth_Forall {A} (P : A -> Prop) (l : list A) (d : A) (i : nat) :
  Forall P l -> P d -> P (nth i l d).
Proof.
  intros Hl Hd. rewrite nth_lookup.
  destruct (l !! i) as [v|] eqn:E; cbn; [|exact Hd].
  rewrite Forall_lookup in Hl. eauto.
Qed.

Lemma cell_lookup (a : ndarray Z) (r c : Z) (v : Z) :
  buf a !! Z.to_nat (r * snd (shape a) + c) = Some v -> cell 0 a r c = v.
Proof. intros H. unfold cell. rewrite nth_lookup, H. reflexivity. Qed.

Lemma flat_index_split (i : nat) (h w : Z) :
  0 < w -> Z.of_nat i < h * w ->
  0 <= Z.of_nat i / w < h /\ 0 <= Z.of_nat i mod w < w /\
  i = Z.to_nat (Z.of_nat i / w * w + Z.of_nat i mod w).
Proof.
  intros Hw Hi.
  pose proof (Z.div_mod (Z.of_nat i) w ltac:(lia)) as E.
  pose proof (Z.mod_pos_bound (Z.of_nat i) w Hw) as Hm.
  assert (0 <= Z.of_nat i / w) by (apply Z.div_pos; lia).
  assert (Z.of_nat i / w < h) by (apply Z.div_lt_upper_bound; lia).
  repeat split; try lia.
Qed.

Lemma cell_at_Some g cx cy v :
  cell_at g cx cy = Some v <->
  (x g <= cx < x g + snd (shape (data g)) /\
   y g <= cy < y g + fst (shape (data g)) /\
   buf (data g) !! Z.to_nat ((cy - y g) * snd (shape (data g)) + (cx - x g)) = Some v).
Proof.
  unfold cell_at. destruct (shape (data g)) as [h w]. cbn [fst snd].
  destruct (Z.leb_spec (x g) cx), (Z.ltb_spec cx (x g + w)),
    (Z.leb_spec (y g) cy), (Z.ltb_spec cy (y g + h)); cbn [andb];
    split; try discriminate; try (intros (? & ? & ?); lia).
  - intros ->. repeat split; lia.
  - intros (_ & _ & ->). reflexivity.
Qed.

Lemma cell_at_None_wf g cx cy :
  wf_grid g -> cell_at g cx cy = None ->
  ~ (x g <= cx < x g + snd (shape (data g)) /\
     y g <= cy < y g + fst (shape (data g))).
Proof.
  intros [(Hh & Hw & Hlen) _] Hn [Hx Hy].
  unfold size in Hlen.
  assert (Hi : (Z.to_nat ((cy - y g) * snd (shape (data g)) + (cx - x g))
                < length (buf (data g)))%nat) by nia.
  destruct (lookup_lt_is_Some_2 _ _ Hi) as [v Hv].
  assert (cell_at g cx cy = Some v) by (apply cell_at_Some; auto).
  congruence.
Qed.

(** Growth of a grid that holds cells. *)
Lemma fit_bounds_nonempty_growth g minx miny maxx maxy :
  wf_grid g -> size (data g) <> 0 ->
  let h := fst (shape (data g)) in
  let w := snd (shape (data g)) in
  exists g',
    fit_bounds g minx miny maxx maxy = Ok g' /\
    wf_grid g' /\
    resolution g' = resolution g /\
    grid_bounds g' = (Z.min (x g) minx, Z.min (y g) miny,
                      Z.max (x g + w) maxx, Z.max (y g + h) maxy) /\
    (forall cx cy v, cell_at g cx cy = Some v -> cell_at g' cx cy = Some v) /\
    (forall cx cy,
       Z.min (x g) minx <= cx < Z.max (x g + w) maxx ->
       Z.min (y g) miny <= cy < Z.max (y g + h) maxy ->
       cell_at g cx cy = None -> cell_at g' cx cy = Some 0) /\
    (x g <= minx -> y g <= miny -> maxx <= x g + w -> maxy <= y g + h ->
     g' = g).
Proof.
  intros Hwf Hsz h w.
  destruct (fit_bounds_nonempty g minx miny maxx maxy Hwf Hsz)
    as (cells & Hfit & Hlen & Hcells).
  destruct (size_nonzero _ (proj1 Hwf) Hsz) as [Hh Hw].
  fold h w in Hfit, Hlen, Hcells, Hh, Hw.
  set (X0 := Z.min (x g) minx) in *. set (Y0 := Z.min (y g) miny) in *.
  set (X1 := Z.max (x g + w) maxx) in *. set (Y1 := Z.max (y g + h) maxy) in *.
  assert (HX : X0 <= x g /\ x g + w <= X1) by (subst X0 X1; lia).
  assert (HY : Y0 <= y g /\ y g + h <= Y1) by (subst Y0 Y1; lia).
  eexists. split; [exact Hfit|].
  split; [|split; [reflexivity|split; [|split; [|split]]]].
  + (* the result is a proper uint16 array *)
    split; [unfold wf_array, size; cbn [data shape buf fst snd]; lia|].
    cbn [data buf]. apply Forall_lookup. intros i v Hi.
    assert (Hil : Z.of_nat i < (Y1 - Y0) * (X1 - X0))
      by (apply lookup_lt_Some in Hi; lia).
    destruct (flat_index_split i (Y1 - Y0) (X1 - X0) ltac:(lia) Hil) as (Hr & Hc & Ei).
    specialize (Hcells _ _ Hr Hc). rewrite <- Ei, Hi in Hcells.
    injection Hcells as ->.
    destruct (_ && _); [|unfold is_uint16; lia].
    unfold cell. apply nth_Forall; [exact (proj2 Hwf) | unfold is_uint16; lia].
  + unfold grid_bounds. cbn [data shape x y]. f_equal; [f_equal|]; try f_equal; lia.
  + (* old cells keep their value at their position *)
    intros cx cy v Hv. apply cell_at_Some in Hv. fold h w in Hv.
    destruct Hv as (Hcx & Hcy & Hv).
    apply cell_at_Some. cbn [data shape buf x y fst snd].
    split; [lia|]. split; [lia|].
    replace (cx - X0) with ((cx - X0) + 0) by lia.
    rewrite Z.add_0_r.
    rewrite Hcells by lia. f_equal.
    replace (_ && _ && _ && _) with true
      by (symmetry; rewrite !andb_true_iff; repeat split; lia).
    apply cell_lookup. fold w. rewrite <- Hv. f_equal. f_equal. lia.
  + (* newly covered cells are zero *)
    intros cx cy Hcx Hcy Hn.
    pose proof (cell_at_None_wf g cx cy Hwf Hn) as Hout. fold h w in Hout.
    apply cell_at_Some. cbn [data shape buf x y fst snd].
    split; [lia|]. split; [lia|].
    rewrite Hcells by lia. f_equal.
    replace (_ && _ && _ && _) with false; [reflexivity|].
    symmetry. rewrite !andb_false_iff, !Z.leb_gt, !Z.ltb_ge. lia.
  + (* nothing changes when the request is already covered *)
    intros Hx0 Hy0 Hx1 Hy1.
    assert (EX0 : X0 = x g) by (subst X0; lia).
    assert (EY0 : Y0 = y g) by (subst Y0; lia).
    assert (EX1 : X1 = x g + w) by (subst X1; lia).
    assert (EY1 : Y1 = y g + h) by (subst Y1; lia).
    destruct Hwf as [(_ & _ & Hl) _]. unfold size in Hl. fold h w in Hl.
    assert (Ebuf : cells = buf (data g)).
    { apply list_eq. intros i.
      destruct (Z_lt_le_dec (Z.of_nat i) (h * w)) as [Hi|Hi].
      - destruct (flat_index_split i h w Hw Hi) as (Hr & Hc & Ei).
        rewrite Ei at 1.
        replace w with (X1 - X0) at 2 by lia.
        rewrite Hcells by lia.
        replace (_ && _ && _ && _) with true
          by (symmetry; rewrite !andb_true_iff, !Z.leb_le, !Z.ltb_lt; lia).
        assert (Hlt : (i < length (buf (data g)))%nat) by lia.
        destruct (lookup_lt_is_Some_2 _ _ Hlt) as [v Hv].
        rewrite Hv. f_equal. apply cell_lookup. fold w.
        rewrite <- Hv. f_equal. lia.
      - rewrite !lookup_ge_None_2 by lia. reflexivity. }
    rewrite Ebuf. destruct g as [res gx gy [[gh gw] gcells] fn].
    cbn [data shape buf x y resolution filename fst snd] in *.
    subst h w. cbn [fst snd] in *.
    f_equal; [lia | lia |]. f_equal. f_equal; lia.
Qed.

(** Growth of a grid without cells. *)
Lemma fit_bounds_empty_growth g minx miny maxx maxy :
  size (data g) = 0 -> minx <= maxx -> miny <= maxy ->
  exists g',
    fit_bounds g minx miny maxx maxy = Ok g' /\
    wf_grid g' /\
    resolution g' = resolution g /\
    grid_bounds g' = (minx, miny, maxx, maxy) /\
    (forall cx cy, minx <= cx < maxx -> miny <= cy < maxy ->
       cell_at g' cx cy = Some 0).
Proof.
  intros Hsz Hx Hy.
  rewrite fit_bounds_empty by assumption.
  eexists. split; [reflexivity|].
  split; [|split; [reflexivity|split]].
  + split; [unfold wf_array, size; cbn [data shape buf fst snd];
            rewrite length_replicate; nia|].
    cbn [data buf]. apply Forall_replicate. unfold is_uint16. lia.
  + unfold grid_bounds. cbn [data shape x y]. f_equal; [f_equal|]; try f_equal; lia.
  + intros cx cy Hcx Hcy. apply cell_at_Some. cbn [data shape buf x y fst snd].
    split; [lia|]. split; [lia|].
    apply lookup_replicate_2. nia.
Qed.

(** C2 (growth), as the code has it.  For a proper grid that holds cells,
    [fit_bounds] succeeds for every requested bounds: the new extent is
    [min(x, minx), max(x + width, maxx)) by [min(y, miny), max(y + height,
    maxy)), every cell stored before keeps its value at its position,
    every newly covered cell is zero, and the grid is unchanged when the
    request was already covered.  For a grid without cells and ordered
    bounds, the new extent is exactly the requested bounds (the old origin
    does not take part) and every cell is zero. *)
Theorem fit_bounds_growth g minx miny maxx maxy :
  wf_grid g ->
  let h := fst (shape (data g)) in
  let w := snd (shape (data g)) in
  (size (data g) <> 0 ->
   exists g',
     fit_bounds g minx miny maxx maxy = Ok g' /\
     wf_grid g' /\
     resolution g' = resolution g /\
     grid_bounds g' = (Z.min (x g) minx, Z.min (y g) miny,
                       Z.max (x g + w) maxx, Z.max (y g + h) maxy) /\
     (forall cx cy v, cell_at g cx cy = Some v -> cell_at g' cx cy = Some v) /\
     (forall cx cy,
        Z.min (x g) minx <= cx < Z.max (x g + w) maxx ->
        Z.min (y g) miny <= cy < Z.max (y g + h) maxy ->
        cell_at g cx cy = None -> cell_at g' cx cy = Some 0) /\
     (x g <= minx -> y g <= miny -> maxx <= x g + w -> maxy <= y g + h ->
      g' = g)) /\
  (size (data g) = 0 -> minx <= maxx -> miny <= maxy ->
   exists g',
     fit_bounds g minx miny maxx maxy = Ok g' /\
     wf_grid g' /\
     resolution g' = resolution g /\
     grid_bounds g' = (minx, miny, maxx, maxy) /\
     (forall cx cy, minx <= cx < maxx -> miny <= cy < maxy ->
        cell_at g' cx cy = Some 0)).
Proof.
  intros Hwf h w. split.
  - intros Hsz. exact (fit_bounds_nonempty_growth g minx miny maxx maxy Hwf Hsz).
  - intros Hsz Hx Hy. exact (fit_bounds_empty_growth g minx miny maxx maxy Hsz Hx Hy).
Qed.

(** On the empty grid at origin (0, 0) the request (5, 5)-(7, 7) yields the
    extent (5, 5)-(7, 7), not the union with the old origin. *)
Lemma fit_bounds_growth_counterexample :
  exists g', fit_bounds empty_grid 5 5 7 7 = Ok g' /\
    grid_bounds g' = (5, 5, 7, 7) /\
    grid_bounds g' <>
      (Z.min (x empty_grid) 5, Z.min (y empty_grid) 5,
       Z.max (x empty_grid + snd (shape (data empty_grid))) 7,
       Z.max (y empty_grid + fst (shape (data empty_grid))) 7).
Proof.
  eexists. split; [reflexivity|].
  split; [reflexivity | discriminate].
Qed.

Lemma fit_bounds_growth_witness :
  wf_grid sample_grid /\ size (data sample_grid) <> 0 /\
  exists g', fit_bounds sample_grid (-4) 5 (-3) 8 = Ok g' /\
    grid_bounds g' = (-4, 5, 0, 9) /\
    cell_at g' (-1) 8 = Some 65535 /\
    cell_at g' (-4) 5 = Some 0.
Proof.
  assert (Hwf : wf_grid sample_grid).
  { split; [unfold wf_array, size; simpl; lia|].
    simpl. repeat constructor; unfold is_uint16; lia. }
  assert (Hsz : size (data sample_grid) <> 0) by (unfold size; simpl; lia).
  split; [exact Hwf|]. split; [exact Hsz|].
  destruct (proj1 (fit_bounds_growth sample_grid (-4) 5 (-3) 8 Hwf) Hsz)
    as (g' & Hfit & _ & _ & Hb & Hold & Hnew & _).
  exists g'. split; [exact Hfit|]. split; [exact Hb|]. split.
  - apply Hold. reflexivity.
  - apply Hnew; [simpl; lia | simpl; lia | reflexivity].
Defined.

(** C9 (growth of a grid without cells).  When the array has no rows or no
    columns and the requested bounds are ordered, [fit_bounds] sets the
    origin to [(minx, miny)] and the shape to [(maxy - miny, maxx - minx)];
    the result is the same whatever the origin was before. *)
Theorem fit_bounds_empty_origin g minx miny maxx maxy :
  fst (shape (data g)) = 0 \/ snd (shape (data g)) = 0 ->
  minx <= maxx -> miny <= maxy ->
  exists g',
    fit_bounds g minx miny maxx maxy = Ok g' /\
    x g' = minx /\ y g' = miny /\
    shape (data g') = (maxy - miny, maxx - minx) /\
    forall x0 y0,
      fit_bounds (mk_grid (resolution g) x0 y0 (data g) (filename g))
                 minx miny maxx maxy = Ok g'.
Proof.
  intros Hz Hx Hy.
  assert (Hsz : size (data g) = 0) by (unfold size; destruct Hz as [-> | ->]; lia).
  eexists. split; [apply fit_bounds_empty; assumption|].
  repeat split. intros x0 y0.
  apply (fit_bounds_empty (mk_grid (resolution g) x0 y0 (data g) (filename g)));
    assumption.
Qed.

Lemma fit_bounds_empty_origin_witness :
  (fst (shape (data thin_grid)) = 0 \/ snd (shape (data thin_grid)) = 0) /\
  5 <= 7 /\ 5 <= 6 /\
  exists g', fit_bounds thin_grid 5 5 7 6 = Ok g' /\ x g' = 5 /\ y g' = 5 /\
    shape (data g') = (1, 2).
Proof.
  pose (g := thin_grid).
  assert (H1 : fst (shape (data g)) = 0 \/ snd (shape (data g)) = 0)
    by (left; reflexivity).
  assert (H2 : 5 <= 7) by lia. assert (H3 : 5 <= 6) by lia.
  split; [exact H1|]. split; [exact H2|]. split; [exact H3|].
  destruct (fit_bounds_empty_origin g 5 5 7 6 H1 H2 H3)
    as (g' & Hfit & Hx & Hy & Hs & _).
  exists g'. repeat split; assumption.
Defined.

(** ** Rasterization *)

Lemma elem_of_zrange a b k : k ∈ zrange a b <-> a <= k < b.
Proof. unfold zrange. rewrite elem_of_seqZ. lia. Qed.

Lemma zrange_nil a b : b <= a -> zrange a b = [].
Proof.
  intros H. unfold zrange, seqZ.
  replace (Z.to_nat (b - a)) with 0%nat by lia. reflexivity.
Qed.

Lemma length_zrange a b : length (zrange a b) = Z.to_nat (b - a).
Proof. unfold zrange. apply length_seqZ. Qed.

(** Python's [range(a * res, b * res, res)] steps through the multiples of
    [res] from [a] up to [b], whatever the sign of [res]. *)
Lemma py_range_scaled a b res :
  res <> 0 ->
  py_range (a * res) (b * res) res = Ok (map (fun k => k * res) (zrange a b)).
Proof.
  intros Hres. unfold py_range.
  replace (res =? 0) with false by (symmetry; apply Z.eqb_neq; exact Hres).
  f_equal.
  assert (En : (if 0 <? res then (b * res - a * res + res - 1) / res
                else (a * res - b * res - res - 1) / - res) = b - a).
  { destruct (Z.ltb_spec 0 res).
    - symmetry. apply (Z.div_unique _ _ _ (res - 1)); lia.
    - symmetry. apply (Z.div_unique _ _ _ (- res - 1)); lia. }
  rewrite En. unfold zrange, seqZ.
  rewrite Z.sub_0_r. rewrite <- !list_fmap_compose.
  apply list_fmap_ext. intros i n _. cbn. lia.
Qed.

Lemma enumerate_map_zrange {A} (f : Z -> A) a b s :
  enumerate (map f (zrange a b)) s =
  map (fun k => (s + (k - a), f k)) (zrange a b).
Proof.
  unfold enumerate. rewrite length_map, length_zrange.
  destruct (Z_le_gt_dec b a) as [Hle|Hgt].
  - rewrite (zrange_nil a b Hle), zrange_nil by lia. reflexivity.
  - unfold zrange, seqZ.
    replace (s + Z.of_nat (Z.to_nat (b - a)) - s) with (b - a) by lia.
    generalize (Z.to_nat (b - a)) as n. intros n.
    generalize 0%nat as o.
    induction n as [|n IH]; intros o; [reflexivity|].
    cbn. f_equal; [f_equal; lia|]. apply IH.
Qed.

Lemma for_each_map {A B S} (f : A -> B) (l : list A) (body : S -> B -> result S) s :
  for_each (map f l) body s = for_each l (fun s a => body s (f a)) s.
Proof.
  revert s. induction l as [|a l IH]; intros s; [reflexivity|].
  cbn. destruct (body s (f a)); cbn; [apply IH | reflexivity].
Qed.

Lemma for_each_ext {A S} (l : list A) (body1 body2 : S -> A -> result S) s :
  (forall s a, a ∈ l -> body1 s a = body2 s a) ->
  for_each l body1 s = for_each l body2 s.
Proof.
  revert s. induction l as [|a l IH]; intros s Hb; [reflexivity|].
  cbn. rewrite (Hb s a) by (left; reflexivity).
  destruct (body2 s a); cbn; [|reflexivity].
  apply IH. intros s' a' Ha'. apply Hb. right. exact Ha'.
Qed.

Lemma norm_index_ok i n : 0 <= i < n -> norm_index i n = Ok i.
Proof.
  intros H. unfold norm_index.
  replace ((0 <=? i) && (i <? n)) with true; [reflexivity|].
  symmetry. apply andb_true_intro. split; lia.
Qed.

Lemma setitem2_ok {A} (a : ndarray A) r c v :
  0 <= r < fst (shape a) -> 0 <= c < snd (shape a) ->
  setitem2 a r c v =
  Ok (mk_ndarray (shape a) (<[Z.to_nat (r * snd (shape a) + c) := v]> (buf a))).
Proof.
  intros Hr Hc. unfold setitem2. rewrite !norm_index_ok by assumption. reflexivity.
Qed.

Lemma nth_insert_true (l : list bool) (i j : nat) :
  (i < length l)%nat ->
  nth j (<[i := true]> l) false = nth j l false || (i =? j)%nat.
Proof.
  intros Hi. rewrite !nth_lookup, list_lookup_insert.
  destruct (Nat.eqb_spec i j) as [->|Hne].
  - rewrite decide_True by auto. cbn. now rewrite orb_true_r.
  - rewrite decide_False by (intros [? _]; contradiction). now rewrite orb_false_r.
Qed.

(** One row of the rasterizer's loop: the cells it marks. *)
Lemma row_loop (hit : Z -> bool) (h w r : Z) (col : Z -> Z) (ks : list Z)
    (m : ndarray bool) :
  shape m = (h, w) -> Z.of_nat (length (buf m)) = h * w ->
  0 <= r < h -> (forall k, k ∈ ks -> 0 <= col k < w) ->
  exists m',
    for_each ks (fun cells k => if hit k then setitem2 cells r (col k) true
                                else Ok cells) m = Ok m' /\
    shape m' = (h, w) /\
    length (buf m') = length (buf m) /\
    forall i, nth i (buf m') false =
              nth i (buf m) false ||
              existsb (fun k => hit k && (Z.to_nat (r * w + col k) =? i)%nat) ks.
Proof.
  intros Hs Hl Hr. revert m Hs Hl.
  induction ks as [|k ks IH]; intros m Hs Hl Hks.
  - exists m. cbn. repeat split; auto. intros i. now rewrite orb_false_r.
  - assert (Hk : 0 <= col k < w) by (apply Hks; left).
    assert (Hks' : forall k', k' ∈ ks -> 0 <= col k' < w)
      by (intros k' Hk'; apply Hks; right; exact Hk').
    cbn [for_each]. destruct (hit k) eqn:Ehit.
    + rewrite setitem2_ok by (rewrite Hs; cbn; lia).
      cbn [bind]. rewrite Hs. cbn [snd].
      set (m1 := mk_ndarray (h, w) (<[Z.to_nat (r * w + col k) := true]> (buf m))).
      destruct (IH m1) as (m' & Hfor & Hs' & Hl' & Hnth); auto.
      { subst m1. cbn [buf]. rewrite length_insert. exact Hl. }
      exists m'. split; [exact Hfor|]. split; [exact Hs'|].
      split; [rewrite Hl'; subst m1; cbn [buf]; apply length_insert|].
      intros i. rewrite Hnth. subst m1. cbn [buf existsb].
      rewrite nth_insert_true by nia.
      rewrite Ehit. cbn [andb]. now rewrite orb_assoc.
    + cbn [bind].
      destruct (IH m) as (m' & Hfor & Hs' & Hl' & Hnth); auto.
      exists m'. repeat split; auto.
      intros i. rewrite Hnth. cbn [existsb]. rewrite Ehit. reflexivity.
Qed.

(** The whole double loop. *)
Lemma grid_loop (hit : Z -> Z -> bool) (h w : Z) (row col : Z -> Z)
    (js ks : list Z) (m : ndarray bool) :
  shape m = (h, w) -> Z.of_nat (length (buf m)) = h * w ->
  (forall j, j ∈ js -> 0 <= row j < h) -> (forall k, k ∈ ks -> 0 <= col k < w) ->
  exists m',
    for_each js
      (fun cells j =>
         for_each ks (fun cells k => if hit k j then setitem2 cells (row j) (col k) true
                                     else Ok cells) cells) m = Ok m' /\
    shape m' = (h, w) /\
    length (buf m') = length (buf m) /\
    forall i, nth i (buf m') false =
              nth i (buf m) false ||
              existsb (fun j =>
                existsb (fun k => hit k j && (Z.to_nat (row j * w + col k) =? i)%nat) ks) js.
Proof.
  intros Hs Hl Hjs Hks. revert m Hs Hl.
  induction js as [|j js IH]; intros m Hs Hl.
  - exists m. cbn. repeat split; auto. intros i. now rewrite orb_false_r.
  - assert (Hj : 0 <= row j < h) by (apply Hjs; left).
    assert (Hjs' : forall j', j' ∈ js -> 0 <= row j' < h)
      by (intros j' Hj'; apply Hjs; right; exact Hj').
    cbn [for_each].
    destruct (row_loop (fun k => hit k j) h w (row j) col ks m Hs Hl Hj Hks)
      as (m1 & Hrow & Hs1 & Hl1 & Hn1).
    rewrite Hrow. cbn [bind].
    destruct (IH Hjs' m1 Hs1) as (m' & Hfor & Hs' & Hl' & Hnth); [lia|].
    exists m'. split; [exact Hfor|]. split; [exact Hs'|].
    split; [lia|].
    intros i. rewrite Hnth, Hn1. cbn [existsb]. now rewrite orb_assoc.
Qed.

Lemma flat_index_inj w r1 c1 r2 c2 :
  0 <= r1 -> 0 <= r2 -> 0 <= c1 < w -> 0 <= c2 < w ->
  Z.to_nat (r1 * w + c1) = Z.to_nat (r2 * w + c2) -> r1 = r2 /\ c1 = c2.
Proof.
  intros H1 H2 Hc1 Hc2 E.
  assert (E' : r1 * w + c1 = r2 * w + c2) by nia.
  assert (r1 = r2) by nia. split; [assumption|]. subst. lia.
Qed.

Lemma nth_replicate_false n i : nth i (replicate n false) false = false.
Proof.
  rewrite nth_lookup. destruct (replicate n false !! i) as [b|] eqn:E; [|reflexivity].
  apply lookup_replicate_1 in E. cbn. tauto.
Qed.

(** The rasterizer, characterised: with explicit candidate bounds and a
    non-zero resolution it returns a mask of the array's shape which marks
    precisely the cells of the extent that lie in the candidate bounds and
    whose square meets the geometry. *)
Lemma get_geometry_cells_spec g geom minx miny maxx maxy :
  wf_array (data g) -> resolution g <> 0 ->
  exists m,
    get_geometry_cells g geom (Some (minx, miny, maxx, maxy)) = Ok m /\
    shape m = shape (data g) /\
    length (buf m) = length (buf (data g)) /\
    forall cx cy,
      marked g m cx cy =
      (x g <=? cx) && (cx <? x g + snd (shape (data g))) &&
      (y g <=? cy) && (cy <? y g + fst (shape (data g))) &&
      ((minx <=? cx) && (cx <? maxx) && (miny <=? cy) && (cy <? maxy) &&
       cell_hit g geom cx cy).
Proof.
  intros (Hh & Hw & Hlen) Hres.
  destruct g as [res gx gy [[h w] cells] fn].
  unfold size in Hlen.
  cbn [data shape buf x y resolution fst snd] in *.
  unfold get_geometry_cells.
  cbn [bind data shape buf x y resolution fst snd].
  set (minx' := Z.max minx gx). set (miny' := Z.max miny gy).
  set (maxx' := Z.min maxx (gx + w)). set (maxy' := Z.min maxy (gy + h)).
  rewrite py_range_scaled by exact Hres. cbn [bind].
  rewrite enumerate_map_zrange, for_each_map.
  set (g := mk_grid res gx gy (mk_ndarray (h, w) cells) fn).
  rewrite (for_each_ext _ _
    (fun cells j =>
       for_each (zrange minx' maxx')
         (fun cells k => if cell_hit g geom k j
                         then setitem2 cells (j - gy) (k - gx) true
                         else Ok cells) cells)).
  2:{ intros s j _. cbn beta iota.
      rewrite py_range_scaled by exact Hres. cbn [bind].
      rewrite enumerate_map_zrange, for_each_map.
      apply for_each_ext. intros s' k _. cbn beta iota.
      unfold cell_hit. cbn [resolution g].
      replace (miny' - gy + (j - miny')) with (j - gy) by lia.
      replace (minx' - gx + (k - minx')) with (k - gx) by lia.
      reflexivity. }
  destruct (grid_loop (fun k j => cell_hit g geom k j) h w
              (fun j => j - gy) (fun k => k - gx)
              (zrange miny' maxy') (zrange minx' maxx')
              (np_zeros_like (mk_ndarray (h, w) cells)))
    as (m & Hfor & Hs & Hl & Hnth).
  { reflexivity. }
  { unfold np_zeros_like. cbn [buf]. rewrite length_replicate. exact Hlen. }
  { intros j Hj. apply elem_of_zrange in Hj. lia. }
  { intros k Hk. apply elem_of_zrange in Hk. lia. }
  exists m. split; [exact Hfor|]. split; [exact Hs|].
  split; [rewrite Hl; unfold np_zeros_like; cbn [buf]; apply length_replicate|].
  intros cx cy. unfold marked. rewrite Hs.
  change (x g) with gx. change (y g) with gy.
  destruct ((gx <=? cx) && (cx <? gx + w) && (gy <=? cy) && (cy <? gy + h)) eqn:Hin;
    [|reflexivity].
  cbn [andb].
  rewrite !andb_true_iff, !Z.leb_le, !Z.ltb_lt in Hin.
  rewrite Hnth. unfold np_zeros_like at 1. cbn [buf].
  rewrite nth_replicate_false. cbn [orb].
  apply Bool.eq_iff_eq_true.
  rewrite existsb_exists, !andb_true_iff, !Z.leb_le, !Z.ltb_lt.
  split.
  - intros (j & Hj & Hex). apply existsb_exists in Hex.
    destruct Hex as (k & Hk & Hhit).
    apply list_elem_of_In, elem_of_zrange in Hj, Hk.
    apply andb_true_iff in Hhit. destruct Hhit as [Hhit Hidx].
    apply Nat.eqb_eq in Hidx.
    apply flat_index_inj in Hidx; [|lia..].
    assert (j = cy) by lia. assert (k = cx) by lia. subst j k.
    repeat split; try lia. exact Hhit.
  - intros ((((H1 & H2) & H3) & H4) & Hhit).
    exists cy. split; [apply list_elem_of_In, elem_of_zrange; lia|].
    apply existsb_exists. exists cx.
    split; [apply list_elem_of_In, elem_of_zrange; lia|].
    rewrite Hhit. cbn [andb]. apply Nat.eqb_refl.
Qed.

(** ** Cell coordinates of world coordinates *)

Lemma inject_Z_nonzero res : res <> 0 -> ~ (inject_Z res == 0)%Q.
Proof. intros Hres E. unfold Qeq in E. cbn in E. lia. Qed.

Lemma Qdiv_aligned a res :
  res <> 0 -> (inject_Z (a * res) / inject_Z res == inject_Z a)%Q.
Proof.
  intros Hres. rewrite inject_Z_mult. apply Qdiv_mult_l.
  apply inject_Z_nonzero. exact Hres.
Qed.

(** A world coordinate on a cell boundary: floor and ceiling coincide. *)
Lemma floor_div_aligned a res : res <> 0 -> floor_div (inject_Z (a * res)) res = a.
Proof.
  intros Hres. unfold floor_div.
  rewrite (Qfloor_comp _ _ (Qdiv_aligned a res Hres)). apply Qfloor_Z.
Qed.

Lemma ceil_div_aligned a res : res <> 0 -> ceil_div (inject_Z (a * res)) res = a.
Proof.
  intros Hres. unfold ceil_div.
  rewrite (Qceiling_comp _ _ (Qdiv_aligned a res Hres)). apply Qceiling_Z.
Qed.

(** ** Rectangles, points and the empty geometry *)







(** With the bounds left out, the rasterizer computes them first. *)
Lemma get_geometry_cells_None g geom b :
  _get_geometry_bounds g geom = Ok b ->
  get_geometry_cells g geom None = get_geometry_cells g geom (Some b).
Proof. intros E. unfold get_geometry_cells. rewrite E. reflexivity. Qed.




(** ** Points on cell corners *)

Lemma getmask_zeros_like (a : ndarray Z) : getmask a (np_zeros_like a) = Ok [].
Proof.
  unfold getmask, np_zeros_like. cbn [shape buf].
  rewrite !Z.eqb_refl. cbn [andb]. f_equal.
  induction (buf a) as [|v l IH]; [reflexivity|]. cbn. exact IH.
Qed.

Lemma get_geometry_cells_degenerate g geom minx miny maxx maxy :
  resolution g <> 0 -> maxy <= miny ->
  get_geometry_cells g geom (Some (minx, miny, maxx, maxy)) = Ok (np_zeros_like (data g)).
Proof.
  intros Hres Hy. unfold get_geometry_cells. cbn [bind].
  destruct (shape (data g)) as [h w].
  rewrite py_range_scaled by exact Hres. cbn [bind].
  rewrite enumerate_map_zrange, for_each_map, zrange_nil by lia. reflexivity.
Qed.

Lemma count_marked_zeros_like {A} (a : ndarray A) :
  count_marked (np_zeros_like a) = 0%nat.
Proof.
  unfold count_marked, np_zeros_like. cbn [buf].
  induction (length (buf a)) as [|n IH]; [reflexivity|].
  cbn [replicate]. rewrite filter_cons_False by discriminate. exact IH.
Qed.

(** C10 (points on cell corners).  When both coordinates of a point are
    integer multiples of the (non-zero) resolution, the cell-space
    envelope is degenerate, [get_geometry_cells] marks no cell and a read
    with that point returns the empty sequence. *)
Theorem corner_point_marks_nothing g a c :
  resolution g <> 0 ->
  let p := Point (inject_Z (a * resolution g)) (inject_Z (c * resolution g)) in
  _get_geometry_bounds g p = Ok (a, c, a, c) /\
  (exists m, get_geometry_cells g p None = Ok m /\
             shape m = shape (data g) /\ count_marked m = 0%nat) /\
  getitem g (KGeometry p) = Ok [].
Proof.
  intros Hres p.
  assert (Hb : _get_geometry_bounds g p = Ok (a, c, a, c)).
  { unfold _get_geometry_bounds, p, Point. cbn [bounds].
    replace (resolution g =? 0) with false by (symmetry; apply Z.eqb_neq; lia).
    rewrite !floor_div_aligned, !ceil_div_aligned by exact Hres. reflexivity. }
  assert (Hm : get_geometry_cells g p (Some (a, c, a, c)) = Ok (np_zeros_like (data g)))
    by (apply get_geometry_cells_degenerate; [exact Hres | lia]).
  split; [exact Hb|]. split.
  - exists (np_zeros_like (data g)).
    rewrite (get_geometry_cells_None _ _ _ Hb).
    split; [exact Hm|]. split; [reflexivity | apply count_marked_zeros_like].
  - unfold getitem. rewrite Hb. cbn [bind]. rewrite Hm. cbn [bind].
    apply getmask_zeros_like.
Qed.

Lemma corner_point_marks_nothing_witness :
  resolution sample_grid <> 0 /\
  _get_geometry_bounds sample_grid (Point (-8 # 1) (32 # 1)) = Ok (-2, 8, -2, 8) /\
  getitem sample_grid (KGeometry (Point (-8 # 1) (32 # 1))) = Ok [].
Proof.
  assert (Hres : resolution sample_grid <> 0) by (simpl; lia).
  split; [exact Hres|].
  destruct (corner_point_marks_nothing sample_grid (-2) 8 Hres) as (Hb & _ & Hget).
  split; [exact Hb | exact Hget].
Defined.

(** ** The worked example *)

(** C4 (worked example).  On the empty grid of resolution 4, writing 1
    over the rectangle (0, 0)-(8, 8) gives origin (0, 0), width 2, height
    2 and four cells equal to 1; reading the rectangle (0, 0)-(4, 4) then
    returns [1], and reading (8, 8)-(12, 12), outside the extent, returns
    the empty sequence. *)
Theorem concrete_scenario :
  exists g,
    setitem empty_grid (KGeometry (box 0 0 8 8)) 1 = Ok g /\
    x g = 0 /\ y g = 0 /\
    snd (shape (data g)) = 2 /\ fst (shape (data g)) = 2 /\
    cell_at g 0 0 = Some 1 /\ cell_at g 1 0 = Some 1 /\
    cell_at g 0 1 = Some 1 /\ cell_at g 1 1 = Some 1 /\
    buf (data g) = [1; 1; 1; 1] /\
    getitem g (KTuple (mk_slice 0 4) (mk_slice 0 4)) = Ok [1] /\
    getitem g (KTuple (mk_slice 8 12) (mk_slice 8 12)) = Ok [].
Proof.
  eexists. split; [vm_compute; reflexivity|].
  repeat (split; [reflexivity|]). reflexivity.
Qed.

(** ** Writing a geometry twice *)

(** The rasterizer looks at the frame of the grid only: resolution, origin,
    shape and buffer length, never at the cell values. *)
Lemma get_geometry_cells_frame g g' geom b :
  resolution g' = resolution g -> x g' = x g -> y g' = y g ->
  shape (data g') = shape (data g) ->
  length (buf (data g')) = length (buf (data g)) ->
  get_geometry_cells g' geom b = get_geometry_cells g geom b.
Proof.
  destruct g as [res gx gy [sh cells] fn], g' as [res' gx' gy' [sh' cells'] fn'].
  cbn [resolution x y data shape buf]. intros -> -> -> -> Hl.
  unfold get_geometry_cells, _get_geometry_bounds, np_zeros_like.
  cbn [resolution x y data shape buf]. rewrite Hl. reflexivity.
Qed.

Lemma zip_with_mask_idem {A} (f : bool -> A -> A) (ms : list bool) (l : list A) :
  (forall m v, f m (f m v) = f m v) ->
  zip_with f ms (zip_with f ms l) = zip_with f ms l.
Proof.
  intros Hf. revert l. induction ms as [|m ms IH]; intros [|v l]; cbn; try reflexivity.
  rewrite Hf, IH. reflexivity.
Qed.

Lemma setmask_inv a m v a' :
  setmask a m v = Ok a' ->
  shape m = shape a /\
  a' = mk_ndarray (shape a)
         (zip_with (fun (b : bool) old => if b then as_uint16 v else old) (buf m) (buf a)).
Proof.
  unfold setmask.
  destruct (Z.eqb_spec (fst (shape a)) (fst (shape m))) as [E1|]; [|discriminate].
  destruct (Z.eqb_spec (snd (shape a)) (snd (shape m))) as [E2|]; [|discriminate].
  cbn [andb]. intros [= <-]. split; [|reflexivity].
  destruct (shape a), (shape m). cbn in *. congruence.
Qed.

Lemma setmask_idem a m v a' : setmask a m v = Ok a' -> setmask a' m v = Ok a'.
Proof.
  intros H. destruct (setmask_inv _ _ _ _ H) as [Hs ->].
  unfold setmask. cbn [shape buf]. rewrite Hs, !Z.eqb_refl. cbn [andb].
  rewrite zip_with_mask_idem; [reflexivity|].
  intros [] ?; reflexivity.
Qed.

Lemma as_uint16_range v : is_uint16 (as_uint16 v).
Proof. unfold is_uint16, as_uint16. apply Z.mod_pos_bound. lia. Qed.

Lemma setmask_wf g m v d :
  wf_grid g -> length (buf m) = length (buf (data g)) ->
  setmask (data g) m v = Ok d ->
  wf_grid (mk_grid (resolution g) (x g) (y g) d (filename g)) /\
  shape d = shape (data g) /\ length (buf d) = length (buf (data g)).
Proof.
  intros [(Hh & Hw & Hlen) Hcells] Hl H.
  destruct (setmask_inv _ _ _ _ H) as [Hs ->].
  cbn [shape buf].
  assert (Hl' : length (zip_with (fun (b : bool) old => if b then as_uint16 v else old)
                          (buf m) (buf (data g))) = length (buf (data g)))
    by (rewrite length_zip_with; lia).
  split; [|split; [reflexivity | exact Hl']].
  split; [unfold wf_array, size in *; cbn [data shape buf]; lia|].
  cbn [data buf]. apply Forall_lookup. intros i z Hz.
  apply lookup_zip_with_Some in Hz. destruct Hz as (b & old & -> & _ & Hold).
  destruct b; [apply as_uint16_range|].
  rewrite Forall_lookup in Hcells. eauto.
Qed.

Lemma fit_bounds_frame g minx miny maxx maxy g' :
  fit_bounds g minx miny maxx maxy = Ok g' ->
  resolution g' = resolution g /\ filename g' = filename g.
Proof.
  unfold fit_bounds. destruct (shape (data g)) as [h w].
  destruct (negb _).
  - destruct (np_zeros _); cbn [bind]; [|discriminate].
    destruct (setslice2 _ _ _ _ _ _); cbn [bind]; [|discriminate].
    intros [= <-]. split; reflexivity.
  - destruct (np_zeros _); cbn [bind]; [|discriminate].
    intros [= <-]. split; reflexivity.
Qed.

Lemma fit_bounds_empty_inv g minx miny maxx maxy g' :
  size (data g) = 0 -> fit_bounds g minx miny maxx maxy = Ok g' ->
  minx <= maxx /\ miny <= maxy.
Proof.
  intros Hsz. unfold fit_bounds. destruct (shape (data g)) as [h w].
  rewrite Hsz. cbn [Z.eqb negb]. unfold np_zeros, np_full. cbn [fst snd].
  destruct (Z.ltb_spec (maxy - miny) 0); [discriminate|].
  destruct (Z.ltb_spec (maxx - minx) 0); [discriminate|].
  intros _. lia.
Qed.

(** After [fit_bounds] the grid is proper and covers the request, and a
    second [fit_bounds] with the same request on any proper grid of the
    same frame changes nothing. *)
Lemma fit_bounds_twice g minx miny maxx maxy g2 g1 :
  wf_grid g -> fit_bounds g minx miny maxx maxy = Ok g2 ->
  wf_grid g2 /\
  (wf_grid g1 -> x g1 = x g2 -> y g1 = y g2 -> shape (data g1) = shape (data g2) ->
   fit_bounds g1 minx miny maxx maxy = Ok g1).
Proof.
  intros Hwf Hfit.
  destruct (Z.eq_dec (size (data g)) 0) as [Hsz|Hsz].
  - destruct (fit_bounds_empty_inv _ _ _ _ _ _ Hsz Hfit) as [Hx Hy].
    destruct (fit_bounds_empty_growth g minx miny maxx maxy Hsz Hx Hy)
      as (g' & Hfit' & Hwf' & _ & Hb & _).
    assert (g' = g2) by congruence. subst g'.
    split; [exact Hwf'|].
    intros Hwf1 Ex Ey Es.
    unfold grid_bounds in Hb. destruct (shape (data g2)) as [h2 w2] eqn:Es2.
    injection Hb as Hbx Hby Hbw Hbh.
    destruct (Z.eq_dec (size (data g1)) 0) as [Hsz1|Hsz1].
    + rewrite fit_bounds_empty by assumption.
      destruct g1 as [res1 gx1 gy1 [[h1 w1] cells1] fn1].
      cbn [resolution x y data shape buf filename] in *.
      injection Es as -> ->. subst gx1 gy1.
      destruct Hwf1 as [(_ & _ & Hl1) _]. unfold size in *.
      cbn [data shape buf fst snd] in *.
      assert (cells1 = []) by (destruct cells1; [reflexivity | cbn in Hl1; lia]).
      subst cells1.
      replace (maxy - miny) with h2 by lia. replace (maxx - minx) with w2 by lia.
      rewrite Hsz1, Hbx, Hby. reflexivity.
    + destruct (fit_bounds_nonempty_growth g1 minx miny maxx maxy Hwf1 Hsz1)
        as (g' & Hfit1 & _ & _ & _ & _ & _ & Hnoop).
      rewrite Hfit1. f_equal. apply Hnoop; rewrite ?Es; cbn [fst snd]; lia.
  - destruct (fit_bounds_nonempty_growth g minx miny maxx maxy Hwf Hsz)
      as (g' & Hfit' & Hwf' & _ & Hb & _).
    assert (g' = g2) by congruence. subst g'.
    split; [exact Hwf'|].
    intros Hwf1 Ex Ey Es.
    unfold grid_bounds in Hb. destruct (shape (data g2)) as [h2 w2] eqn:Es2.
    injection Hb as Hbx Hby Hbw Hbh.
    destruct (size_nonzero _ (proj1 Hwf) Hsz) as [Hh Hw].
    assert (Hsz1 : size (data g1) <> 0) by (unfold size; rewrite Es; cbn [fst snd]; nia).
    destruct (fit_bounds_nonempty_growth g1 minx miny maxx maxy Hwf1 Hsz1)
      as (g' & Hfit1 & _ & _ & _ & _ & _ & Hnoop).
    rewrite Hfit1. f_equal. apply Hnoop; rewrite ?Es; cbn [fst snd]; lia.
Qed.

Lemma get_geometry_bounds_res g g' geom :
  resolution g' = resolution g ->
  _get_geometry_bounds g' geom = _get_geometry_bounds g geom.
Proof. intros E. unfold _get_geometry_bounds. rewrite E. reflexivity. Qed.

Lemma get_geometry_bounds_ok g geom b :
  _get_geometry_bounds g geom = Ok b -> resolution g <> 0.
Proof.
  unfold _get_geometry_bounds. destruct (bounds geom) as [[[[? ?] ?] ?]|]; [|discriminate].
  destruct (Z.eqb_spec (resolution g) 0); [discriminate | auto].
Qed.

Lemma setmask_ok a m v :
  shape m = shape a -> exists a', setmask a m v = Ok a'.
Proof.
  intros Hs. unfold setmask. rewrite Hs, !Z.eqb_refl. cbn [andb]. eexists. reflexivity.
Qed.

Lemma floor_le_ceil (a b : Q) (res : Z) :
  0 < res -> (a <= b)%Q -> floor_div a res <= ceil_div b res.
Proof.
  intros Hres Hab. unfold floor_div, ceil_div.
  rewrite Zle_Qle.
  eapply Qle_trans; [apply Qfloor_le|].
  eapply Qle_trans; [|apply Qle_ceiling].
  unfold Qdiv. apply Qmult_le_compat_r; [exact Hab|].
  apply Qinv_le_0_compat. change 0%Q with (inject_Z 0).
  rewrite <- Zle_Qle. lia.
Qed.

(** The steps of a successful geometry write. *)
Lemma setitem_inv g geom value g1 :
  setitem g (KGeometry geom) value = Ok g1 ->
  exists minx miny maxx maxy g2 m d,
    _get_geometry_bounds g geom = Ok (minx, miny, maxx, maxy) /\
    fit_bounds g minx miny maxx maxy = Ok g2 /\
    get_geometry_cells g2 geom (Some (minx, miny, maxx, maxy)) = Ok m /\
    setmask (data g2) m value = Ok d /\
    g1 = mk_grid (resolution g2) (x g2) (y g2) d (filename g2).
Proof.
  unfold setitem.
  destruct (_get_geometry_bounds g geom) as [[[[minx miny] maxx] maxy]|] eqn:Hb;
    cbn [bind]; [|discriminate].
  destruct (fit_bounds g minx miny maxx maxy) as [g2|] eqn:Hfit;
    cbn [bind]; [|discriminate].
  destruct (get_geometry_cells g2 geom _) as [m|] eqn:Hm; cbn [bind]; [|discriminate].
  destruct (setmask (data g2) m value) as [d|] eqn:Hd; cbn [bind]; [|discriminate].
  intros [= <-]. exists minx, miny, maxx, maxy, g2, m, d.
  repeat split; assumption.
Qed.

(** C8 (idempotence).  On a proper grid, a geometry write that succeeds
    leaves a grid on which the same write succeeds again and changes
    nothing: resolution, origin, shape and cells are those of the first
    write.  The write does succeed whenever the resolution is positive and
    the geometry has (ordered) bounds. *)
Theorem write_idempotent g geom value :
  wf_grid g ->
  (forall g1,
     setitem g (KGeometry geom) value = Ok g1 ->
     setitem g1 (KGeometry geom) value = Ok g1) /\
  (forall bx0 by0 bx1 by1,
     0 < resolution g ->
     bounds geom = Some (bx0, by0, bx1, by1) ->
     (bx0 <= bx1)%Q -> (by0 <= by1)%Q ->
     exists g1,
       setitem g (KGeometry geom) value = Ok g1 /\
       setitem g1 (KGeometry geom) value = Ok g1).
Proof.
  intros Hwf.
  assert (Hidem : forall g1,
             setitem g (KGeometry geom) value = Ok g1 ->
             setitem g1 (KGeometry geom) value = Ok g1).
  { intros g1 H.
    destruct (setitem_inv _ _ _ _ H)
      as (minx & miny & maxx & maxy & g2 & m & d & Hb & Hfit & Hm & Hd & ->).
    pose proof (get_geometry_bounds_ok _ _ _ Hb) as Hres.
    destruct (fit_bounds_frame _ _ _ _ _ _ Hfit) as [Hres2 _].
    set (g1 := mk_grid (resolution g2) (x g2) (y g2) d (filename g2)).
    destruct (fit_bounds_twice g minx miny maxx maxy g2 g1 Hwf Hfit) as [Hwf2 Hnoop].
    destruct (get_geometry_cells_spec g2 geom minx miny maxx maxy (proj1 Hwf2))
      as (m' & Hm' & _ & Hlm & _); [lia|].
    assert (m' = m) by congruence. subst m'.
    destruct (setmask_wf g2 m value d Hwf2 Hlm Hd) as (Hwf1 & Hsd & Hld).
    unfold setitem.
    rewrite (get_geometry_bounds_res g g1 geom) by (subst g1; cbn; lia).
    rewrite Hb. cbn [bind].
    rewrite Hnoop by (try exact Hwf1; subst g1; cbn; auto). cbn [bind].
    rewrite (get_geometry_cells_frame g2 g1) by (subst g1; cbn; auto).
    rewrite Hm. cbn [bind].
    subst g1. cbn [data]. rewrite (setmask_idem _ _ _ _ Hd). reflexivity. }
  split; [exact Hidem|].
  intros bx0 by0 bx1 by1 Hres Hbounds Hbx Hby.
  assert (Hb : _get_geometry_bounds g geom =
               Ok (floor_div bx0 (resolution g), floor_div by0 (resolution g),
                   ceil_div bx1 (resolution g), ceil_div by1 (resolution g))).
  { unfold _get_geometry_bounds. rewrite Hbounds.
    replace (resolution g =? 0) with false by (symmetry; apply Z.eqb_neq; lia).
    reflexivity. }
  pose proof (floor_le_ceil bx0 bx1 _ Hres Hbx) as Hx.
  pose proof (floor_le_ceil by0 by1 _ Hres Hby) as Hy.
  set (minx := floor_div bx0 (resolution g)) in *.
  set (miny := floor_div by0 (resolution g)) in *.
  set (maxx := ceil_div bx1 (resolution g)) in *.
  set (maxy := ceil_div by1 (resolution g)) in *.
  assert (Hfit : exists g2, fit_bounds g minx miny maxx maxy = Ok g2 /\ wf_grid g2 /\
                            resolution g2 = resolution g).
  { destruct (Z.eq_dec (size (data g)) 0) as [Hsz|Hsz].
    - destruct (fit_bounds_empty_growth g minx miny maxx maxy Hsz Hx Hy)
        as (g2 & ? & ? & ? & _). eauto.
    - destruct (fit_bounds_nonempty_growth g minx miny maxx maxy Hwf Hsz)
        as (g2 & ? & ? & ? & _). eauto. }
  destruct Hfit as (g2 & Hfit & Hwf2 & Hres2).
  destruct (get_geometry_cells_spec g2 geom minx miny maxx maxy (proj1 Hwf2))
    as (m & Hm & Hsm & _); [lia|].
  destruct (setmask_ok (data g2) m value Hsm) as [d Hd].
  assert (Hset : setitem g (KGeometry geom) value =
                 Ok (mk_grid (resolution g2) (x g2) (y g2) d (filename g2))).
  { unfold setitem. rewrite Hb. cbn [bind]. rewrite Hfit. cbn [bind].
    rewrite Hm. cbn [bind]. rewrite Hd. reflexivity. }
  eexists. split; [exact Hset | apply Hidem; exact Hset].
Qed.

Lemma write_idempotent_witness :
  wf_grid sample_grid /\
  exists g1,
    setitem sample_grid (KGeometry (Point (-1 # 2) (61 # 2))) 9 = Ok g1 /\
    setitem g1 (KGeometry (Point (-1 # 2) (61 # 2))) 9 = Ok g1.
Proof.
  assert (Hwf : wf_grid sample_grid).
  { split; [unfold wf_array, size; simpl; lia|].
    simpl. repeat constructor; unfold is_uint16; lia. }
  split; [exact Hwf|].
  eexists. split; [vm_compute; reflexivity|].
  apply (proj1 (write_idempotent sample_grid (Point (-1 # 2) (61 # 2)) 9 Hwf)).
  vm_compute. reflexivity.
Defined.

(** ** The process cache *)

Section ProcessCache.
Context {token : Type} `{EqDecision token}.
Variable CACHE_ROOT : string.
Variable cls : level_class.


(** A call that sees a new token: everything cached is dropped and the
    file is loaded, whether or not the key was cached before. *)
Lemma step_epoch_changed (st : cache_state token) (w : world token) level_id mode :
  cache_key st <> Some (current_processed_cache_key w) ->
  open_level_cached CACHE_ROOT cls st w level_id mode =
  (open_level CACHE_ROOT cls (files w) level_id mode,
   mk_cache (match open_level CACHE_ROOT cls (files w) level_id mode with
             | Ok g => {[ (level_id, mode) := g ]}
             | Raise _ => ∅
             end)
            (Some (current_processed_cache_key w)),
   [(level_id, mode)]).
Proof.
  intros Hne. unfold open_level_cached.
  rewrite decide_False by exact Hne.
  destruct (open_level CACHE_ROOT cls (files w) level_id mode); reflexivity.
Qed.

(** A call under the stored token for a cached key: a hit. *)
Lemma step_hit (st : cache_state token) (w : world token) level_id mode g :
  cache_key st = Some (current_processed_cache_key w) ->
  cached st !! (level_id, mode) = Some g ->
  open_level_cached CACHE_ROOT cls st w level_id mode = (Ok g, st, []).
Proof.
  intros He Hc. unfold open_level_cached.
  rewrite decide_True by exact He. rewrite Hc. reflexivity.
Qed.

(** A call under the stored token for a key not cached: one load, whose
    grid is added to the mapping. *)
Lemma step_miss (st : cache_state token) (w : world token) level_id mode :
  cache_key st = Some (current_processed_cache_key w) ->
  cached st !! (level_id, mode) = None ->
  open_level_cached CACHE_ROOT cls st w level_id mode =
  (open_level CACHE_ROOT cls (files w) level_id mode,
   match open_level CACHE_ROOT cls (files w) level_id mode with
   | Ok g => mk_cache (<[ (level_id, mode) := g ]> (cached st)) (cache_key st)
   | Raise _ => st
   end,
   [(level_id, mode)]).
Proof.
  intros He Hc. unfold open_level_cached.
  rewrite decide_True by exact He. rewrite Hc.
  destruct (open_level CACHE_ROOT cls (files w) level_id mode); reflexivity.
Qed.

(** Whatever the state before, a call leaves the token it saw as the
    stored one, and a grid it returned is cached under its key. *)
Lemma step_post (st : cache_state token) (w : world token) level_id mode r st' loads :
  open_level_cached CACHE_ROOT cls st w level_id mode = (r, st', loads) ->
  cache_key st' = Some (current_processed_cache_key w) /\
  forall g, r = Ok g -> cached st' !! (level_id, mode) = Some g.
Proof.
  intros Hstep.
  destruct (decide (cache_key st = Some (current_processed_cache_key w))) as [He|Hne].
  - destruct (cached st !! (level_id, mode)) as [g0|] eqn:Hc.
    + rewrite (step_hit _ _ _ _ _ He Hc) in Hstep. injection Hstep as <- <- <-.
      split; [exact He|]. intros g [= <-]. exact Hc.
    + rewrite (step_miss _ _ _ _ He Hc) in Hstep. injection Hstep as <- <- <-.
      destruct (open_level CACHE_ROOT cls (files w) level_id mode) as [g0|e].
      * split; [exact He|]. intros g [= <-]. cbn. apply lookup_insert_eq.
      * split; [exact He|]. intros g. discriminate.
  - rewrite (step_epoch_changed _ _ _ _ Hne) in Hstep. injection Hstep as <- <- <-.
    split; [reflexivity|].
    intros g Hg. rewrite Hg. cbn. apply lookup_singleton_eq.
Qed.

(** Under the stored token, an entry of the mapping survives every call. *)
Lemma step_keeps (st : cache_state token) (w : world token) level_id mode r st' loads k g :
  cache_key st = Some (current_processed_cache_key w) ->
  cached st !! k = Some g ->
  open_level_cached CACHE_ROOT cls st w level_id mode = (r, st', loads) ->
  cached st' !! k = Some g.
Proof.
  intros He Hk Hstep.
  destruct (cached st !! (level_id, mode)) as [g0|] eqn:Hc.
  - rewrite (step_hit _ _ _ _ _ He Hc) in Hstep. injection Hstep as <- <- <-. exact Hk.
  - rewrite (step_miss _ _ _ _ He Hc) in Hstep. injection Hstep as <- <- <-.
    destruct (open_level CACHE_ROOT cls (files w) level_id mode) as [g0|e]; [|exact Hk].
    cbn. rewrite lookup_insert_ne; [exact Hk|].
    intros <-. congruence.
Qed.

(** While the token does not change, a cached key is served from the
    mapping by every call of a run. *)
Lemma run_hits (tok : token) (calls : list (world token * (Z * string)))
    (st : cache_state token) k g :
  Forall (fun c => current_processed_cache_key (fst c) = tok) calls ->
  cache_key st = Some tok ->
  cached st !! k = Some g ->
  forall j r loads,
    snd (run CACHE_ROOT cls st calls) !! j = Some (k, r, loads) ->
    r = Ok g /\ loads = [].
Proof.
  intros Hcalls. revert st.
  induction Hcalls as [|[w [level_id mode]] calls Hw _ IH]; intros st He Hk j r loads Hj.
  - discriminate.
  - cbn [fst] in Hw. cbn [run] in Hj.
    destruct (open_level_cached CACHE_ROOT cls st w level_id mode) as [[r0 st1] loads0] eqn:Hstep.
    destruct (run CACHE_ROOT cls st1 calls) as [st2 trace] eqn:Hrun.
    cbn [snd] in Hj.
    assert (He' : cache_key st = Some (current_processed_cache_key w)) by congruence.
    destruct j as [|j].
    + injection Hj as <- <- <-.
      rewrite (step_hit _ _ _ _ _ He' Hk) in Hstep. injection Hstep as <- <- <-.
      split; reflexivity.
    + apply (IH st1) with (j := j).
      * destruct (step_post _ _ _ _ _ _ _ Hstep) as [-> _]. congruence.
      * eapply step_keeps; eassumption.
      * rewrite Hrun. exact Hj.
Qed.

(** C5 (epoch-keyed cache).  Every call of [open_level_cached] is one step
    on the state (mapping, stored token), and from every state:
    - a call that sees a token different from the stored one adopts it,
      drops the whole mapping and loads the file of the key asked for,
      whether or not that key was cached, so that afterwards the mapping
      holds at most that key;
    - a call that sees the stored token and finds its key in the mapping
      returns the cached grid, loads nothing and leaves the state as it is;
    - a call that sees the stored token and does not find its key loads
      the file once and adds the grid to the mapping (a load that raises
      adds nothing);
    - in a run of calls that all see the same token, once a call for a key
      has returned a grid, every later call for that key returns the same
      grid and loads nothing, so a key is loaded successfully at most
      once. *)
Theorem epoch_keyed_cache (st : cache_state token) :
  (forall w level_id mode,
     cache_key st <> Some (current_processed_cache_key w) ->
     exists st',
       open_level_cached CACHE_ROOT cls st w level_id mode =
         (open_level CACHE_ROOT cls (files w) level_id mode, st', [(level_id, mode)]) /\
       cache_key st' = Some (current_processed_cache_key w) /\
       (forall k, k <> (level_id, mode) -> cached st' !! k = None) /\
       cached st' !! (level_id, mode) =
         match open_level CACHE_ROOT cls (files w) level_id mode with
         | Ok g => Some g
         | Raise _ => None
         end) /\
  (forall w level_id mode g,
     cache_key st = Some (current_processed_cache_key w) ->
     cached st !! (level_id, mode) = Some g ->
     open_level_cached CACHE_ROOT cls st w level_id mode = (Ok g, st, [])) /\
  (forall w level_id mode,
     cache_key st = Some (current_processed_cache_key w) ->
     cached st !! (level_id, mode) = None ->
     open_level_cached CACHE_ROOT cls st w level_id mode =
       (open_level CACHE_ROOT cls (files w) level_id mode,
        match open_level CACHE_ROOT cls (files w) level_id mode with
        | Ok g => mk_cache (<[ (level_id, mode) := g ]> (cached st)) (cache_key st)
        | Raise _ => st
        end,
        [(level_id, mode)])) /\
  (forall tok calls,
     Forall (fun c => current_processed_cache_key (fst c) = tok) calls ->
     forall i j k g l r l',
       (i < j)%nat ->
       snd (run CACHE_ROOT cls st calls) !! i = Some (k, Ok g, l) ->
       snd (run CACHE_ROOT cls st calls) !! j = Some (k, r, l') ->
       r = Ok g /\ l' = []).
Proof.
  split; [|split; [|split]].
  - intros w level_id mode Hne.
    rewrite (step_epoch_changed _ _ _ _ Hne).
    eexists. split; [reflexivity|]. cbn [cache_key cached].
    split; [reflexivity|].
    destruct (open_level CACHE_ROOT cls (files w) level_id mode) as [g|e].
    + split; [|apply lookup_singleton_eq].
      intros k Hk. apply lookup_singleton_ne. congruence.
    + split; [|apply lookup_empty]. intros k _. apply lookup_empty.
  - intros w level_id mode g. apply step_hit.
  - intros w level_id mode. apply step_miss.
  - intros tok calls Hcalls. revert st.
    induction Hcalls as [|[w [level_id mode]] calls Hw Hcalls IH];
      intros st i j k g l r l' Hij Hi Hj.
    + discriminate.
    + cbn [fst] in Hw. cbn [run] in Hi, Hj.
      destruct (open_level_cached CACHE_ROOT cls st w level_id mode)
        as [[r0 st1] loads0] eqn:Hstep.
      destruct (run CACHE_ROOT cls st1 calls) as [st2 trace] eqn:Hrun.
      cbn [snd] in Hi, Hj.
      destruct (step_post _ _ _ _ _ _ _ Hstep) as [He1 Hcached].
      destruct j as [|j]; [lia|]. cbn in Hj.
      destruct i as [|i].
      * injection Hi as <- -> <-.
        apply (run_hits tok calls st1 (level_id, mode) g Hcalls) with (j := j).
        -- congruence.
        -- apply Hcached. reflexivity.
        -- rewrite Hrun. exact Hj.
      * cbn in Hi. apply (IH st1 i j k g l r l'); [lia | |]; rewrite Hrun; assumption.
Qed.

End ProcessCache.

Lemma epoch_keyed_cache_witness :
  cache_key (cache_init (token := Z)) <> Some 1 /\
  Forall (fun c : world Z * (Z * string) => current_processed_cache_key (fst c) = 1)
         sample_calls /\
  (exists st',
     open_level_cached "/cache" sample_class cache_init (mk_world 1 sample_files) 3 "base" =
       (open_level "/cache" sample_class sample_files 3 "base", st', [(3, "base")]) /\
     cache_key st' = Some 1) /\
  (exists g r l',
     snd (run "/cache" sample_class cache_init sample_calls) !! 0%nat
       = Some ((3, "base"), Ok g, [(3, "base")]) /\
     snd (run "/cache" sample_class cache_init sample_calls) !! 1%nat
       = Some ((3, "base"), r, l') /\
     r = Ok g /\ l' = []).
Proof.
  assert (Hne : cache_key (cache_init (token := Z)) <> Some 1) by (simpl; congruence).
  assert (Hcalls : Forall (fun c : world Z * (Z * string) =>
                             current_processed_cache_key (fst c) = 1) sample_calls)
    by (repeat constructor).
  destruct (epoch_keyed_cache "/cache" sample_class (cache_init (token := Z)))
    as (Hchange & _ & _ & Hrun).
  split; [exact Hne|]. split; [exact Hcalls|]. split.
  - destruct (Hchange (mk_world 1 sample_files) 3 "base" Hne) as (st' & Hstep & Hk & _).
    exists st'. split; [exact Hstep | exact Hk].
  - eexists _, _, _.
    split; [vm_compute; reflexivity|]. split; [vm_compute; reflexivity|].
    eapply (Hrun 1 sample_calls Hcalls 0%nat 1%nat); [lia | |];
      vm_compute; reflexivity.
Defined.

(** * Further properties *)

(** ** Decoding arbitrary streams *)

Lemma unpack_H_range lo hi :
  is_octet lo -> is_octet hi -> 0 <= unpack_H lo hi <= 65535.
Proof. unfold is_octet, unpack_H. lia. Qed.

Lemma unpack_h_range lo hi :
  is_octet lo -> is_octet hi -> -32768 <= unpack_h lo hi <= 32767.
Proof.
  intros Hlo Hhi. pose proof (unpack_H_range lo hi Hlo Hhi).
  unfold unpack_h. destruct (Z.leb_spec 32768 (unpack_H lo hi)); lia.
Qed.

Lemma le16_unpack_H lo hi :
  is_octet lo -> is_octet hi -> le16 (unpack_H lo hi) = [lo; hi].
Proof.
  unfold is_octet, unpack_H, le16. intros Hlo Hhi.
  assert (E1 : (lo + 256 * hi) mod 256 = lo)
    by (symmetry; apply (Z.mod_unique _ _ hi); lia).
  assert (E2 : (lo + 256 * hi) / 256 = hi)
    by (symmetry; apply (Z.div_unique _ _ hi lo); lia).
  rewrite E1, E2, Z.mod_small by lia. reflexivity.
Qed.

Lemma le16_unpack_h lo hi :
  is_octet lo -> is_octet hi -> le16 (unpack_h lo hi mod 65536) = [lo; hi].
Proof.
  intros Hlo Hhi. pose proof (unpack_H_range lo hi Hlo Hhi) as Hr.
  transitivity (le16 (unpack_H lo hi)); [|apply le16_unpack_H; assumption].
  f_equal. unfold unpack_h. destruct (Z.leb_spec 32768 (unpack_H lo hi)).
  - symmetry. apply (Z.mod_unique _ _ (-1)); lia.
  - apply Z.mod_small. lia.
Qed.

(** What [np.fromstring] makes of octets: cells of [uint16], two octets
    each, and the octets are those of the cells. *)
Lemma fromstring_inv (raw cells : list Z) :
  Forall is_octet raw -> fromstring raw = Ok cells ->
  Forall is_uint16 cells /\ flat_map le16 cells = raw /\
  length raw = (2 * length cells)%nat.
Proof.
  revert cells. induction raw as [raw IH] using (induction_ltof1 _ (@length Z)).
  unfold ltof in IH. intros cells Hoct H.
  destruct raw as [|lo [|hi rest]]; cbn [fromstring] in H.
  - injection H as <-. repeat split; constructor.
  - discriminate.
  - destruct (fromstring rest) as [cells'|] eqn:E; cbn [bind] in H; [|discriminate].
    injection H as <-.
    apply Forall_cons in Hoct. destruct Hoct as [Hlo Hoct].
    apply Forall_cons in Hoct. destruct Hoct as [Hhi Hoct].
    destruct (IH rest ltac:(cbn; lia) cells' Hoct E) as (Hc & Hb & Hl).
    split; [|split].
    + constructor; [|exact Hc]. pose proof (unpack_H_range lo hi Hlo Hhi).
      unfold is_uint16. lia.
    + cbn [flat_map]. rewrite le16_unpack_H by assumption. cbn [app]. now rewrite Hb.
    + cbn [length]. lia.
Qed.

Lemma fromstring_odd (raw : list Z) :
  Nat.Odd (length raw) -> exists msg, fromstring raw = Raise (ValueError msg).
Proof.
  induction raw as [raw IH] using (induction_ltof1 _ (@length Z)).
  unfold ltof in IH. intros Hodd.
  destruct raw as [|lo [|hi rest]]; cbn [fromstring].
  - destruct Hodd as [k Hk]. cbn in Hk. lia.
  - eexists. reflexivity.
  - destruct (IH rest) as [msg ->]; [cbn; lia | | eexists; reflexivity].
    destruct Hodd as [k Hk]. cbn [length] in Hk. exists (k - 1)%nat. lia.
Qed.

Lemma fromstring_even (raw : list Z) :
  Nat.Even (length raw) -> exists cells, fromstring raw = Ok cells.
Proof.
  induction raw as [raw IH] using (induction_ltof1 _ (@length Z)).
  unfold ltof in IH. intros Heven.
  destruct raw as [|lo [|hi rest]]; cbn [fromstring].
  - eexists. reflexivity.
  - destruct Heven as [k Hk]. cbn in Hk. lia.
  - destruct (IH rest) as [cells ->]; [cbn; lia | | eexists; reflexivity].
    destruct Heven as [k Hk]. cbn [length] in Hk. exists (k - 1)%nat. lia.
Qed.

Lemma reshape_inv flat sh a :
  reshape flat sh = Ok a ->
  a = mk_ndarray sh flat /\ 0 <= fst sh /\ 0 <= snd sh /\
  Z.of_nat (length flat) = fst sh * snd sh.
Proof.
  unfold reshape.
  destruct (Z.leb_spec 0 (fst sh)); [|discriminate].
  destruct (Z.leb_spec 0 (snd sh)); [|discriminate].
  destruct (Z.eqb_spec (Z.of_nat (length flat)) (fst sh * snd sh)); [|discriminate].
  cbn [andb]. intros [= <-]. auto.
Qed.

(** A grid that [read] returns, for a stream of octets: it is proper, its
    header fields fit, and the octets consumed are its encoding. *)
Lemma read_inv cls f g rest :
  Forall is_octet f -> read cls f = (Ok g, rest) ->
  wf_grid g /\ representable cls g /\ filename g = None /\
  exists enc, write cls g [] = Ok enc /\ f = enc ++ rest.
Proof.
  intros Hoct Hread.
  destruct (Nat.lt_ge_cases (length f) 10) as [Hs|Hl].
  { rewrite read_short in Hread by exact Hs. discriminate. }
  destruct f as [|b0 [|b1 [|b2 [|b3 [|b4 [|b5 [|b6 [|b7 [|b8 [|b9 body]]]]]]]]]];
    try (cbn [length] in Hl; lia).
  rewrite read_header in Hread.
  destruct (Z.eqb_spec b0 (variant_id cls)) as [Hv|Hv]; cbn [negb] in Hread;
    [|discriminate].
  cbv zeta in Hread.
  set (n := Z.to_nat (unpack_H b6 b7 * unpack_H b8 b9 * itemsize)) in *.
  destruct (fromstring (take n body)) as [flat|] eqn:Hflat;
    cbn [bind] in Hread; [|discriminate].
  destruct (reshape flat (unpack_H b8 b9, unpack_H b6 b7)) as [a|] eqn:Hshape;
    cbn [bind] in Hread; [|discriminate].
  injection Hread as <- <-.
  destruct (reshape_inv _ _ _ Hshape) as (-> & Hh & Hw & Hlen). cbn [fst snd] in *.
  repeat (apply Forall_cons in Hoct; destruct Hoct as [? Hoct]).
  destruct (fromstring_inv (take n body) flat) as (Hcells & Hbytes & _);
    [apply Forall_take; exact Hoct | exact Hflat |].
  pose proof (unpack_H_range b6 b7 ltac:(assumption) ltac:(assumption)).
  pose proof (unpack_H_range b8 b9 ltac:(assumption) ltac:(assumption)).
  pose proof (unpack_h_range b2 b3 ltac:(assumption) ltac:(assumption)).
  pose proof (unpack_h_range b4 b5 ltac:(assumption) ltac:(assumption)).
  assert (Hwf : wf_grid (mk_grid b1 (unpack_h b2 b3) (unpack_h b4 b5)
                           (mk_ndarray (unpack_H b8 b9, unpack_H b6 b7) flat) None)).
  { split; [|exact Hcells]. unfold wf_array, size. cbn. lia. }
  assert (Hrep : representable cls (mk_grid b1 (unpack_h b2 b3) (unpack_h b4 b5)
                           (mk_ndarray (unpack_H b8 b9, unpack_H b6 b7) flat) None)).
  { unfold representable, is_octet in *. cbn. subst b0. lia. }
  split; [exact Hwf|]. split; [exact Hrep|]. split; [reflexivity|].
  eexists. split; [apply (write_ok cls _ [] Hrep Hwf)|].
  cbn [app x y resolution data shape buf fst snd init].
  rewrite !le16_unpack_h, !le16_unpack_H by assumption.
  unfold tobytes. cbn [buf app]. rewrite Hbytes, take_drop. subst b0. reflexivity.
Qed.

Lemma fromstring_length (raw cells : list Z) :
  fromstring raw = Ok cells -> length raw = (2 * length cells)%nat.
Proof.
  revert cells. induction raw as [raw IH] using (induction_ltof1 _ (@length Z)).
  unfold ltof in IH. intros cells H.
  destruct raw as [|lo [|hi rest]]; cbn [fromstring] in H.
  - injection H as <-. reflexivity.
  - discriminate.
  - destruct (fromstring rest) as [cells'|] eqn:E; cbn [bind] in H; [|discriminate].
    injection H as <-. cbn [length].
    rewrite (IH rest ltac:(cbn; lia) cells' E). lia.
Qed.


(** X2 (payload length).  After a header of the expected variant, [read]
    takes width * height * itemsize octets: when the stream holds that
    many, it returns a grid of the shape the header announces and leaves
    the rest of the stream; when it holds fewer, [read] raises
    [ValueError] and the stream is used up. *)
Theorem read_payload_length cls b1 b2 b3 b4 b5 b6 b7 b8 b9 body :
  Forall is_octet [b6; b7; b8; b9] ->
  let f := variant_id cls :: b1 :: b2 :: b3 :: b4 :: b5 :: b6 :: b7 :: b8 :: b9 :: body in
  let need := unpack_H b6 b7 * unpack_H b8 b9 * itemsize in
  (need <= Z.of_nat (length body) ->
   exists g, read cls f = (Ok g, drop (Z.to_nat need) body) /\
             shape (data g) = (unpack_H b8 b9, unpack_H b6 b7)) /\
  (Z.of_nat (length body) < need ->
   exists msg, read cls f = (Raise (ValueError msg), [])).
Proof.
  intros Hoct f need. subst f.
  repeat (apply Forall_cons in Hoct; destruct Hoct as [? Hoct]).
  pose proof (unpack_H_range b6 b7 ltac:(assumption) ltac:(assumption)) as Hw.
  pose proof (unpack_H_range b8 b9 ltac:(assumption) ltac:(assumption)) as Hh.
  rewrite read_header, Z.eqb_refl. cbn [negb]. cbv zeta. fold need.
  assert (Hneed : need = 2 * (unpack_H b8 b9 * unpack_H b6 b7))
    by (unfold need, itemsize; lia).
  split.
  - intros Hlen.
    assert (Hl : length (take (Z.to_nat need) body) = Z.to_nat need)
      by (rewrite length_take; lia).
    destruct (fromstring_even (take (Z.to_nat need) body)) as [flat Hflat].
    { rewrite Hl. exists (Z.to_nat (unpack_H b8 b9 * unpack_H b6 b7)). lia. }
    rewrite Hflat. cbn [bind].
    pose proof (fromstring_length _ _ Hflat) as Hfl.
    unfold reshape. cbn [fst snd].
    replace (0 <=? unpack_H b8 b9) with true by (symmetry; apply Z.leb_le; lia).
    replace (0 <=? unpack_H b6 b7) with true by (symmetry; apply Z.leb_le; lia).
    replace (Z.of_nat (length flat) =? _) with true by (symmetry; apply Z.eqb_eq; nia).
    cbn [andb bind]. eexists. split; reflexivity.
  - intros Hlen.
    rewrite take_ge, drop_ge by lia.
    destruct (Nat.Even_or_Odd (length body)) as [Heven|Hodd].
    + destruct (fromstring_even body Heven) as [flat Hflat].
      rewrite Hflat. cbn [bind].
      pose proof (fromstring_length _ _ Hflat) as Hfl.
      unfold reshape. cbn [fst snd].
      replace (Z.of_nat (length flat) =? _) with false by (symmetry; apply Z.eqb_neq; nia).
      rewrite !andb_false_r. cbn [bind]. eexists. reflexivity.
    + destruct (fromstring_odd body Hodd) as [msg ->]. cbn [bind].
      eexists. reflexivity.
Qed.

(** ** Files: saving and opening *)

Lemma write_header_ok cls g f :
  header_fits cls g ->
  write cls g f =
  Ok (f ++ [variant_id cls; resolution g] ++ le16 (x g mod 65536) ++ le16 (y g mod 65536)
        ++ le16 (snd (shape (data g))) ++ le16 (fst (shape (data g)))
        ++ tobytes (data g)).
Proof.
  intros (Hv & Hr & Hx & Hy & Hw & Hh).
  unfold write. rewrite struct_pack_ok by lia.
  cbn [bind]. unfold _write_metadata. f_equal.
  rewrite <- !app_assoc. reflexivity.
Qed.

Lemma in_range_false lo hi v : ~ lo <= v <= hi -> in_range lo hi v = false.
Proof.
  intros H. unfold in_range.
  destruct (Z.leb_spec lo v), (Z.leb_spec v hi); cbn; try reflexivity. lia.
Qed.

Lemma write_header_bad cls g f :
  ~ header_fits cls g -> write cls g f = Raise struct_error.
Proof.
  intros Hbad. unfold write, struct_pack, pack_B, pack_h, pack_H.
  destruct (in_range 0 255 (variant_id cls)) eqn:E1; [|reflexivity].
  destruct (in_range 0 255 (resolution g)) eqn:E2; [|reflexivity].
  destruct (in_range (-32768) 32767 (x g)) eqn:E3; [|reflexivity].
  destruct (in_range (-32768) 32767 (y g)) eqn:E4; [|reflexivity].
  destruct (in_range 0 65535 (snd (shape (data g)))) eqn:E5; [|reflexivity].
  destruct (in_range 0 65535 (fst (shape (data g)))) eqn:E6; [|reflexivity].
  exfalso. apply Hbad. unfold header_fits, in_range in *.
  rewrite !andb_true_iff, !Z.leb_le in *. lia.
Qed.

Lemma save_some cls g name n fs :
  match name with Some n' => Some n' | None => filename g end = Some n ->
  save cls g name fs =
  match write cls g [] with
  | Ok f => (Ok tt, <[n := f]> fs)
  | Raise e => (Raise e, <[n := []]> fs)
  end.
Proof. intros Hn. unfold save. rewrite Hn. reflexivity. Qed.

(** Reading back what [write] appends. *)
Lemma read_encoding cls g rest :
  representable cls g -> wf_grid g ->
  read cls ([variant_id cls; resolution g] ++ le16 (x g mod 65536) ++ le16 (y g mod 65536)
              ++ le16 (snd (shape (data g))) ++ le16 (fst (shape (data g)))
              ++ tobytes (data g) ++ rest) =
  (Ok (mk_grid (resolution g) (x g) (y g) (data g) None), rest).
Proof.
  intros (Hv & Hr & Hx & Hy & Hw & Hh) [(Hh0 & Hw0 & Hlen) Hcells].
  cbn [le16 app]. rewrite read_header.
  rewrite Z.eqb_refl. cbn [negb].
  rewrite !unpack_h_le16, !unpack_H_le16 by lia.
  cbv zeta.
  assert (Hn : Z.to_nat (snd (shape (data g)) * fst (shape (data g)) * itemsize) =
               length (tobytes (data g))).
  { rewrite length_tobytes. unfold size, itemsize in *. lia. }
  rewrite take_app_length', drop_app_length' by exact Hn.
  unfold tobytes. rewrite fromstring_tobytes by exact Hcells.
  cbn [bind]. unfold reshape. cbn [fst snd].
  replace (Z.of_nat (length (buf (data g))) =? _) with true
    by (symmetry; apply Z.eqb_eq; exact Hlen).
  replace (0 <=? _) with true by (symmetry; apply Z.leb_le; lia).
  replace (0 <=? _) with true by (symmetry; apply Z.leb_le; lia).
  cbn [andb bind]. destruct (data g) as [[h w] cells]. reflexivity.
Qed.


(** X3 (save, then open).  Saving a representable, proper grid under a
    name (the one given, or else the one the grid carries) and opening
    that name returns the grid with its resolution, origin and array, and
    with the name as its file name; no other file is touched. *)
Theorem save_then_open cls g name n fs :
  representable cls g -> wf_grid g ->
  match name with Some n' => Some n' | None => filename g end = Some n ->
  exists fs',
    save cls g name fs = (Ok tt, fs') /\
    open cls fs' n = Ok (mk_grid (resolution g) (x g) (y g) (data g) (Some n)) /\
    forall n', n' <> n -> fs' !! n' = fs !! n'.
Proof.
  intros Hrep Hwf Hn.
  rewrite (save_some _ _ _ _ _ Hn), (write_ok cls g [] Hrep Hwf). cbn [app].
  eexists. split; [reflexivity|]. split.
  - unfold open, filesystem in *. rewrite lookup_insert_eq.
    pose proof (read_encoding cls g [] Hrep Hwf) as Hr.
    rewrite !app_nil_r in Hr. cbn [app le16] in Hr |- *. rewrite Hr. reflexivity.
  - intros n' Hne. unfold filesystem in *. apply lookup_insert_ne. congruence.
Qed.


(** X1 (decoding, then encoding).  Whatever stream of octets [read]
    accepts, the grid it returns is a proper [uint16] array whose header
    fields fit and which has no file name; the octets consumed are exactly
    what [write] emits for that grid, and reading that encoding again, in
    front of anything, returns the same grid. *)
Theorem read_then_write cls f g rest :
  Forall is_octet f -> read cls f = (Ok g, rest) ->
  wf_grid g /\ header_fits cls g /\ filename g = None /\
  exists enc,
    f = enc ++ rest /\
    (forall out, write cls g out = Ok (out ++ enc)) /\
    (forall rest', read cls (enc ++ rest') = (Ok g, rest')).
Proof.
  intros Hoct Hread.
  destruct (read_inv cls f g rest Hoct Hread) as (Hwf & Hrep & Hfn & enc & Hw & Hf).
  split; [exact Hwf|]. split.
  { destruct Hrep as (? & ? & ? & ? & ? & ?), Hwf as [(? & ? & _) _].
    unfold header_fits. lia. }
  split; [exact Hfn|].
  exists enc. split; [exact Hf|].
  rewrite (write_ok cls g [] Hrep Hwf) in Hw. injection Hw as <-.
  split.
  - intros out. apply (write_ok cls g out Hrep Hwf).
  - intros rest'. pose proof (read_encoding cls g rest' Hrep Hwf) as Hr.
    cbn [app le16] in Hr |- *. rewrite Hr.
    destruct g as [res gx gy d fn]. cbn in Hfn. subst fn. reflexivity.
Qed.


(** X4 (variants do not mix).  A file saved by a class cannot be opened by
    a class with another variant id: [open] raises the format mismatch. *)
Theorem open_other_variant cls cls' g n fs :
  representable cls g -> wf_grid g ->
  variant_id cls' <> variant_id cls ->
  save cls g (Some n) fs =
    (Ok tt, <[n := [variant_id cls; resolution g] ++ le16 (x g mod 65536)
                    ++ le16 (y g mod 65536) ++ le16 (snd (shape (data g)))
                    ++ le16 (fst (shape (data g))) ++ tobytes (data g)]> fs) /\
  open cls' (snd (save cls g (Some n) fs)) n = Raise FormatMismatch.
Proof.
  intros Hrep Hwf Hne.
  assert (Hsave : save cls g (Some n) fs =
    (Ok tt, <[n := [variant_id cls; resolution g] ++ le16 (x g mod 65536)
                    ++ le16 (y g mod 65536) ++ le16 (snd (shape (data g)))
                    ++ le16 (fst (shape (data g))) ++ tobytes (data g)]> fs)).
  { rewrite (save_some cls g (Some n) n fs eq_refl), (write_ok cls g [] Hrep Hwf).
    reflexivity. }
  split; [exact Hsave|].
  rewrite Hsave. cbn [snd]. unfold open, filesystem in *.
  rewrite lookup_insert_eq. cbn [le16 app]. rewrite read_header.
  replace (variant_id cls =? variant_id cls') with false
    by (symmetry; apply Z.eqb_neq; congruence).
  reflexivity.
Qed.


(** X5 (saving what does not fit).  When the six header fields fit their
    widths, [save] stores ten header octets and itemsize octets per cell.
    When one of them does not fit, [save] raises [struct.error] after the
    file has been opened for writing: the file is left empty, and opening
    it raises [struct.error]. *)
Theorem save_header_guard cls g n fs :
  (header_fits cls g ->
   exists enc, save cls g (Some n) fs = (Ok tt, <[n := enc]> fs) /\
               Z.of_nat (length enc) =
               10 + itemsize * Z.of_nat (length (buf (data g)))) /\
  (~ header_fits cls g ->
   save cls g (Some n) fs = (Raise struct_error, <[n := []]> fs) /\
   open cls (snd (save cls g (Some n) fs)) n = Raise struct_error).
Proof.
  split.
  - intros Hfit.
    rewrite (save_some cls g (Some n) n fs eq_refl), (write_header_ok cls g [] Hfit).
    eexists. split; [reflexivity|].
    cbn [app le16 length]. rewrite length_tobytes. unfold itemsize. lia.
  - intros Hbad.
    assert (Hsave : save cls g (Some n) fs = (Raise struct_error, <[n := []]> fs)).
    { rewrite (save_some cls g (Some n) n fs eq_refl), (write_header_bad cls g [] Hbad).
      reflexivity. }
    split; [exact Hsave|]. rewrite Hsave. cbn [snd].
    unfold open, filesystem in *. rewrite lookup_insert_eq. reflexivity.
Qed.

Lemma write_filename cls g fn f :
  write cls (mk_grid (resolution g) (x g) (y g) (data g) fn) f = write cls g f.
Proof. reflexivity. Qed.


(** X6 (open, then save).  A grid returned by [open] carries the name of
    its file, so [save] without a name rewrites that file: with the
    encoding of the grid, that is the old contents without whatever
    followed the cells.  The file system is unchanged when nothing
    followed them, and the file opens to the same grid again. *)
Theorem open_then_save cls fs n g :
  (forall f, fs !! n = Some f -> Forall is_octet f) ->
  open cls fs n = Ok g ->
  exists enc rest,
    fs !! n = Some (enc ++ rest) /\
    save cls g None fs = (Ok tt, <[n := enc]> fs) /\
    (rest = [] -> snd (save cls g None fs) = fs) /\
    open cls (snd (save cls g None fs)) n = Ok g.
Proof.
  intros Hoct Hopen. unfold open in Hopen.
  destruct (fs !! n) as [f|] eqn:Hf; [|discriminate].
  destruct (read cls f) as [[g0|e] rest] eqn:Hread; cbn [fst bind] in Hopen;
    [|discriminate].
  injection Hopen as <-.
  destruct (read_inv cls f g0 rest (Hoct f eq_refl) Hread)
    as (Hwf & Hrep & Hfn & enc & Hw & ->).
  exists enc, rest. split; [reflexivity|].
  assert (Hsave : save cls (mk_grid (resolution g0) (x g0) (y g0) (data g0) (Some n))
                    None fs = (Ok tt, <[n := enc]> fs)).
  { rewrite (save_some cls (mk_grid (resolution g0) (x g0) (y g0) (data g0) (Some n))
               None n fs eq_refl), write_filename, Hw. reflexivity. }
  split; [exact Hsave|]. rewrite Hsave. cbn [snd]. split.
  - intros ->. rewrite app_nil_r in Hf. unfold filesystem in *.
    apply insert_id. exact Hf.
  - unfold open, filesystem in *. rewrite lookup_insert_eq.
    pose proof (read_encoding cls g0 [] Hrep Hwf) as Hr.
    rewrite (write_ok cls g0 [] Hrep Hwf) in Hw. injection Hw as <-.
    rewrite !app_nil_r in Hr. cbn [app le16] in Hr |- *. rewrite Hr. reflexivity.
Qed.

Lemma read_then_write_witness :
  Forall is_octet sample_stream /\
  read base_variant sample_stream = (Ok sample_grid, [9]) /\
  exists enc,
    sample_stream = enc ++ [9] /\
    write base_variant sample_grid [] = Ok ([] ++ enc).
Proof.
  assert (Hoct : Forall is_octet sample_stream)
    by (repeat constructor; unfold is_octet; lia).
  assert (Hread : read base_variant sample_stream = (Ok sample_grid, [9]))
    by reflexivity.
  split; [exact Hoct|]. split; [exact Hread|].
  destruct (read_then_write base_variant sample_stream sample_grid [9] Hoct Hread)
    as (_ & _ & _ & enc & Hf & Hw & _).
  exists enc. split; [exact Hf | exact (Hw [])].
Defined.

Lemma read_payload_length_witness :
  Forall is_octet [3; 0; 2; 0] /\
  12 <= Z.of_nat (length [1; 0; 2; 0; 3; 0; 4; 0; 5; 0; 255; 255; 9]) /\
  Z.of_nat (length [1; 0; 2]) < 12 /\
  (exists g,
     read base_variant
       ([0; 4; 253; 255; 7; 0; 3; 0; 2; 0] ++ [1; 0; 2; 0; 3; 0; 4; 0; 5; 0; 255; 255; 9]) =
     (Ok g, [9])) /\
  (exists msg,
     read base_variant ([0; 4; 253; 255; 7; 0; 3; 0; 2; 0] ++ [1; 0; 2]) =
     (Raise (ValueError msg), [])).
Proof.
  assert (Hoct : Forall is_octet [3; 0; 2; 0])
    by (repeat constructor; unfold is_octet; lia).
  assert (H1 : 12 <= Z.of_nat (length [1; 0; 2; 0; 3; 0; 4; 0; 5; 0; 255; 255; 9]))
    by (simpl; lia).
  assert (H2 : Z.of_nat (length [1; 0; 2]) < 12) by (simpl; lia).
  split; [exact Hoct|]. split; [exact H1|]. split; [exact H2|]. split.
  - destruct (proj1 (read_payload_length base_variant 4 253 255 7 0 3 0 2 0
                       [1; 0; 2; 0; 3; 0; 4; 0; 5; 0; 255; 255; 9] Hoct) H1)
      as (g & Hg & _).
    exists g. exact Hg.
  - exact (proj2 (read_payload_length base_variant 4 253 255 7 0 3 0 2 0
                    [1; 0; 2] Hoct) H2).
Defined.

Lemma save_then_open_witness :
  representable base_variant sample_grid /\ wf_grid sample_grid /\
  exists fs',
    save base_variant sample_grid (Some "/grid") ∅ = (Ok tt, fs') /\
    open base_variant fs' "/grid" =
      Ok (mk_grid 4 (-3) 7 (mk_ndarray (2, 3) [1; 2; 3; 4; 5; 65535]) (Some "/grid")).
Proof.
  assert (Hrep : representable base_variant sample_grid)
    by (unfold representable; simpl; lia).
  assert (Hwf : wf_grid sample_grid).
  { split; [unfold wf_array, size; simpl; lia|].
    simpl. repeat constructor; unfold is_uint16; lia. }
  split; [exact Hrep|]. split; [exact Hwf|].
  destruct (save_then_open base_variant sample_grid (Some "/grid") "/grid" ∅
              Hrep Hwf eq_refl) as (fs' & Hs & Ho & _).
  exists fs'. split; [exact Hs | exact Ho].
Defined.

Lemma open_other_variant_witness :
  representable base_variant sample_grid /\ wf_grid sample_grid /\
  variant_id other_variant <> variant_id base_variant /\
  open other_variant (snd (save base_variant sample_grid (Some "/grid") ∅)) "/grid" =
    Raise FormatMismatch.
Proof.
  assert (Hrep : representable base_variant sample_grid)
    by (unfold representable; simpl; lia).
  assert (Hwf : wf_grid sample_grid).
  { split; [unfold wf_array, size; simpl; lia|].
    simpl. repeat constructor; unfold is_uint16; lia. }
  assert (Hne : variant_id other_variant <> variant_id base_variant) by (simpl; lia).
  split; [exact Hrep|]. split; [exact Hwf|]. split; [exact Hne|].
  exact (proj2 (open_other_variant base_variant other_variant sample_grid "/grid" ∅
                  Hrep Hwf Hne)).
Defined.

Lemma save_header_guard_witness :
  header_fits base_variant sample_grid /\
  ~ header_fits base_variant coarse_grid /\
  (exists enc,
     save base_variant sample_grid (Some "/grid") ∅ = (Ok tt, <["/grid" := enc]> ∅) /\
     Z.of_nat (length enc) = 22) /\
  save base_variant coarse_grid (Some "/grid") ∅ =
    (Raise struct_error, <["/grid" := []]> ∅).
Proof.
  assert (Hfit : header_fits base_variant sample_grid)
    by (unfold header_fits; simpl; lia).
  assert (Hbad : ~ header_fits base_variant coarse_grid)
    by (unfold header_fits; simpl; lia).
  split; [exact Hfit|]. split; [exact Hbad|]. split.
  - exact (proj1 (save_header_guard base_variant sample_grid "/grid" ∅) Hfit).
  - exact (proj1 (proj2 (save_header_guard base_variant coarse_grid "/grid" ∅) Hbad)).
Defined.

Lemma open_then_save_witness :
  (forall f, (<["/grid" := sample_stream]> ∅ : filesystem) !! "/grid" = Some f ->
             Forall is_octet f) /\
  open base_variant (<["/grid" := sample_stream]> ∅) "/grid" =
    Ok (mk_grid 4 (-3) 7 (mk_ndarray (2, 3) [1; 2; 3; 4; 5; 65535]) (Some "/grid")) /\
  exists enc rest,
    (<["/grid" := sample_stream]> ∅ : filesystem) !! "/grid" = Some (enc ++ rest) /\
    save base_variant
      (mk_grid 4 (-3) 7 (mk_ndarray (2, 3) [1; 2; 3; 4; 5; 65535]) (Some "/grid"))
      None (<["/grid" := sample_stream]> ∅) =
    (Ok tt, <["/grid" := enc]> (<["/grid" := sample_stream]> ∅)).
Proof.
  assert (Hoct : forall f,
             (<["/grid" := sample_stream]> ∅ : filesystem) !! "/grid" = Some f ->
             Forall is_octet f).
  { intros f Hf. unfold filesystem in *. rewrite lookup_insert_eq in Hf.
    injection Hf as <-. repeat constructor; unfold is_octet; lia. }
  assert (Hopen : open base_variant (<["/grid" := sample_stream]> ∅) "/grid" =
            Ok (mk_grid 4 (-3) 7 (mk_ndarray (2, 3) [1; 2; 3; 4; 5; 65535])
                        (Some "/grid"))).
  { unfold open, filesystem. rewrite lookup_insert_eq. reflexivity. }
  split; [exact Hoct|]. split; [exact Hopen|].
  destruct (open_then_save base_variant _ "/grid" _ Hoct Hopen)
    as (enc & rest & Hf & Hs & _).
  exists enc, rest. split; [exact Hf | exact Hs].
Defined.

(** ** Reading rectangles *)

Lemma zrange_sub a b o :
  map (fun c => c - o) (zrange a b) = zrange (a - o) (b - o).
Proof.
  unfold zrange.
  replace (b - o - (a - o)) with (b - a) by lia.
  replace (a - o) with (- o + a) by lia.
  rewrite <- fmap_add_seqZ.
  apply list_fmap_ext. intros ? c _. lia.
Qed.

(** The clamped numpy slice [max(0, a - o) : max(0, b - o)] of an axis of
    length [n] at offset [o] selects the cells [a .. b) that the axis
    holds. *)
Lemma slice_range a b o n :
  0 <= n ->
  zrange (fst (norm_slice (Z.max 0 (a - o)) (Z.max 0 (b - o)) n))
         (snd (norm_slice (Z.max 0 (a - o)) (Z.max 0 (b - o)) n)) =
  map (fun c => c - o) (zrange (Z.max o a) (Z.min (o + n) b)).
Proof.
  intros Hn. unfold norm_slice, norm_slice_end. cbn [fst snd].
  destruct (Z.ltb_spec (Z.max 0 (a - o)) 0); [lia|].
  destruct (Z.ltb_spec (Z.max 0 (b - o)) 0); [lia|].
  rewrite zrange_sub.
  destruct (Z_lt_le_dec (Z.max o a) (Z.min (o + n) b)) as [Hlt|Hge].
  - f_equal; lia.
  - rewrite !zrange_nil by lia. reflexivity.
Qed.

Lemma cell_at_in g cx cy :
  wf_array (data g) ->
  x g <= cx < x g + snd (shape (data g)) ->
  y g <= cy < y g + fst (shape (data g)) ->
  cell_at g cx cy = Some (cell 0 (data g) (cy - y g) (cx - x g)).
Proof.
  intros (Hh & Hw & Hlen) Hx Hy. unfold size in Hlen.
  assert (Hi : (Z.to_nat ((cy - y g) * snd (shape (data g)) + (cx - x g))
                < length (buf (data g)))%nat) by nia.
  destruct (lookup_lt_is_Some_2 _ _ Hi) as [v Hv].
  rewrite (cell_lookup _ _ _ _ Hv). apply cell_at_Some. auto.
Qed.

Lemma flat_map_map {A B C} (f : B -> list C) (g : A -> B) (l : list A) :
  flat_map f (map g l) = flat_map (fun a => f (g a)) l.
Proof. induction l as [|a l IH]; [reflexivity|]. cbn. now rewrite IH. Qed.

Lemma flat_map_ext_elem {A B} (f g : A -> list B) (l : list A) :
  (forall a, a ∈ l -> f a = g a) -> flat_map f l = flat_map g l.
Proof.
  induction l as [|a l IH]; intros H; [reflexivity|].
  cbn. rewrite (H a) by (left; reflexivity). f_equal.
  apply IH. intros a' Ha'. apply H. right. exact Ha'.
Qed.

Lemma map_omap_Some {A B} (f : A -> B) (g : A -> option B) (l : list A) :
  (forall a, a ∈ l -> g a = Some (f a)) -> map f l = omap g l.
Proof.
  induction l as [|a l IH]; intros H; [reflexivity|].
  cbn. rewrite (H a) by (left; reflexivity). f_equal.
  apply IH. intros a' Ha'. apply H. right. exact Ha'.
Qed.

(** Reading a world rectangle, characterised through the cells. *)
Lemma getitem_tuple_cells g xx yy :
  wf_array (data g) -> resolution g <> 0 ->
  getitem g (KTuple xx yy) =
  Ok (flat_map
        (fun cy =>
           omap (fun cx => cell_at g cx cy)
                (zrange (Z.max (x g) (floor_div (start xx) (resolution g)))
                        (Z.min (x g + snd (shape (data g)))
                               (ceil_div (stop xx) (resolution g)))))
        (zrange (Z.max (y g) (floor_div (start yy) (resolution g)))
                (Z.min (y g + fst (shape (data g)))
                       (ceil_div (stop yy) (resolution g))))).
Proof.
  intros Hwf Hres. unfold getitem.
  replace (resolution g =? 0) with false by (symmetry; apply Z.eqb_neq; exact Hres).
  f_equal. unfold slice2_ravel.
  destruct Hwf as (Hh & Hw & Hlen).
  pose proof (slice_range (floor_div (start yy) (resolution g))
                (ceil_div (stop yy) (resolution g)) (y g) _ Hh) as Hrows.
  pose proof (slice_range (floor_div (start xx) (resolution g))
                (ceil_div (stop xx) (resolution g)) (x g) _ Hw) as Hcols.
  destruct (norm_slice (Z.max 0 (floor_div (start yy) (resolution g) - y g)) _ _)
    as [rlo rhi].
  destruct (norm_slice (Z.max 0 (floor_div (start xx) (resolution g) - x g)) _ _)
    as [clo chi].
  cbn [fst snd] in Hrows, Hcols. rewrite Hrows, Hcols, flat_map_map.
  apply flat_map_ext_elem. intros cy Hcy. apply elem_of_zrange in Hcy.
  rewrite map_map. apply map_omap_Some. intros cx Hcx. apply elem_of_zrange in Hcx.
  apply cell_at_in; [repeat split; assumption | lia | lia].
Qed.

Lemma flat_map_nil_const {A B} (l : list A) :
  flat_map (fun _ : A => @nil B) l = [].
Proof. induction l as [|a l IH]; [reflexivity | exact IH]. Qed.

Lemma getitem_tuple_empty g xx yy :
  wf_array (data g) -> resolution g <> 0 ->
  Z.min (x g + snd (shape (data g))) (ceil_div (stop xx) (resolution g))
    <= Z.max (x g) (floor_div (start xx) (resolution g)) \/
  Z.min (y g + fst (shape (data g))) (ceil_div (stop yy) (resolution g))
    <= Z.max (y g) (floor_div (start yy) (resolution g)) ->
  getitem g (KTuple xx yy) = Ok [].
Proof.
  intros Hwf Hres Hempty. rewrite (getitem_tuple_cells g xx yy Hwf Hres). f_equal.
  destruct Hempty as [Hx|Hy].
  - rewrite (zrange_nil _ _ Hx). cbn [omap list_omap]. apply flat_map_nil_const.
  - rewrite (zrange_nil _ _ Hy). reflexivity.
Qed.


(** X7 (reading a rectangle).  On a proper grid with a non-zero resolution,
    a read with a pair of slices returns, row after row, the values of
    the cells that lie both in the extent and in the cell range
    [floor(start / resolution), ceil(stop / resolution)) of the slices;
    each of these cells contributes one value, and the result is empty
    when the rectangle misses the extent. *)
Theorem read_rectangle g xx yy :
  wf_array (data g) -> resolution g <> 0 ->
  let lox := Z.max (x g) (floor_div (start xx) (resolution g)) in
  let hix := Z.min (x g + snd (shape (data g))) (ceil_div (stop xx) (resolution g)) in
  let loy := Z.max (y g) (floor_div (start yy) (resolution g)) in
  let hiy := Z.min (y g + fst (shape (data g))) (ceil_div (stop yy) (resolution g)) in
  getitem g (KTuple xx yy) =
    Ok (flat_map (fun cy => omap (fun cx => cell_at g cx cy) (zrange lox hix))
                 (zrange loy hiy)) /\
  (forall cx cy, lox <= cx < hix -> loy <= cy < hiy -> is_Some (cell_at g cx cy)) /\
  (hix <= lox \/ hiy <= loy -> getitem g (KTuple xx yy) = Ok []).
Proof.
  intros Hwf Hres lox hix loy hiy.
  split; [exact (getitem_tuple_cells g xx yy Hwf Hres)|]. split.
  - intros cx cy Hcx Hcy. rewrite cell_at_in by (try exact Hwf; lia). eauto.
  - intros Hempty. apply getitem_tuple_empty; assumption.
Qed.

(** ** Growth, cell by cell *)

Lemma cell_at_outside g cx cy :
  ~ (x g <= cx < x g + snd (shape (data g)) /\
     y g <= cy < y g + fst (shape (data g))) ->
  cell_at g cx cy = None.
Proof.
  intros Hout. destruct (cell_at g cx cy) as [v|] eqn:E; [|reflexivity].
  apply cell_at_Some in E. destruct E as (? & ? & _). exfalso. apply Hout. auto.
Qed.

Lemma fit_bounds_cells g minx miny maxx maxy g2 :
  wf_grid g -> fit_bounds g minx miny maxx maxy = Ok g2 ->
  wf_grid g2 /\ resolution g2 = resolution g /\ filename g2 = filename g /\
  grid_bounds g2 =
    (if size (data g) =? 0 then (minx, miny, maxx, maxy)
     else (Z.min (x g) minx, Z.min (y g) miny,
           Z.max (x g + snd (shape (data g))) maxx,
           Z.max (y g + fst (shape (data g))) maxy)) /\
  forall cx cy,
    x g2 <= cx < x g2 + snd (shape (data g2)) ->
    y g2 <= cy < y g2 + fst (shape (data g2)) ->
    cell_at g2 cx cy = Some (default 0 (cell_at g cx cy)).
Proof.
  intros Hwf Hfit.
  destruct (fit_bounds_frame _ _ _ _ _ _ Hfit) as [Hres Hfn].
  destruct (Z.eqb_spec (size (data g)) 0) as [Hsz|Hsz].
  - destruct (fit_bounds_empty_inv _ _ _ _ _ _ Hsz Hfit) as [Hx Hy].
    destruct (fit_bounds_empty_growth g minx miny maxx maxy Hsz Hx Hy)
      as (g' & Hfit' & Hwf' & _ & Hb & Hzero).
    assert (g' = g2) by congruence. subst g'.
    split; [exact Hwf'|]. split; [exact Hres|]. split; [exact Hfn|].
    split; [exact Hb|].
    intros cx cy Hcx Hcy.
    unfold grid_bounds in Hb. destruct (shape (data g2)) as [h2 w2].
    injection Hb as Hbx Hby Hbw Hbh. cbn [fst snd] in *.
    rewrite Hzero by lia.
    rewrite (cell_at_outside g); [reflexivity|].
    destruct Hwf as [(? & ? & _) _]. unfold size in Hsz. nia.
  - destruct (fit_bounds_nonempty_growth g minx miny maxx maxy Hwf Hsz)
      as (g' & Hfit' & Hwf' & _ & Hb & Hold & Hnew & _).
    assert (g' = g2) by congruence. subst g'.
    split; [exact Hwf'|]. split; [exact Hres|]. split; [exact Hfn|].
    split; [exact Hb|].
    intros cx cy Hcx Hcy.
    unfold grid_bounds in Hb. destruct (shape (data g2)) as [h2 w2].
    injection Hb as Hbx Hby Hbw Hbh. cbn [fst snd] in *.
    destruct (cell_at g cx cy) as [v0|] eqn:E.
    + cbn. apply Hold. exact E.
    + cbn. apply Hnew; [lia | lia | exact E].
Qed.

(** ** Writing, cell by cell *)

Lemma marked_in_extent g m cx cy :
  shape m = shape (data g) ->
  x g <= cx < x g + snd (shape (data g)) ->
  y g <= cy < y g + fst (shape (data g)) ->
  marked g m cx cy =
  nth (Z.to_nat ((cy - y g) * snd (shape (data g)) + (cx - x g))) (buf m) false.
Proof.
  intros Hs Hx Hy. unfold marked. rewrite Hs.
  destruct (shape (data g)) as [h w]. cbn [fst snd] in *.
  replace ((x g <=? cx) && (cx <? x g + w) && (y g <=? cy) && (cy <? y g + h))
    with true; [reflexivity|].
  symmetry. rewrite !andb_true_iff, !Z.leb_le, !Z.ltb_lt. lia.
Qed.

(** The frame and the cells of the grid a geometry write produces. *)
Lemma setitem_spec g geom value g1 :
  wf_grid g -> setitem g (KGeometry geom) value = Ok g1 ->
  exists minx miny maxx maxy g2 m,
    _get_geometry_bounds g geom = Ok (minx, miny, maxx, maxy) /\
    fit_bounds g minx miny maxx maxy = Ok g2 /\
    get_geometry_cells g2 geom (Some (minx, miny, maxx, maxy)) = Ok m /\
    shape m = shape (data g2) /\ length (buf m) = length (buf (data g2)) /\
    wf_grid g2 /\ wf_grid g1 /\
    resolution g1 = resolution g /\ filename g1 = filename g /\
    x g1 = x g2 /\ y g1 = y g2 /\ shape (data g1) = shape (data g2) /\
    buf (data g1) =
      zip_with (fun (b : bool) old => if b then as_uint16 value else old)
               (buf m) (buf (data g2)) /\
    forall cx cy,
      marked g2 m cx cy =
      (x g2 <=? cx) && (cx <? x g2 + snd (shape (data g2))) &&
      (y g2 <=? cy) && (cy <? y g2 + fst (shape (data g2))) &&
      ((minx <=? cx) && (cx <? maxx) && (miny <=? cy) && (cy <? maxy) &&
       cell_hit g geom cx cy).
Proof.
  intros Hwf H.
  destruct (setitem_inv _ _ _ _ H)
    as (minx & miny & maxx & maxy & g2 & m & d & Hb & Hfit & Hm & Hd & ->).
  pose proof (get_geometry_bounds_ok _ _ _ Hb) as Hres.
  destruct (fit_bounds_cells _ _ _ _ _ _ Hwf Hfit) as (Hwf2 & Hres2 & Hfn2 & _).
  destruct (get_geometry_cells_spec g2 geom minx miny maxx maxy (proj1 Hwf2))
    as (m' & Hm' & Hsm & Hlm & Hmark); [lia|].
  assert (m' = m) by congruence. subst m'.
  destruct (setmask_wf g2 m value d Hwf2 Hlm Hd) as (Hwf1 & Hsd & Hld).
  destruct (setmask_inv _ _ _ _ Hd) as [_ Hdd].
  exists minx, miny, maxx, maxy, g2, m.
  cbn [resolution filename x y data].
  repeat (split; [first [assumption | reflexivity | congruence]|]).
  split; [rewrite Hdd; reflexivity|].
  intros cx cy. rewrite Hmark. unfold cell_hit. rewrite Hres2. reflexivity.
Qed.


(** X8 (what a geometry write changes).  A geometry write that succeeds on
    a proper grid keeps resolution and file name, leaves a proper grid
    whose extent is the envelope of the geometry (grid without cells) or
    the union of the old extent and the envelope, and in which a cell
    holds the written value (wrapped to 16 bits) if it lies in the
    envelope and its square meets the geometry, and otherwise the value
    it had before, or zero if it is new. *)
Theorem setitem_cells g geom value g1 :
  wf_grid g -> setitem g (KGeometry geom) value = Ok g1 ->
  exists minx miny maxx maxy,
    _get_geometry_bounds g geom = Ok (minx, miny, maxx, maxy) /\
    wf_grid g1 /\ resolution g1 = resolution g /\ filename g1 = filename g /\
    grid_bounds g1 =
      (if size (data g) =? 0 then (minx, miny, maxx, maxy)
       else (Z.min (x g) minx, Z.min (y g) miny,
             Z.max (x g + snd (shape (data g))) maxx,
             Z.max (y g + fst (shape (data g))) maxy)) /\
    forall cx cy,
      x g1 <= cx < x g1 + snd (shape (data g1)) ->
      y g1 <= cy < y g1 + fst (shape (data g1)) ->
      cell_at g1 cx cy =
      Some (if (minx <=? cx) && (cx <? maxx) && (miny <=? cy) && (cy <? maxy) &&
               cell_hit g geom cx cy
            then as_uint16 value
            else default 0 (cell_at g cx cy)).
Proof.
  intros Hwf H.
  destruct (setitem_spec g geom value g1 Hwf H)
    as (minx & miny & maxx & maxy & g2 & m & Hb & Hfit & Hm & Hsm & Hlm & Hwf2 & Hwf1
        & Hres & Hfn & Hx1 & Hy1 & Hs1 & Hbuf & Hmark).
  destruct (fit_bounds_cells _ _ _ _ _ _ Hwf Hfit) as (_ & _ & _ & Hgb & Hcells).
  exists minx, miny, maxx, maxy.
  split; [exact Hb|]. split; [exact Hwf1|]. split; [exact Hres|]. split; [exact Hfn|].
  split.
  { rewrite <- Hgb. unfold grid_bounds. rewrite Hs1, Hx1, Hy1. reflexivity. }
  intros cx cy Hcx Hcy. rewrite Hs1 in Hcx, Hcy.
  rewrite Hx1 in Hcx. rewrite Hy1 in Hcy.
  pose proof (Hcells cx cy Hcx Hcy) as Hold.
  apply cell_at_Some in Hold. destruct Hold as (_ & _ & Hold).
  apply cell_at_Some. rewrite Hs1, Hx1, Hy1, Hbuf.
  split; [exact Hcx|]. split; [exact Hcy|].
  rewrite lookup_zip_with, Hold.
  pose proof (marked_in_extent g2 m cx cy Hsm Hcx Hcy) as Hmk.
  rewrite Hmark in Hmk.
  replace ((x g2 <=? cx) && (cx <? x g2 + snd (shape (data g2))) &&
           (y g2 <=? cy) && (cy <? y g2 + fst (shape (data g2)))) with true in Hmk
    by (symmetry; rewrite !andb_true_iff, !Z.leb_le, !Z.ltb_lt; lia).
  cbn [andb] in Hmk. rewrite Hmk.
  assert (Hi : (Z.to_nat ((cy - y g2) * snd (shape (data g2)) + (cx - x g2))
                < length (buf m))%nat).
  { rewrite Hlm. apply lookup_lt_Some in Hold. exact Hold. }
  destruct (lookup_lt_is_Some_2 _ _ Hi) as [b Hbm].
  rewrite Hbm. cbn. rewrite (nth_lookup_Some _ _ false _ Hbm). reflexivity.
Qed.

Lemma getmask_after_setmask (ms : list bool) (l : list Z) (v : Z) :
  (length ms <= length l)%nat ->
  omap (fun p : bool * Z => if p.1 then Some p.2 else None)
       (zip ms (zip_with (fun (b : bool) old => if b then v else old) ms l)) =
  replicate (length (filter (fun b : bool => b = true) ms)) v.
Proof.
  revert l. induction ms as [|b ms IH]; intros l Hl; [reflexivity|].
  destruct l as [|z l]; [cbn in Hl; lia|].
  cbn [zip_with zip]. cbn [length] in Hl.
  destruct b.
  - rewrite filter_cons_True by reflexivity. cbn. f_equal. apply IH. lia.
  - rewrite filter_cons_False by discriminate. cbn. apply IH. lia.
Qed.


(** X9 (write, then read).  After a geometry write, a read with the same
    geometry returns the written value (wrapped to 16 bits) once for
    every cell the geometry marks, and nothing else. *)
Theorem write_then_read g geom value g1 :
  wf_grid g -> setitem g (KGeometry geom) value = Ok g1 ->
  exists m,
    get_geometry_cells g1 geom None = Ok m /\
    shape m = shape (data g1) /\
    getitem g1 (KGeometry geom) = Ok (replicate (count_marked m) (as_uint16 value)).
Proof.
  intros Hwf H.
  destruct (setitem_spec g geom value g1 Hwf H)
    as (minx & miny & maxx & maxy & g2 & m & Hb & Hfit & Hm & Hsm & Hlm & Hwf2 & Hwf1
        & Hres & Hfn & Hx1 & Hy1 & Hs1 & Hbuf & _).
  destruct (fit_bounds_frame _ _ _ _ _ _ Hfit) as [Hres2 _].
  assert (Hb1 : _get_geometry_bounds g1 geom = Ok (minx, miny, maxx, maxy))
    by (rewrite (get_geometry_bounds_res g g1 geom Hres); exact Hb).
  assert (Hl1 : length (buf (data g1)) = length (buf (data g2)))
    by (rewrite Hbuf, length_zip_with; lia).
  assert (Hm1 : get_geometry_cells g1 geom (Some (minx, miny, maxx, maxy)) = Ok m).
  { rewrite (get_geometry_cells_frame g2 g1); [exact Hm | congruence | auto..]. }
  exists m. split; [rewrite (get_geometry_cells_None _ _ _ Hb1); exact Hm1|].
  split; [congruence|].
  unfold getitem. rewrite Hb1. cbn [bind]. rewrite Hm1. cbn [bind].
  unfold getmask. rewrite Hs1, Hsm, !Z.eqb_refl. cbn [andb]. f_equal.
  rewrite Hbuf. apply getmask_after_setmask. lia.
Qed.

Lemma omap_ext_elem {A B} (f g : A -> option B) (l : list A) :
  (forall a, a ∈ l -> f a = g a) -> omap f l = omap g l.
Proof.
  induction l as [|a l IH]; intros H; [reflexivity|].
  cbn. rewrite (H a) by (left; reflexivity).
  rewrite IH; [reflexivity|]. intros a' Ha'. apply H. right. exact Ha'.
Qed.


(** X10 (growth does not change reads).  A rectangle whose cell range lies
    in the extent reads the same values after [fit_bounds] as before,
    whatever bounds the grid was grown to. *)
Theorem read_after_growth g minx miny maxx maxy g2 xx yy :
  wf_grid g -> resolution g <> 0 ->
  fit_bounds g minx miny maxx maxy = Ok g2 ->
  x g <= floor_div (start xx) (resolution g) ->
  ceil_div (stop xx) (resolution g) <= x g + snd (shape (data g)) ->
  y g <= floor_div (start yy) (resolution g) ->
  ceil_div (stop yy) (resolution g) <= y g + fst (shape (data g)) ->
  getitem g2 (KTuple xx yy) = getitem g (KTuple xx yy).
Proof.
  intros Hwf Hres Hfit Hx0 Hx1 Hy0 Hy1.
  destruct (fit_bounds_cells _ _ _ _ _ _ Hwf Hfit) as (Hwf2 & Hres2 & _ & Hgb & Hcells).
  assert (Hres2' : resolution g2 <> 0) by congruence.
  unfold grid_bounds in Hgb. destruct (shape (data g2)) as [h2 w2] eqn:Hs2.
  destruct (Z.eqb_spec (size (data g)) 0) as [Hsz|Hsz].
  - (* no cells before: both reads are empty *)
    rewrite (getitem_tuple_empty g xx yy (proj1 Hwf) Hres).
    2:{ destruct Hwf as [(? & ? & _) _]. unfold size in Hsz. nia. }
    apply (getitem_tuple_empty g2 xx yy (proj1 Hwf2) Hres2').
    rewrite Hres2, Hs2. cbn [fst snd].
    destruct Hwf as [(? & ? & _) _]. unfold size in Hsz. nia.
  - injection Hgb as Hbx Hby Hbw Hbh.
    rewrite (getitem_tuple_cells g xx yy (proj1 Hwf) Hres).
    rewrite (getitem_tuple_cells g2 xx yy (proj1 Hwf2) Hres2').
    rewrite Hres2, Hs2. cbn [fst snd]. f_equal.
    replace (Z.max (x g2) _) with (Z.max (x g) (floor_div (start xx) (resolution g)))
      by lia.
    replace (Z.max (y g2) _) with (Z.max (y g) (floor_div (start yy) (resolution g)))
      by lia.
    replace (Z.min (x g2 + w2) _)
      with (Z.min (x g + snd (shape (data g))) (ceil_div (stop xx) (resolution g)))
      by lia.
    replace (Z.min (y g2 + h2) _)
      with (Z.min (y g + fst (shape (data g))) (ceil_div (stop yy) (resolution g)))
      by lia.
    apply flat_map_ext_elem. intros cy Hcy. apply elem_of_zrange in Hcy.
    apply omap_ext_elem. intros cx Hcx. apply elem_of_zrange in Hcx.
    rewrite Hcells by (cbn [fst snd]; lia).
    rewrite cell_at_in by (try exact (proj1 Hwf); lia). reflexivity.
Qed.

Lemma read_rectangle_witness :
  wf_array (data sample_grid) /\ resolution sample_grid <> 0 /\
  getitem sample_grid (KTuple sample_xx sample_yy) =
    Ok (flat_map (fun cy => omap (fun cx => cell_at sample_grid cx cy) (zrange (-2) 0))
                 (zrange 7 8)) /\
  getitem sample_grid (KTuple sample_xx sample_yy) = Ok [2; 3].
Proof.
  assert (Hwf : wf_array (data sample_grid)) by (unfold wf_array, size; simpl; lia).
  assert (Hres : resolution sample_grid <> 0) by (simpl; lia).
  split; [exact Hwf|]. split; [exact Hres|].
  split; [|reflexivity].
  exact (proj1 (read_rectangle sample_grid sample_xx sample_yy Hwf Hres)).
Defined.

Lemma setitem_cells_witness :
  wf_grid sample_grid /\
  exists g1,
    setitem sample_grid (KGeometry sample_point) 65545 = Ok g1 /\
    grid_bounds g1 = (-3, 7, 0, 9) /\
    cell_at g1 (-1) 7 = Some 9 /\ cell_at g1 (-2) 7 = Some 2.
Proof.
  assert (Hwf : wf_grid sample_grid).
  { split; [unfold wf_array, size; simpl; lia|].
    simpl. repeat constructor; unfold is_uint16; lia. }
  split; [exact Hwf|].
  eexists. split; [vm_compute; reflexivity|].
  destruct (setitem_cells sample_grid sample_point 65545 _ Hwf eq_refl)
    as (minx & miny & maxx & maxy & _ & _ & _ & _ & _ & _).
  repeat split.
Defined.

Lemma write_then_read_witness :
  wf_grid sample_grid /\
  exists g1 m,
    setitem sample_grid (KGeometry sample_point) 9 = Ok g1 /\
    get_geometry_cells g1 sample_point None = Ok m /\
    getitem g1 (KGeometry sample_point) = Ok (replicate (count_marked m) (as_uint16 9)).
Proof.
  assert (Hwf : wf_grid sample_grid).
  { split; [unfold wf_array, size; simpl; lia|].
    simpl. repeat constructor; unfold is_uint16; lia. }
  split; [exact Hwf|].
  eexists. 
  assert (Hset : setitem sample_grid (KGeometry sample_point) 9 =
                 Ok (mk_grid 4 (-3) 7 (mk_ndarray (2, 3) [1; 2; 9; 4; 5; 65535]) None))
    by (vm_compute; reflexivity).
  destruct (write_then_read sample_grid sample_point 9 _ Hwf Hset) as (m & Hm & _ & Hget).
  exists m. split; [exact Hset|]. split; [exact Hm | exact Hget].
Defined.

Lemma read_after_growth_witness :
  wf_grid sample_grid /\ resolution sample_grid <> 0 /\
  exists g2,
    fit_bounds sample_grid (-4) 5 (-3) 8 = Ok g2 /\
    getitem g2 (KTuple sample_xx sample_yy) = getitem sample_grid (KTuple sample_xx sample_yy).
Proof.
  assert (Hwf : wf_grid sample_grid).
  { split; [unfold wf_array, size; simpl; lia|].
    simpl. repeat constructor; unfold is_uint16; lia. }
  assert (Hres : resolution sample_grid <> 0) by (simpl; lia).
  split; [exact Hwf|]. split; [exact Hres|].
  eexists. split; [vm_compute; reflexivity|].
  apply (read_after_growth sample_grid (-4) 5 (-3) 8 _ sample_xx sample_yy Hwf Hres);
    [vm_compute; reflexivity | vm_compute; discriminate | vm_compute; discriminate
     | vm_compute; discriminate | vm_compute; discriminate].
Defined.

(** ** The rasterizer in general *)


(** X12 (the rasterizer, for any geometry and any bounds).  On a proper
    grid with a non-zero resolution [get_geometry_cells] never fails,
    whatever candidate bounds it is given (outside the extent, or
    inverted): it returns a mask of the array's shape that marks a cell
    exactly when the cell lies in the extent and in the candidate bounds
    and its square meets the geometry. *)
Theorem get_geometry_cells_marks g geom minx miny maxx maxy :
  wf_array (data g) -> resolution g <> 0 ->
  exists m,
    get_geometry_cells g geom (Some (minx, miny, maxx, maxy)) = Ok m /\
    shape m = shape (data g) /\
    length (buf m) = length (buf (data g)) /\
    forall cx cy,
      marked g m cx cy = true <->
      (x g <= cx < x g + snd (shape (data g)) /\
       y g <= cy < y g + fst (shape (data g))) /\
      (minx <= cx < maxx /\ miny <= cy < maxy) /\
      cell_hit g geom cx cy = true.
Proof.
  intros Hwf Hres.
  destruct (get_geometry_cells_spec g geom minx miny maxx maxy Hwf Hres)
    as (m & Hm & Hs & Hl & Hmark).
  exists m. split; [exact Hm|]. split; [exact Hs|]. split; [exact Hl|].
  intros cx cy. rewrite Hmark.
  rewrite !andb_true_iff, !Z.leb_le, !Z.ltb_lt. tauto.
Qed.

(** ** Growing twice *)

Lemma grid_ext g1 g2 :
  wf_grid g1 -> wf_grid g2 ->
  resolution g1 = resolution g2 -> filename g1 = filename g2 ->
  x g1 = x g2 -> y g1 = y g2 -> shape (data g1) = shape (data g2) ->
  (forall cx cy, cell_at g1 cx cy = cell_at g2 cx cy) ->
  g1 = g2.
Proof.
  destruct g1 as [res1 x1 y1 [[h1 w1] cells1] fn1],
           g2 as [res2 x2 y2 [[h2 w2] cells2] fn2].
  intros [(Hh1 & Hw1 & Hl1) _] [(Hh2 & Hw2 & Hl2) _].
  unfold size in *. cbn [resolution filename x y data shape buf fst snd] in *.
  intros -> -> -> -> [= -> ->] Hcells.
  f_equal. f_equal. apply list_eq. intros i.
  destruct (Z_lt_le_dec (Z.of_nat i) (h2 * w2)) as [Hi|Hi].
  - assert (Hw : 0 < w2) by nia.
    destruct (flat_index_split i h2 w2 Hw Hi) as (Hr & Hc & Ei).
    specialize (Hcells (Z.of_nat i mod w2 + x2) (Z.of_nat i / w2 + y2)).
    unfold cell_at in Hcells. cbn [data shape buf x y] in Hcells.
    replace (_ && _ && _ && _) with true in Hcells
      by (symmetry; rewrite !andb_true_iff, !Z.leb_le, !Z.ltb_lt; lia).
    replace (Z.to_nat _) with i in Hcells by (rewrite Ei at 1; f_equal; lia).
    exact Hcells.
  - rewrite !lookup_ge_None_2 by lia. reflexivity.
Qed.

Lemma cell_default_grown g g1 cx cy :
  (forall cx cy,
     x g1 <= cx < x g1 + snd (shape (data g1)) ->
     y g1 <= cy < y g1 + fst (shape (data g1)) ->
     cell_at g1 cx cy = Some (default 0 (cell_at g cx cy))) ->
  (x g1 <= x g /\ x g + snd (shape (data g)) <= x g1 + snd (shape (data g1))) ->
  (y g1 <= y g /\ y g + fst (shape (data g)) <= y g1 + fst (shape (data g1))) ->
  default 0 (cell_at g1 cx cy) = default 0 (cell_at g cx cy).
Proof.
  intros Hcells Hx Hy.
  destruct (Z_le_gt_dec (x g1) cx), (Z_lt_le_dec cx (x g1 + snd (shape (data g1)))),
           (Z_le_gt_dec (y g1) cy), (Z_lt_le_dec cy (y g1 + fst (shape (data g1))));
    try (rewrite Hcells by lia; reflexivity);
    rewrite (cell_at_outside g1), (cell_at_outside g) by lia; reflexivity.
Qed.


(** One [fit_bounds] on a grid that holds cells, in the form used to
    compare grown grids. *)
Lemma fit_bounds_step g0 a b c d :
  wf_grid g0 -> size (data g0) <> 0 ->
  exists g',
    fit_bounds g0 a b c d = Ok g' /\ wf_grid g' /\ size (data g') <> 0 /\
    resolution g' = resolution g0 /\ filename g' = filename g0 /\
    x g' = Z.min (x g0) a /\ y g' = Z.min (y g0) b /\
    x g' + snd (shape (data g')) = Z.max (x g0 + snd (shape (data g0))) c /\
    y g' + fst (shape (data g')) = Z.max (y g0 + fst (shape (data g0))) d /\
    forall cx cy,
      x g' <= cx < x g' + snd (shape (data g')) ->
      y g' <= cy < y g' + fst (shape (data g')) ->
      cell_at g' cx cy = Some (default 0 (cell_at g0 cx cy)).
Proof.
  intros Hwf0 Hsz0.
  destruct (fit_bounds_nonempty_growth g0 a b c d Hwf0 Hsz0) as (g' & Hfit & _).
  destruct (fit_bounds_cells _ _ _ _ _ _ Hwf0 Hfit) as (Hwf' & Hr & Hf & Hgb & Hc).
  replace (size (data g0) =? 0) with false in Hgb
    by (symmetry; apply Z.eqb_neq; exact Hsz0).
  unfold grid_bounds in Hgb. destruct (shape (data g')) as [h' w'] eqn:Hs'.
  injection Hgb as Hx Hy Hw Hh.
  destruct (size_nonzero _ (proj1 Hwf0) Hsz0) as [Hh0 Hw0].
  exists g'. rewrite Hs'. cbn [fst snd].
  split; [exact Hfit|]. split; [exact Hwf'|].
  split; [unfold size; rewrite Hs'; cbn [fst snd]; clear - Hx Hy Hw Hh Hh0 Hw0; nia|].
  split; [exact Hr|]. split; [exact Hf|].
  split; [exact Hx|]. split; [exact Hy|]. split; [exact Hw|]. split; [exact Hh|].
  exact Hc.
Qed.

(** Two proper grids with the same frame whose cells come from the same
    grid are equal. *)
Lemma grown_same g ga gb gm :
  wf_grid ga -> wf_grid gb ->
  resolution ga = resolution gb -> filename ga = filename gb ->
  x ga = x gb -> y ga = y gb ->
  x ga + snd (shape (data ga)) = x gb + snd (shape (data gb)) ->
  y ga + fst (shape (data ga)) = y gb + fst (shape (data gb)) ->
  (forall cx cy,
     x ga <= cx < x ga + snd (shape (data ga)) ->
     y ga <= cy < y ga + fst (shape (data ga)) ->
     cell_at ga cx cy = Some (default 0 (cell_at gm cx cy))) ->
  (forall cx cy,
     x gb <= cx < x gb + snd (shape (data gb)) ->
     y gb <= cy < y gb + fst (shape (data gb)) ->
     cell_at gb cx cy = Some (default 0 (cell_at g cx cy))) ->
  (forall cx cy, default 0 (cell_at gm cx cy) = default 0 (cell_at g cx cy)) ->
  ga = gb.
Proof.
  intros Hwa Hwb Hr Hn Hx Hy Hw Hh Hca Hcb Hd.
  assert (Hs : shape (data ga) = shape (data gb)).
  { destruct (shape (data ga)), (shape (data gb)). cbn [fst snd] in *.
    f_equal; [clear - Hy Hh | clear - Hx Hw]; lia. }
  apply grid_ext; try assumption.
  intros cx cy.
  destruct (Z_le_gt_dec (x ga) cx), (Z_lt_le_dec cx (x ga + snd (shape (data ga)))),
           (Z_le_gt_dec (y ga) cy), (Z_lt_le_dec cy (y ga + fst (shape (data ga))));
    try (rewrite Hca, Hcb, Hd by lia; reflexivity);
    rewrite (cell_at_outside ga), (cell_at_outside gb) by lia; reflexivity.
Qed.

(** Growing in two steps or in one. *)
Lemma fit_bounds_two_steps g a1 b1 c1 d1 a2 b2 c2 d2 g1 g12 g3 :
  wf_grid g -> size (data g) <> 0 ->
  fit_bounds g a1 b1 c1 d1 = Ok g1 ->
  fit_bounds g1 a2 b2 c2 d2 = Ok g12 ->
  fit_bounds g (Z.min a1 a2) (Z.min b1 b2) (Z.max c1 c2) (Z.max d1 d2) = Ok g3 ->
  g12 = g3.
Proof.
  intros Hwf Hsz Hf1 Hf12 Hf3.
  destruct (fit_bounds_step g a1 b1 c1 d1 Hwf Hsz)
    as (g1' & Hf1' & Hwf1 & Hsz1 & Hr1 & Hn1 & Hx1 & Hy1 & Hw1 & Hh1 & Hc1).
  assert (g1' = g1) by congruence. subst g1'.
  destruct (fit_bounds_step g1 a2 b2 c2 d2 Hwf1 Hsz1)
    as (g12' & Hf12' & Hwf12 & _ & Hr12 & Hn12 & Hx12 & Hy12 & Hw12 & Hh12 & Hc12).
  assert (g12' = g12) by congruence. subst g12'.
  destruct (fit_bounds_step g (Z.min a1 a2) (Z.min b1 b2) (Z.max c1 c2) (Z.max d1 d2)
              Hwf Hsz)
    as (g3' & Hf3' & Hwf3 & _ & Hr3 & Hn3 & Hx3 & Hy3 & Hw3 & Hh3 & Hc3).
  assert (g3' = g3) by congruence. subst g3'.
  apply (grown_same g g12 g3 g1); try assumption.
  - congruence.
  - congruence.
  - clear - Hx1 Hx12 Hx3. lia.
  - clear - Hy1 Hy12 Hy3. lia.
  - clear - Hw1 Hw12 Hw3. lia.
  - clear - Hh1 Hh12 Hh3. lia.
  - intros cx cy. apply cell_default_grown; [exact Hc1 | |].
    + clear - Hx1 Hw1. lia.
    + clear - Hy1 Hh1. lia.
Qed.

(** X13 (growing twice).  On a proper grid that holds cells, two
    successive [fit_bounds] give the same grid in either order, and the
    same grid as one [fit_bounds] with the smallest bounds that contain
    both requests. *)
Theorem fit_bounds_compose g a1 b1 c1 d1 a2 b2 c2 d2 :
  wf_grid g -> size (data g) <> 0 ->
  exists g1 g2 g12,
    fit_bounds g a1 b1 c1 d1 = Ok g1 /\
    fit_bounds g1 a2 b2 c2 d2 = Ok g12 /\
    fit_bounds g a2 b2 c2 d2 = Ok g2 /\
    fit_bounds g2 a1 b1 c1 d1 = Ok g12 /\
    fit_bounds g (Z.min a1 a2) (Z.min b1 b2) (Z.max c1 c2) (Z.max d1 d2) = Ok g12.
Proof.
  intros Hwf Hsz.
  destruct (fit_bounds_step g a1 b1 c1 d1 Hwf Hsz) as (g1 & Hf1 & Hwf1 & Hsz1 & _).
  destruct (fit_bounds_step g a2 b2 c2 d2 Hwf Hsz) as (g2 & Hf2 & Hwf2 & Hsz2 & _).
  destruct (fit_bounds_step g1 a2 b2 c2 d2 Hwf1 Hsz1) as (g12 & Hf12 & _).
  destruct (fit_bounds_step g2 a1 b1 c1 d1 Hwf2 Hsz2) as (g21 & Hf21 & _).
  destruct (fit_bounds_step g (Z.min a1 a2) (Z.min b1 b2) (Z.max c1 c2) (Z.max d1 d2)
              Hwf Hsz) as (g3 & Hf3 & _).
  assert (E12 : g12 = g3)
    by exact (fit_bounds_two_steps g a1 b1 c1 d1 a2 b2 c2 d2 g1 g12 g3
                Hwf Hsz Hf1 Hf12 Hf3).
  assert (E21 : g21 = g3).
  { apply (fit_bounds_two_steps g a2 b2 c2 d2 a1 b1 c1 d1 g2 g21 g3 Hwf Hsz Hf2 Hf21).
    rewrite (Z.min_comm a2 a1), (Z.min_comm b2 b1), (Z.max_comm c2 c1), (Z.max_comm d2 d1).
    exact Hf3. }
  exists g1, g2, g12. subst g12 g21. auto.
Qed.

(** ** File names *)

Lemma append_String ch (a b : string) : String ch a +:+ b = String ch (a +:+ b).
Proof. reflexivity. Qed.

Lemma append_Empty (b : string) : "" +:+ b = b.
Proof. reflexivity. Qed.

Lemma append_assoc (a b c : string) : (a +:+ b) +:+ c = a +:+ (b +:+ c).
Proof.
  induction a as [|ch a IH]; [reflexivity|].
  rewrite !append_String. now rewrite IH.
Qed.

Lemma append_cancel_l (a b c : string) : a +:+ b = a +:+ c -> b = c.
Proof.
  induction a as [|ch a IH]; [auto|].
  rewrite !append_String. intros [= H]. auto.
Qed.

Lemma length_append (a b : string) :
  String.length (a +:+ b) = (String.length a + String.length b)%nat.
Proof.
  induction a as [|ch a IH]; [reflexivity|].
  rewrite append_String. cbn [String.length]. now rewrite IH.
Qed.

Lemma append_cancel_r (a b c : string) : a +:+ c = b +:+ c -> a = b.
Proof.
  revert b. induction a as [|ch a IH]; intros [|ch' b] H.
  - reflexivity.
  - apply (f_equal String.length) in H. rewrite append_Empty, append_String in H.
    cbn [String.length] in H. rewrite length_append in H. lia.
  - apply (f_equal String.length) in H. rewrite append_Empty, append_String in H.
    cbn [String.length] in H. rewrite length_append in H. lia.
  - rewrite !append_String in H. injection H as -> H. f_equal. auto.
Qed.

Lemma occurs_append c a b : occurs c (a +:+ b) = occurs c a || occurs c b.
Proof.
  induction a as [|ch a IH]; [reflexivity|].
  rewrite append_String. cbn [occurs].
  destruct (Ascii.eqb c ch); [reflexivity | exact IH].
Qed.

Lemma pretty_N_char_no_underscore (x : N) : Ascii.eqb "_" (pretty_N_char x) = false.
Proof. unfold pretty_N_char. repeat case_match; reflexivity. Qed.

Lemma pretty_N_go_no_underscore (n : N) (s : string) :
  occurs "_" s = false -> occurs "_" (pretty_N_go n s) = false.
Proof.
  revert s. induction (N.lt_wf_0 n) as [n _ IH]. intros s Hs.
  destruct (N.eq_dec n 0%N) as [->|Hn].
  - rewrite pretty_N_go_0. exact Hs.
  - rewrite pretty_N_go_step by lia. apply IH.
    + apply N.div_lt; lia.
    + cbn [occurs]. rewrite Hs, pretty_N_char_no_underscore. reflexivity.
Qed.

Lemma pretty_Z_no_underscore (z : Z) : occurs "_" (pretty z) = false.
Proof.
  destruct z as [|p|p]; unfold pretty, pretty_Z.
  - reflexivity.
  - unfold pretty, pretty_positive, pretty, pretty_N.
    destruct (decide (N.pos p = 0%N)); [reflexivity|].
    apply pretty_N_go_no_underscore. reflexivity.
  - rewrite occurs_append.
    replace (occurs "_" "-") with false by reflexivity. cbn [orb].
    unfold pretty, pretty_positive, pretty, pretty_N.
    destruct (decide (N.pos p = 0%N)); [reflexivity|].
    apply pretty_N_go_no_underscore. reflexivity.
Qed.

Lemma occurs_underscore_tail (s p : string) : occurs "_" (s +:+ String "_" p) = true.
Proof.
  rewrite occurs_append.
  replace (occurs "_" (String "_" p)) with true by reflexivity.
  apply orb_true_r.
Qed.

(** The text behind the last underscore determines the split. *)
Lemma split_last_underscore (s1 s2 p1 p2 : string) :
  occurs "_" p1 = false -> occurs "_" p2 = false ->
  s1 +:+ "_" +:+ p1 = s2 +:+ "_" +:+ p2 -> s1 = s2 /\ p1 = p2.
Proof.
  intros H1 H2. revert s2. induction s1 as [|c s1 IH]; intros [|c' s2] H.
  - rewrite !append_Empty, !append_String, !append_Empty in H.
    injection H as ->. auto.
  - rewrite !append_Empty, !append_String, !append_Empty in H.
    injection H as <- ->.
    rewrite occurs_underscore_tail in H1. discriminate.
  - rewrite !append_Empty, !append_String, !append_Empty in H.
    injection H as -> <-.
    rewrite occurs_underscore_tail in H2. discriminate.
  - rewrite !append_String in H. injection H as -> H.
    destruct (IH _ H) as [-> ->]. auto.
Qed.

Lemma prefix_slash c (s : string) :
  String.prefix "/" (String c s) = if ascii_dec "/" c then true else false.
Proof.
  cbn [String.prefix]. destruct (ascii_dec "/" c); [destruct s|]; reflexivity.
Qed.

Lemma path_join_inj (root pre t1 t2 : string) :
  pre <> "" ->
  path_join root (pre +:+ t1) = path_join root (pre +:+ t2) -> t1 = t2.
Proof.
  intros Hpre. destruct pre as [|c pre]; [contradiction|].
  assert (Hname : String c (pre +:+ t1) = String c (pre +:+ t2) -> t1 = t2).
  { intros H. injection H as H. exact (append_cancel_l pre _ _ H). }
  assert (Hcat : root +:+ String c (pre +:+ t1) = root +:+ String c (pre +:+ t2) ->
                 t1 = t2).
  { intros H. apply append_cancel_l in H. auto. }
  assert (Hsep : root +:+ "/" +:+ String c (pre +:+ t1)
                 = root +:+ "/" +:+ String c (pre +:+ t2) -> t1 = t2).
  { intros H. apply append_cancel_l in H.
    rewrite !(append_String "/"), !append_Empty in H. injection H as H.
    exact (append_cancel_l pre _ _ H). }
  unfold path_join. rewrite !append_String, !prefix_slash.
  destruct (ascii_dec "/" c) as [Hc|Hc]; [exact Hname|].
  destruct (String.length root =? 0)%nat; [exact Hname|].
  destruct (String.get (String.length root - 1) root) as [a|]; [|exact Hsep].
  destruct a as [[] [] [] [] [] [] [] []]; first [exact Hcat | exact Hsep].
Qed.

Lemma level_filename_inj_pair root cls level_id mode level_id' mode' :
  level_filename root cls level_id mode = level_filename root cls level_id' mode' ->
  (level_id, mode) = (level_id', mode').
Proof.
  unfold level_filename. intros H.
  rewrite <- !(append_assoc (str_of_name (variant_name cls)) "_") in H.
  apply path_join_inj in H.
  2:{ destruct (str_of_name (variant_name cls)); discriminate. }
  change ("_level_" +:+ pretty level_id) with ("_level" +:+ "_" +:+ pretty level_id) in H.
  change ("_level_" +:+ pretty level_id') with ("_level" +:+ "_" +:+ pretty level_id') in H.
  rewrite <- !(append_assoc _ "_level") in H.
  apply split_last_underscore in H; try apply pretty_Z_no_underscore.
  destruct H as [Hm Hl].
  f_equal; [apply (inj pretty); exact Hl | apply (append_cancel_r _ _ _ Hm)].
Qed.


(** X14 (one file per key).  Within a class, two keys [(level_id, mode)]
    name the same file only when they are the same key. *)
Theorem level_filename_inj root cls level_id mode level_id' mode' :
  level_filename root cls level_id mode = level_filename root cls level_id' mode' <->
  level_id = level_id' /\ mode = mode'.
Proof.
  split.
  - intros H. apply level_filename_inj_pair in H. injection H as -> ->. auto.
  - intros [-> ->]. reflexivity.
Qed.

(** ** The level store *)


(** X15 (the level store).  [save_level] of a representable, proper grid
    followed by [open_level] for the same key returns the grid, named
    after its file; for every other key [open_level] returns what it
    returned before. *)
Theorem level_store root cls g level_id mode fs :
  representable (level_variant cls) g -> wf_grid g ->
  exists fs',
    save_level root cls g level_id mode fs = (Ok tt, fs') /\
    open_level root cls fs' level_id mode =
      Ok (mk_grid (resolution g) (x g) (y g) (data g)
                  (Some (level_filename root cls level_id mode))) /\
    forall level_id' mode',
      (level_id', mode') <> (level_id, mode) ->
      open_level root cls fs' level_id' mode' = open_level root cls fs level_id' mode'.
Proof.
  intros Hrep Hwf. unfold save_level, open_level.
  rewrite (save_some (level_variant cls) g (Some (level_filename root cls level_id mode))
             (level_filename root cls level_id mode) fs eq_refl).
  rewrite (write_ok _ g [] Hrep Hwf). cbn [app].
  eexists. split; [reflexivity|]. split.
  - unfold open, filesystem in *. rewrite lookup_insert_eq.
    pose proof (read_encoding (level_variant cls) g [] Hrep Hwf) as Hr.
    rewrite !app_nil_r in Hr. cbn [app le16] in Hr |- *. rewrite Hr. reflexivity.
  - intros level_id' mode' Hne. unfold open, filesystem in *.
    rewrite lookup_insert_ne; [reflexivity|].
    intros E. apply level_filename_inj_pair in E. congruence.
Qed.

(** ** The cache against the files *)

Section CacheCoherence.
Context {token : Type} `{EqDecision token}.
Variable CACHE_ROOT : string.
Variable cls : level_class.

(** A call in a world whose files the mapping agrees with returns what an
    uncached load returns, and the mapping still agrees afterwards. *)
Lemma step_coherent (st : cache_state token) (w : world token) level_id mode r st' loads :
  (forall l m g, cached st !! (l, m) = Some g ->
                 open_level CACHE_ROOT cls (files w) l m = Ok g) ->
  open_level_cached CACHE_ROOT cls st w level_id mode = (r, st', loads) ->
  r = open_level CACHE_ROOT cls (files w) level_id mode /\
  (forall l m g, cached st' !! (l, m) = Some g ->
                 open_level CACHE_ROOT cls (files w) l m = Ok g).
Proof.
  intros Hco Hstep.
  destruct (decide (cache_key st = Some (current_processed_cache_key w))) as [He|Hne].
  - destruct (cached st !! (level_id, mode)) as [g0|] eqn:Hc.
    + rewrite (step_hit _ _ _ _ _ _ _ He Hc) in Hstep. injection Hstep as <- <- <-.
      split; [symmetry; apply Hco; exact Hc | exact Hco].
    + rewrite (step_miss _ _ _ _ _ _ He Hc) in Hstep. injection Hstep as <- <- <-.
      split; [reflexivity|].
      destruct (open_level CACHE_ROOT cls (files w) level_id mode) as [g0|e] eqn:Hl;
        [|exact Hco].
      intros l m g. cbn [cached].
      destruct (decide ((level_id, mode) = (l, m))) as [[= <- <-]|Hk].
      * rewrite lookup_insert_eq. intros [= <-]. exact Hl.
      * rewrite lookup_insert_ne by exact Hk. apply Hco.
  - rewrite (step_epoch_changed _ _ _ _ _ _ Hne) in Hstep. injection Hstep as <- <- <-.
    split; [reflexivity|].
    destruct (open_level CACHE_ROOT cls (files w) level_id mode) as [g0|e] eqn:Hl.
    + intros l m g. cbn [cached].
      destruct (decide ((level_id, mode) = (l, m))) as [[= <- <-]|Hk].
      * rewrite lookup_singleton_eq. intros [= <-]. exact Hl.
      * rewrite lookup_singleton_ne by exact Hk. discriminate.
    + intros l m g. cbn [cached]. rewrite lookup_empty. discriminate.
Qed.


(** X16 (the cache is transparent while the files stay).  In a run of
    calls that all see the same files, started in a state whose mapping
    agrees with those files (the initial state does), every call returns
    what an uncached [open_level] returns, whatever the tokens are; and
    every grid in the final mapping is what [open_level] returns for its
    key and carries the file name of its key. *)
Theorem cache_transparent (fs : filesystem) (calls : list (world token * (Z * string)))
    (st : cache_state token) :
  Forall (fun c => files (fst c) = fs) calls ->
  (forall l m g, cached st !! (l, m) = Some g ->
                 open_level CACHE_ROOT cls fs l m = Ok g) ->
  (forall j l m r loads,
     snd (run CACHE_ROOT cls st calls) !! j = Some ((l, m), r, loads) ->
     r = open_level CACHE_ROOT cls fs l m) /\
  (forall l m g,
     cached (fst (run CACHE_ROOT cls st calls)) !! (l, m) = Some g ->
     open_level CACHE_ROOT cls fs l m = Ok g /\
     filename g = Some (level_filename CACHE_ROOT cls l m)).
Proof.
  intros Hcalls. revert st.
  induction Hcalls as [|[w [level_id mode]] calls Hw _ IH]; intros st Hco.
  - cbn. split; [intros; discriminate|].
    intros l m g Hg. split; [apply Hco; exact Hg|].
    apply Hco in Hg. unfold open_level, open in Hg.
    destruct (fs !! _); [|discriminate].
    destruct (fst (read _ _)); cbn [bind] in Hg; [|discriminate].
    injection Hg as <-. reflexivity.
  - cbn [fst] in Hw. cbn [run].
    destruct (open_level_cached CACHE_ROOT cls st w level_id mode)
      as [[r0 st1] loads0] eqn:Hstep.
    destruct (run CACHE_ROOT cls st1 calls) as [st2 trace] eqn:Hrun.
    subst fs.
    destruct (step_coherent st w level_id mode r0 st1 loads0 Hco Hstep) as [Hr Hco1].
    destruct (IH st1 Hco1) as [IHt IHs]. rewrite Hrun in IHt, IHs.
    cbn [fst snd] in *. split; [|exact IHs].
    intros [|j] l m r loads Hj.
    + injection Hj as <- <- <- <-. exact Hr.
    + apply (IHt j l m r loads). exact Hj.
Qed.

End CacheCoherence.

Section CacheAndStore.
Context {token : Type} `{EqDecision token}.
Variable CACHE_ROOT : string.
Variable cls : level_class.


(** X17 (a rewritten file is seen only under a new token).  When a key is
    cached and its file is rewritten with [save_level], a call under the
    stored token still returns the cached grid and reads nothing, although
    [open_level] returns the new grid; a call under any other token
    returns the new grid and leaves it as the only entry. *)
Theorem cache_stale_until_token_changes (st : cache_state token) (tok : token)
    level_id mode g_old g_new fs :
  cache_key st = Some tok ->
  cached st !! (level_id, mode) = Some g_old ->
  representable (level_variant cls) g_new -> wf_grid g_new ->
  let fs' := snd (save_level CACHE_ROOT cls g_new level_id mode fs) in
  let g_new' := mk_grid (resolution g_new) (x g_new) (y g_new) (data g_new)
                        (Some (level_filename CACHE_ROOT cls level_id mode)) in
  open_level CACHE_ROOT cls fs' level_id mode = Ok g_new' /\
  open_level_cached CACHE_ROOT cls st (mk_world tok fs') level_id mode = (Ok g_old, st, []) /\
  forall tok', tok' <> tok ->
    open_level_cached CACHE_ROOT cls st (mk_world tok' fs') level_id mode =
    (Ok g_new', mk_cache {[ (level_id, mode) := g_new' ]} (Some tok'), [(level_id, mode)]).
Proof.
  intros He Hc Hrep Hwf fs' g_new'.
  assert (Hopen : open_level CACHE_ROOT cls fs' level_id mode = Ok g_new').
  { subst fs' g_new'. unfold save_level, open_level.
    rewrite (save_some (level_variant cls) g_new
               (Some (level_filename CACHE_ROOT cls level_id mode))
               (level_filename CACHE_ROOT cls level_id mode) fs eq_refl).
    rewrite (write_ok _ g_new [] Hrep Hwf). cbn [app snd].
    unfold open, filesystem in *. rewrite lookup_insert_eq.
    pose proof (read_encoding (level_variant cls) g_new [] Hrep Hwf) as Hr.
    rewrite !app_nil_r in Hr. cbn [app le16] in Hr |- *. rewrite Hr. reflexivity. }
  split; [exact Hopen|]. split.
  - apply step_hit; [exact He | exact Hc].
  - intros tok' Hne.
    rewrite step_epoch_changed by (cbn [current_processed_cache_key]; congruence).
    cbn [files current_processed_cache_key]. rewrite Hopen. reflexivity.
Qed.


(** X18 (failures are not cached).  A call of [open_level_cached] raises
    only when the load it performed raised; the key is then absent from
    the mapping, and the next call for it, in whatever world, loads the
    file again. *)
Theorem failed_load_not_cached (st : cache_state token) (w : world token)
    level_id mode e st' loads :
  open_level_cached CACHE_ROOT cls st w level_id mode = (Raise e, st', loads) ->
  loads = [(level_id, mode)] /\
  open_level CACHE_ROOT cls (files w) level_id mode = Raise e /\
  cached st' !! (level_id, mode) = None /\
  forall w' : world token,
    exists st'',
      open_level_cached CACHE_ROOT cls st' w' level_id mode =
      (open_level CACHE_ROOT cls (files w') level_id mode, st'', [(level_id, mode)]).
Proof.
  intros Hstep.
  assert (Hpost : loads = [(level_id, mode)] /\
                  open_level CACHE_ROOT cls (files w) level_id mode = Raise e /\
                  cached st' !! (level_id, mode) = None).
  { destruct (decide (cache_key st = Some (current_processed_cache_key w))) as [He|Hne].
    - destruct (cached st !! (level_id, mode)) as [g0|] eqn:Hc.
      + rewrite (step_hit _ _ _ _ _ _ _ He Hc) in Hstep. discriminate.
      + rewrite (step_miss _ _ _ _ _ _ He Hc) in Hstep.
        destruct (open_level CACHE_ROOT cls (files w) level_id mode) as [g0|e0];
          [discriminate|].
        injection Hstep as <- <- <-. auto.
    - rewrite (step_epoch_changed _ _ _ _ _ _ Hne) in Hstep.
      destruct (open_level CACHE_ROOT cls (files w) level_id mode) as [g0|e0];
        [discriminate|].
      injection Hstep as <- <- <-. cbn [cached]. rewrite lookup_empty. auto. }
  destruct Hpost as (Hl & Ho & Hnone).
  split; [exact Hl|]. split; [exact Ho|]. split; [exact Hnone|].
  intros w'.
  destruct (decide (cache_key st' = Some (current_processed_cache_key w'))) as [He|Hne].
  - rewrite (step_miss _ _ _ _ _ _ He Hnone). eexists. reflexivity.
  - rewrite (step_epoch_changed _ _ _ _ _ _ Hne). eexists. reflexivity.
Qed.

End CacheAndStore.

(** ** When growth fails *)


(** X19 (when growth fails).  On a proper grid [fit_bounds] succeeds
    exactly when the grid holds cells or the requested bounds are ordered
    on both axes; otherwise it raises [ValueError]. *)
Theorem fit_bounds_succeeds_iff g minx miny maxx maxy :
  wf_grid g ->
  ((exists g', fit_bounds g minx miny maxx maxy = Ok g') <->
   size (data g) <> 0 \/ (minx <= maxx /\ miny <= maxy)) /\
  ((forall g', fit_bounds g minx miny maxx maxy <> Ok g') ->
   exists msg, fit_bounds g minx miny maxx maxy = Raise (ValueError msg)).
Proof.
  intros Hwf.
  assert (Hiff : (exists g', fit_bounds g minx miny maxx maxy = Ok g') <->
                 size (data g) <> 0 \/ (minx <= maxx /\ miny <= maxy)).
  { split.
    - intros [g' Hfit].
      destruct (Z.eq_dec (size (data g)) 0) as [Hsz|Hsz]; [right|left; exact Hsz].
      exact (fit_bounds_empty_inv _ _ _ _ _ _ Hsz Hfit).
    - intros [Hsz|[Hx Hy]].
      + destruct (fit_bounds_nonempty_growth g minx miny maxx maxy Hwf Hsz)
          as (g' & Hfit & _). eauto.
      + destruct (Z.eq_dec (size (data g)) 0) as [Hsz|Hsz].
        * rewrite fit_bounds_empty by assumption. eauto.
        * destruct (fit_bounds_nonempty_growth g minx miny maxx maxy Hwf Hsz)
            as (g' & Hfit & _). eauto. }
  split; [exact Hiff|].
  intros Hno.
  destruct (Z.eq_dec (size (data g)) 0) as [Hsz|Hsz].
  - unfold fit_bounds. destruct (shape (data g)) as [h w].
    rewrite Hsz. cbn [Z.eqb negb]. unfold np_zeros, np_full. cbn [fst snd].
    destruct ((maxy - miny <? 0) || (maxx - minx <? 0)) eqn:E.
    + eexists. reflexivity.
    + exfalso. apply orb_false_iff in E. destruct E as [E1 E2].
      apply Z.ltb_ge in E1, E2.
      destruct (proj2 Hiff) as [g' Hfit]; [right; lia|].
      exact (Hno g' Hfit).
  - exfalso. destruct (proj2 Hiff) as [g' Hfit]; [left; exact Hsz|].
    exact (Hno g' Hfit).
Qed.

Lemma get_geometry_cells_marks_witness :
  wf_array (data sample_grid) /\ resolution sample_grid <> 0 /\
  exists m,
    get_geometry_cells sample_grid sample_point (Some (-100, 100, 100, -100)) = Ok m /\
    shape m = (2, 3).
Proof.
  assert (Hwf : wf_array (data sample_grid)) by (unfold wf_array, size; simpl; lia).
  assert (Hres : resolution sample_grid <> 0) by (simpl; lia).
  split; [exact Hwf|]. split; [exact Hres|].
  destruct (get_geometry_cells_marks sample_grid sample_point (-100) 100 100 (-100)
              Hwf Hres) as (m & Hm & Hs & _).
  exists m. split; [exact Hm | exact Hs].
Defined.

Lemma fit_bounds_compose_witness :
  wf_grid sample_grid /\ size (data sample_grid) <> 0 /\
  exists g1 g2 g12,
    fit_bounds sample_grid (-4) 5 (-3) 8 = Ok g1 /\
    fit_bounds g1 0 0 2 2 = Ok g12 /\
    fit_bounds sample_grid 0 0 2 2 = Ok g2 /\
    fit_bounds g2 (-4) 5 (-3) 8 = Ok g12 /\
    fit_bounds sample_grid (-4) 0 2 8 = Ok g12.
Proof.
  assert (Hwf : wf_grid sample_grid).
  { split; [unfold wf_array, size; simpl; lia|].
    simpl. repeat constructor; unfold is_uint16; lia. }
  assert (Hsz : size (data sample_grid) <> 0) by (unfold size; simpl; lia).
  split; [exact Hwf|]. split; [exact Hsz|].
  exact (fit_bounds_compose sample_grid (-4) 5 (-3) 8 0 0 2 2 Hwf Hsz).
Defined.

Lemma level_filename_inj_witness :
  level_filename "/cache" sample_class 3 "base" =
    level_filename "/cache" sample_class 3 "base" /\
  (3 = 3 /\ "base" = "base").
Proof.
  assert (H : level_filename "/cache" sample_class 3 "base" =
              level_filename "/cache" sample_class 3 "base") by reflexivity.
  split; [exact H|].
  exact (proj1 (level_filename_inj "/cache" sample_class 3 "base" 3 "base") H).
Defined.

Lemma level_store_witness :
  representable (level_variant sample_class) sample_grid /\ wf_grid sample_grid /\
  exists fs',
    save_level "/cache" sample_class sample_grid 3 "base" ∅ = (Ok tt, fs') /\
    open_level "/cache" sample_class fs' 3 "base" =
      Ok (mk_grid 4 (-3) 7 (mk_ndarray (2, 3) [1; 2; 3; 4; 5; 65535])
                  (Some "/cache/sample_base_level_3")).
Proof.
  assert (Hrep : representable (level_variant sample_class) sample_grid)
    by (unfold representable; simpl; lia).
  assert (Hwf : wf_grid sample_grid).
  { split; [unfold wf_array, size; simpl; lia|].
    simpl. repeat constructor; unfold is_uint16; lia. }
  split; [exact Hrep|]. split; [exact Hwf|].
  destruct (level_store "/cache" sample_class sample_grid 3 "base" ∅ Hrep Hwf)
    as (fs' & Hs & Ho & _).
  exists fs'. split; [exact Hs | exact Ho].
Defined.

Lemma cache_transparent_witness :
  Forall (fun c : world Z * (Z * string) => files (fst c) = sample_files) sample_calls /\
  (forall l m g, cached (cache_init (token := Z)) !! (l, m) = Some g ->
                 open_level "/cache" sample_class sample_files l m = Ok g) /\
  forall j l m r loads,
    snd (run "/cache" sample_class cache_init sample_calls) !! j = Some ((l, m), r, loads) ->
    r = open_level "/cache" sample_class sample_files l m.
Proof.
  assert (Hcalls : Forall (fun c : world Z * (Z * string) => files (fst c) = sample_files)
                          sample_calls) by (repeat constructor).
  assert (Hco : forall l m g, cached (cache_init (token := Z)) !! (l, m) = Some g ->
                   open_level "/cache" sample_class sample_files l m = Ok g).
  { intros l m g Hg. cbn [cache_init cached] in Hg. rewrite lookup_empty in Hg.
    discriminate. }
  split; [exact Hcalls|]. split; [exact Hco|].
  exact (proj1 (cache_transparent "/cache" sample_class sample_files sample_calls
                  cache_init Hcalls Hco)).
Defined.

Lemma cache_stale_until_token_changes_witness :
  cache_key (mk_cache {[ (3, "base") := coarse_grid ]} (Some 1)) = Some 1 /\
  (cached (mk_cache (token := Z) {[ (3, "base") := coarse_grid ]} (Some 1))
     !! (3, "base") = Some coarse_grid) /\
  representable (level_variant sample_class) sample_grid /\ wf_grid sample_grid /\
  open_level_cached "/cache" sample_class
    (mk_cache {[ (3, "base") := coarse_grid ]} (Some 1))
    (mk_world 1 sample_files) 3 "base" =
  (Ok coarse_grid, mk_cache {[ (3, "base") := coarse_grid ]} (Some 1), []).
Proof.
  assert (He : cache_key (mk_cache {[ (3, "base") := coarse_grid ]} (Some 1)) = Some 1)
    by reflexivity.
  assert (Hc : cached (mk_cache (token := Z) {[ (3, "base") := coarse_grid ]} (Some 1))
                 !! (3, "base") = Some coarse_grid)
    by apply lookup_singleton_eq.
  assert (Hrep : representable (level_variant sample_class) sample_grid)
    by (unfold representable; simpl; lia).
  assert (Hwf : wf_grid sample_grid).
  { split; [unfold wf_array, size; simpl; lia|].
    simpl. repeat constructor; unfold is_uint16; lia. }
  split; [exact He|]. split; [exact Hc|]. split; [exact Hrep|]. split; [exact Hwf|].
  exact (proj1 (proj2 (cache_stale_until_token_changes "/cache" sample_class _ 1 3 "base"
                         coarse_grid sample_grid ∅ He Hc Hrep Hwf))).
Defined.

Lemma failed_load_not_cached_witness :
  open_level_cached "/cache" sample_class (cache_init (token := Z))
    (mk_world 1 sample_files) 4 "base" =
    (Raise OSError, mk_cache ∅ (Some 1), [(4, "base")]) /\
  exists st'',
    open_level_cached "/cache" sample_class (mk_cache ∅ (Some 1))
      (mk_world 1 sample_files) 4 "base" =
    (open_level "/cache" sample_class sample_files 4 "base", st'', [(4, "base")]).
Proof.
  assert (Hstep : open_level_cached "/cache" sample_class (cache_init (token := Z))
                    (mk_world 1 sample_files) 4 "base" =
                  (Raise OSError, mk_cache ∅ (Some 1), [(4, "base")]))
    by (vm_compute; reflexivity).
  split; [exact Hstep|].
  destruct (failed_load_not_cached "/cache" sample_class _ _ _ _ _ _ _ Hstep)
    as (_ & _ & _ & Hnext).
  exact (Hnext (mk_world 1 sample_files)).
Defined.

Lemma fit_bounds_succeeds_iff_witness :
  wf_grid empty_grid /\
  ~ (size (data empty_grid) <> 0 \/ (5 <= 3 /\ 5 <= 7)) /\
  exists msg, fit_bounds empty_grid 5 5 3 7 = Raise (ValueError msg).
Proof.
  assert (Hwf : wf_grid empty_grid).
  { split; [unfold wf_array, size; simpl; lia | simpl; constructor]. }
  assert (Hno : ~ (size (data empty_grid) <> 0 \/ (5 <= 3 /\ 5 <= 7)))
    by (unfold size; simpl; lia).
  split; [exact Hwf|]. split; [exact Hno|].
  destruct (fit_bounds_succeeds_iff empty_grid 5 5 3 7 Hwf) as [Hiff Hraise].
  apply Hraise. intros g' Hg'. apply Hno. apply Hiff. eauto.
Defined.
